(** * precision-desktop: the calibration engine

    A shallow embedding of [calibration.py] (estimation, persistence,
    verification, conversion), of [health_check.py] (the classifier of the
    record and the report of [run_all_checks]) and of the tools of
    [server.py] that work on the calibration record, followed by the
    properties of the engine.  What the checks of the environment find on
    the machine (PowerShell's output, the windows-mcp install) and the time
    of a call are arguments of the model.

    Numbers.  Python's [int] is [Z].  A finite Python [float] (IEEE 754
    binary64) is the rational it denotes; every float operation is the exact
    rational operation followed by [fl], rounding to the nearest binary64
    value, ties to even.  Where Python raises (division by zero, an [int]
    too large for a [float], an unbound local) the model returns the same
    exception; where a float operation would overflow to [inf] and Python
    would carry on, the model stops with [NonFinite]. *)

From Stdlib Require Import ZArith QArith Qround Qabs Qpower Qreduction.
From Stdlib Require Import List Bool String Lia Lra Lqa Permutation Sorted.
Import ListNotations.

Local Open Scope Z_scope.

(** ** Binary64 rounding *)

Module B64.

Local Open Scope Q_scope.

Definition prec : Z := 53.
Definition emin : Z := -1074.
Definition emax : Z := 1024.

(** Round to the nearest integer, ties to the even one: Python's
    [round(x)] on a float, and the rounding of a binary64 significand. *)
Definition rne (q : Q) : Z :=
  let f := Qfloor q in
  match Qcompare (q - inject_Z f) (1 # 2) with
  | Lt => f
  | Gt => (f + 1)%Z
  | Eq => if Z.even f then f else (f + 1)%Z
  end.

(** What [rne] computes: the nearest integer, the even one of two at the
    same distance. *)
Definition is_rne (q : Q) (z : Z) : Prop :=
  inject_Z z - q <= 1 # 2 /\ q - inject_Z z <= 1 # 2 /\
  ((inject_Z z - q == 1 # 2 \/ q - inject_Z z == 1 # 2) -> Z.even z = true).

(** [ilog2 x] is the binade of [x]: [2 ^ ilog2 x <= |x| < 2 ^ (ilog2 x + 1)]
    for [x] other than zero. *)
Definition ilog2 (x : Q) : Z :=
  let k := (Z.log2 (Z.abs (Qnum x)) - Z.log2 (Zpos (Qden x)))%Z in
  if Qle_bool (2 ^ k) (Qabs x) then k else (k - 1)%Z.

(** Exponent of the unit in the last place of the binade of [x]; the
    subnormal range shares [emin]. *)
Definition ulp_exp (x : Q) : Z := Z.max (ilog2 x - (prec - 1)) emin.

(** Round to nearest binary64, ties to even (no overflow check). *)
Definition fl (x : Q) : Q :=
  let t := ulp_exp x in
  Qred (inject_Z (rne (x / 2 ^ t)) * 2 ^ t).

(** A rounded result below [2 ^ 1024] in magnitude is a finite float. *)
Definition finiteb (v : Q) : bool := negb (Qle_bool (2 ^ emax) (Qabs v)).

(** Unit roundoff and the absolute error of the subnormal range. *)
Definition u : Q := 2 ^ (- prec).
Definition eta : Q := 2 ^ (emin - 1).

(** [x] is a whole multiple of [2 ^ t]. *)
Definition on_grid (t : Z) (x : Q) : Prop :=
  exists k : Z, x == inject_Z k * 2 ^ t.

End B64.

(** ** Python exceptions and the two monads

    [result] is a computation that returns or raises; [M] also threads the
    persisted record, which an exception leaves as it was when raised. *)

Inductive exn : Type :=
  | ValueError (msg : string)
  | RuntimeError (msg : string)
  | ZeroDivisionError
  | OverflowError
  | TypeError
  | UnboundLocalError
  | StatisticsError
  | NonFinite.

Inductive result (A : Type) : Type :=
  | Ok (a : A)
  | Raise (e : exn).
Arguments Ok {A} a.
Arguments Raise {A} e.

Definition bind {A B : Type} (r : result A) (k : A -> result B) : result B :=
  match r with
  | Ok a => k a
  | Raise e => Raise e
  end.

Declare Scope py_scope.
Delimit Scope py_scope with py.
Notation "x <- e ;; k" := (bind e (fun x => k))
  (at level 61, e at next level, right associativity) : py_scope.
Notation "' pat <- e ;; k" := (bind e (fun x => match x with pat => k end))
  (at level 61, pat pattern, e at next level, right associativity) : py_scope.
Local Open Scope py_scope.

Fixpoint mapM {A B : Type} (f : A -> result B) (l : list A) : result (list B) :=
  match l with
  | [] => Ok []
  | a :: l' => b <- f a ;; bs <- mapM f l' ;; Ok (b :: bs)
  end.

(** ** Python numbers *)

Definition float : Type := Q.

Module Py.

Definition check (e : exn) (v : Q) : result float :=
  if B64.finiteb v then Ok v else Raise e.

(** [float(n)], implicit when an [int] meets a [float]. *)
Definition float_of_int (n : Z) : result float :=
  check OverflowError (B64.fl (inject_Z n)).

(** [a / b] on two [int]s: the correctly rounded quotient. *)
Definition int_truediv (a b : Z) : result float :=
  if b =? 0 then Raise ZeroDivisionError
  else check OverflowError (B64.fl (inject_Z a / inject_Z b)).

Definition fadd (x y : float) : result float := check NonFinite (B64.fl (x + y)).
Definition fsub (x y : float) : result float := check NonFinite (B64.fl (x - y)).
Definition fmul (x y : float) : result float := check NonFinite (B64.fl (x * y)).
Definition fdiv (x y : float) : result float :=
  if Qeq_bool y 0 then Raise ZeroDivisionError
  else check NonFinite (B64.fl (x / y)).

Definition flt (x y : float) : bool := negb (Qle_bool y x).

(** [round(x)]: to the nearest [int], ties to even. *)
Definition round (x : float) : Z := B64.rne x.

(** [round(x, ndigits)]: the float nearest to [x] rounded to [ndigits]
    decimal places. *)
Definition round_nd (x : float) (ndigits : Z) : float :=
  B64.fl (inject_Z (B64.rne (x * 10 ^ ndigits)) / 10 ^ ndigits).

(** [sorted]: a stable sort by [<]. *)
Fixpoint insert (x : float) (l : list float) : list float :=
  match l with
  | [] => [x]
  | y :: l' => if Qle_bool x y then x :: l else y :: insert x l'
  end.

Definition sorted (l : list float) : list float := fold_right insert [] l.

(** [max] and [min] of a list: the first greatest, the first least. *)
Definition max (l : list float) : result float :=
  match l with
  | [] => Raise (ValueError "max() arg is an empty sequence")
  | x :: l' => Ok (fold_left (fun m y => if flt m y then y else m) l' x)
  end.

Definition min (l : list float) : result float :=
  match l with
  | [] => Raise (ValueError "min() arg is an empty sequence")
  | x :: l' => Ok (fold_left (fun m y => if flt y m then y else m) l' x)
  end.

End Py.

Module statistics.

(** [statistics.median]: the middle element of the sorted data, or the
    mean of the two middle ones. *)
Definition median (data : list float) : result float :=
  let data := Py.sorted data in
  let n := List.length data in
  if (n =? 0)%nat then Raise StatisticsError
  else if (n mod 2 =? 1)%nat then Ok (nth (n / 2) data 0%Q)
  else
    let i := (n / 2)%nat in
    s <- Py.fadd (nth (i - 1) data 0%Q) (nth i data 0%Q) ;;
    two <- Py.float_of_int 2 ;;
    Py.fdiv s two.

End statistics.

(** ** Data model *)

Record CalibrationPoint : Type := {
  physical_x : Z;
  physical_y : Z;
  logical_x : Z;
  logical_y : Z;
  label : option string
}.

(** An instant is a count of microseconds (the resolution of [datetime])
    since the epoch, in UTC; the ISO string that is persisted and parsed
    back denotes the same instant. *)
Definition datetime : Type := Z.

(** The calibration record, a Python [dict] with these keys.  [None] is
    JSON [null] for the scales and the time of calibration, and an absent
    key for the fields the empty default does not have. *)
Record State : Type := {
  calibrated : bool;
  scale_x : option float;
  scale_y : option float;
  offset_x : Z;
  offset_y : Z;
  points : list CalibrationPoint;
  calibrated_at : option datetime;
  verified : bool;
  consistent : option bool;
  spread_x : option float;
  spread_y : option float;
  verification_notes : option string;
  verified_at : option datetime
}.

(** The persisted record: [None] while [STATE_FILE] does not exist. *)
Definition store : Type := option State.

Definition M (A : Type) : Type := store -> result A * store.

Definition ret {A : Type} (a : A) : M A := fun st => (Ok a, st).
Definition raise {A : Type} (e : exn) : M A := fun st => (Raise e, st).
Definition lift {A : Type} (r : result A) : M A := fun st => (r, st).

Definition bindM {A B : Type} (m : M A) (k : A -> M B) : M B :=
  fun st =>
    match m st with
    | (Ok a, st') => k a st'
    | (Raise e, st') => (Raise e, st')
    end.

Declare Scope io_scope.
Delimit Scope io_scope with io.
Notation "x <- e ;; k" := (bindM e (fun x => k))
  (at level 61, e at next level, right associativity) : io_scope.
Notation "' pat <- e ;; k" := (bindM e (fun x => match x with pat => k end))
  (at level 61, pat pattern, e at next level, right associativity) : io_scope.

(** ** calibration.py *)

Definition empty_state : State := {|
  calibrated := false;
  scale_x := None;
  scale_y := None;
  offset_x := 0;
  offset_y := 0;
  points := [];
  calibrated_at := None;
  verified := false;
  consistent := None;
  spread_x := None;
  spread_y := None;
  verification_notes := None;
  verified_at := None
|}.

Definition load_state : M State :=
  fun st =>
    match st with
    | Some state => (Ok state, st)
    | None => (Ok empty_state, st)
    end.

Definition save_state (state : State) : M unit :=
  fun _ => (Ok tt, Some state).

Definition InsufficientSamples : exn :=
  ValueError "Need at least 2 calibration points".
Definition DegenerateInput : exn :=
  ValueError "Cannot compute scale — logical coordinates contain zeros".
Definition NotCalibrated : exn :=
  RuntimeError "Not calibrated — run the 'calibrate' tool first".

(** The loop [for p in points] that appends to [scales_x] and [scales_y]. *)
Fixpoint scales_loop (points : list CalibrationPoint)
    (scales_x scales_y : list float) : result (list float * list float) :=
  match points with
  | [] => Ok (scales_x, scales_y)
  | p :: rest =>
    scales_x <-
      (if logical_x p =? 0 then Ok scales_x
       else r <- Py.int_truediv (physical_x p) (logical_x p) ;;
            Ok (scales_x ++ [r])) ;;
    scales_y <-
      (if logical_y p =? 0 then Ok scales_y
       else r <- Py.int_truediv (physical_y p) (logical_y p) ;;
            Ok (scales_y ++ [r])) ;;
    scales_loop rest scales_x scales_y
  end.

(** [(max(scales) - min(scales)) / scale if scale else 0] *)
Definition spread (scales : list float) (scale : float) : result float :=
  if Qeq_bool scale 0 then Ok 0%Q
  else
    hi <- Py.max scales ;;
    lo <- Py.min scales ;;
    d <- Py.fsub hi lo ;;
    Py.fdiv d scale.

(** [p[physical] - p[logical] * scale] *)
Definition residual (physical logical : Z) (scale : float) : result float :=
  l <- Py.float_of_int logical ;;
  m <- Py.fmul l scale ;;
  p <- Py.float_of_int physical ;;
  Py.fsub p m.

(** [[p[physical] - p[logical] * scale for p in points if p[logical] != 0]] *)
Definition offsets (physical logical : CalibrationPoint -> Z)
    (points : list CalibrationPoint) (scale : float) : result (list float) :=
  mapM (fun p => residual (physical p) (logical p) scale)
       (filter (fun p => negb (logical p =? 0)) points).

(** [round(statistics.median(offsets)) if offsets else 0] *)
Definition offset_of (offsets : list float) : result Z :=
  match offsets with
  | [] => Ok 0
  | _ => m <- statistics.median offsets ;; Ok (Py.round m)
  end.

(** The literal [0.02]. *)
Definition tolerance : float := B64.fl (2 # 100).

Definition is_empty {A : Type} (l : list A) : bool :=
  match l with
  | [] => true
  | _ => false
  end.

Local Open Scope io_scope.

Definition compute_calibration (now : datetime)
    (points : list CalibrationPoint) : M State :=
  if (List.length points <? 2)%nat then raise InsufficientSamples
  else
    '(scales_x, scales_y) <- lift (scales_loop points [] []) ;;
    if is_empty scales_x || is_empty scales_y then raise DegenerateInput
    else
      scale_x <- lift (statistics.median scales_x) ;;
      scale_y <- lift (statistics.median scales_y) ;;
      spread_x <- lift (spread scales_x scale_x) ;;
      spread_y <- lift (spread scales_y scale_y) ;;
      let consistent := Py.flt spread_x tolerance && Py.flt spread_y tolerance in
      offsets_x <- lift (offsets physical_x logical_x points scale_x) ;;
      offsets_y <- lift (offsets physical_y logical_y points scale_y) ;;
      offset_x <- lift (offset_of offsets_x) ;;
      offset_y <- lift (offset_of offsets_y) ;;
      let state := {|
        calibrated := true;
        scale_x := Some (Py.round_nd scale_x 6);
        scale_y := Some (Py.round_nd scale_y 6);
        offset_x := offset_x;
        offset_y := offset_y;
        points := points;
        calibrated_at := Some now;
        verified := false;
        consistent := Some consistent;
        spread_x := Some (Py.round_nd spread_x 4);
        spread_y := Some (Py.round_nd spread_y 4);
        verification_notes := None;
        verified_at := None
      |} in
      _ <- save_state state ;;
      ret state.

Definition mark_verified (now : datetime) (success : bool) (notes : string)
    : M State :=
  state <- load_state ;;
  let state := {|
    calibrated := calibrated state;
    scale_x := scale_x state;
    scale_y := scale_y state;
    offset_x := offset_x state;
    offset_y := offset_y state;
    points := points state;
    calibrated_at := calibrated_at state;
    verified := success;
    consistent := consistent state;
    spread_x := spread_x state;
    spread_y := spread_y state;
    verification_notes := Some notes;
    verified_at := Some now
  |} in
  _ <- save_state state ;;
  ret state.

(** [state[scale]] used as a number: [None] is not one. *)
Definition number (scale : option float) : result float :=
  match scale with
  | Some s => Ok s
  | None => Raise TypeError
  end.

Local Open Scope py_scope.

(** [round((phys - offset) / scale)] *)
Definition to_logical (phys offset : Z) (scale : option float) : result Z :=
  s <- number scale ;;
  d <- Py.float_of_int (phys - offset) ;;
  q <- Py.fdiv d s ;;
  Ok (Py.round q).

(** [round(log * scale + offset)] *)
Definition to_physical (log offset : Z) (scale : option float) : result Z :=
  s <- number scale ;;
  l <- Py.float_of_int log ;;
  m <- Py.fmul l s ;;
  o <- Py.float_of_int offset ;;
  a <- Py.fadd m o ;;
  Ok (Py.round a).

Local Open Scope io_scope.

Definition physical_to_logical (phys_x phys_y : Z) : M (Z * Z) :=
  state <- load_state ;;
  if negb (calibrated state) then raise NotCalibrated
  else
    lx <- lift (to_logical phys_x (offset_x state) (scale_x state)) ;;
    ly <- lift (to_logical phys_y (offset_y state) (scale_y state)) ;;
    ret (lx, ly).

Definition logical_to_physical (log_x log_y : Z) : M (Z * Z) :=
  state <- load_state ;;
  if negb (calibrated state) then raise NotCalibrated
  else
    px <- lift (to_physical log_x (offset_x state) (scale_x state)) ;;
    py <- lift (to_physical log_y (offset_y state) (scale_y state)) ;;
    ret (px, py).

(** ** health_check.py *)

Inductive message : Type :=
  | NoCalibrationData
  | CalibrationIsDaysOld (days : Z)
  | ComputedButNotVerified
  | PointsDisagree (spread_x spread_y : option float)
  | CalibrationValid (scale_x scale_y : option float).

(** The dict [check_calibration] returns; [scales] is [None] where it has
    no [scale_x] and [scale_y] keys. *)
Record Health : Type := {
  status : string;
  msg : message;
  scales : option (option float * option float);
  action_needed : bool
}.

Definition microseconds_per_day : Z := 86400000000.

(** [timedelta(days=n)] and [age.days] *)
Definition timedelta_days (n : Z) : Z := n * microseconds_per_day.
Definition days (age : Z) : Z := age / microseconds_per_day.
Arguments timedelta_days : simpl never.
Arguments days : simpl never.

Definition check_calibration (now : datetime) : M Health :=
  state <- load_state ;;
  if negb (calibrated state) then
    ret {| status := "missing"; msg := NoCalibrationData;
           scales := None; action_needed := true |}
  else
    (* [age] is bound only where [calibrated_at] is there *)
    let '(age, stale) :=
      match calibrated_at state with
      | Some cal_dt =>
        let age := now - cal_dt in (Some age, timedelta_days 7 <? age)
      | None => (None, true)
      end in
    let verified := verified state in
    let consistent :=
      match consistent state with
      | Some c => c
      | None => true
      end in
    if stale then
      match age with
      | Some age =>
        ret {| status := "stale"; msg := CalibrationIsDaysOld (days age);
               scales := Some (scale_x state, scale_y state);
               action_needed := true |}
      | None => raise UnboundLocalError
      end
    else if negb verified then
      ret {| status := "unverified"; msg := ComputedButNotVerified;
             scales := Some (scale_x state, scale_y state);
             action_needed := true |}
    else if negb consistent then
      ret {| status := "inconsistent";
             msg := PointsDisagree (spread_x state) (spread_y state);
             scales := Some (scale_x state, scale_y state);
             action_needed := true |}
    else
      ret {| status := "ok";
             msg := CalibrationValid (scale_x state) (scale_y state);
             scales := Some (scale_x state, scale_y state);
             action_needed := false |}.

(** *** The checks of the environment

    [check_ui_automation] and [check_windows_mcp] look at the machine; what
    they find there is an argument of the model. *)

(** [sub in s] on two [str]. *)
Fixpoint contains (sub s : string) : bool :=
  String.prefix sub s ||
  match s with
  | EmptyString => false
  | String _ s' => contains sub s'
  end.

(** What [_run_ps] comes back with: the standard output, stripped, or the
    exception of [subprocess.run], by its text. *)
Inductive powershell : Type :=
  | Stdout (output : string)
  | TimeoutExpired
  | Exception (text : string).

Record UiAutomation : Type := {
  ui_status : string;
  ui_message : string
}.

Definition check_ui_automation (ps : powershell) : UiAutomation :=
  match ps with
  | Stdout output =>
    if contains "OK" output then
      {| ui_status := "ok";
         ui_message := "UI Automation assemblies available" |}
    else
      {| ui_status := "error";
         ui_message := "Unexpected output: " ++ output |}
  | TimeoutExpired =>
    {| ui_status := "error";
       ui_message := "PowerShell timed out loading UI Automation" |}
  | Exception text =>
    {| ui_status := "error"; ui_message := text |}
  end.

(** [manifest.json]: not there, there but raising when read or parsed, or
    parsed, with its "version" if it has one (by its text). *)
Inductive manifest_json : Type :=
  | NoManifest
  | Unreadable
  | Manifest (version : option string).

(** The install location [WINDOWS_MCP_PATH]: its text, whether it exists,
    the size of [main.py] if that exists, and the manifest. *)
Record Install : Type := {
  install_path : string;
  path_exists : bool;
  main_py : option N;
  manifest : manifest_json
}.

(** The dict of [check_windows_mcp]; "version" and "main_py_size" are
    keys of the "ok" dict only. *)
Record WindowsMcp : Type := {
  mcp_status : string;
  mcp_message : string;
  mcp_path : string;
  mcp_version : option string;
  main_py_size : option N
}.

Definition check_windows_mcp (i : Install) : WindowsMcp :=
  if negb (path_exists i) then
    {| mcp_status := "missing";
       mcp_message := "windows-mcp not found at expected path";
       mcp_path := install_path i;
       mcp_version := None; main_py_size := None |}
  else
    match main_py i with
    | None =>
      {| mcp_status := "error";
         mcp_message := "windows-mcp directory exists but main.py missing";
         mcp_path := install_path i;
         mcp_version := None; main_py_size := None |}
    | Some size =>
      let version :=
        match manifest i with
        | Manifest (Some v) => v
        | _ => "unknown"%string
        end in
      {| mcp_status := "ok";
         mcp_message := "windows-mcp v" ++ version ++ " found";
         mcp_path := install_path i;
         mcp_version := Some version; main_py_size := Some size |}
    end.

(** What [run_all_checks] reads in the dict of a check: [c.get("status")]
    and [c.get("action_needed")], [None] where the dict has no such key. *)
Class CheckResult (A : Type) : Type := {
  get_status : A -> string;
  get_action_needed : A -> option bool
}.

#[global] Instance CheckResult_Health : CheckResult Health := {|
  get_status := status;
  get_action_needed := fun h => Some (action_needed h)
|}.

#[global] Instance CheckResult_UiAutomation : CheckResult UiAutomation := {|
  get_status := ui_status;
  get_action_needed := fun _ => None
|}.

#[global] Instance CheckResult_WindowsMcp : CheckResult WindowsMcp := {|
  get_status := mcp_status;
  get_action_needed := fun _ => None
|}.

(** The truth value of [c.get("action_needed")]. *)
Definition truthy (v : option bool) : bool :=
  match v with
  | Some b => b
  | None => false
  end.

Record Overall : Type := {
  overall_status : string;
  overall_message : string
}.

Record Checks : Type := {
  calibration : Health;
  ui_automation : UiAutomation;
  windows_mcp : WindowsMcp;
  overall : Overall
}.

Definition run_all_checks (now : datetime) (ps : powershell) (i : Install)
    : M Checks :=
  calibration <- check_calibration now ;;
  let ui_automation := check_ui_automation ps in
  let windows_mcp := check_windows_mcp i in
  let any_action :=
    truthy (get_action_needed calibration)
    || truthy (get_action_needed ui_automation)
    || truthy (get_action_needed windows_mcp) in
  let any_error :=
    String.eqb (get_status calibration) "error"
    || String.eqb (get_status ui_automation) "error"
    || String.eqb (get_status windows_mcp) "error" in
  ret {| calibration := calibration;
         ui_automation := ui_automation;
         windows_mcp := windows_mcp;
         overall := {|
           overall_status :=
             if any_error then "error"
             else if any_action then "action_needed" else "ok";
           overall_message :=
             if negb any_error && negb any_action then "All checks passed"
             else "Some checks need attention"
         |} |}.

(** ** server.py: the tools on the calibration record

    [call_tool] on the five tools that work on the record, with the
    arguments their input schemas require.  A reply is the dict the handler
    serialises (its constant "next_step" and "note" texts left out), or the
    exception it turns into an error text. *)

Inductive request : Type :=
  | calibrate (points : list CalibrationPoint)
  | calibrate_verify (success : bool) (notes : option string)
  | get_calibration
  | convert_coordinates (x y : Z) (from_system to_system : string)
  | health_check.

Inductive reply : Type :=
  | Calibrated (scale_x scale_y : option float) (offset_x offset_y : Z)
      (consistent : option bool) (spread_x spread_y : option float)
      (points_used : nat)
  | Verification (status message : string) (scale_x scale_y : option float)
  | CalibrationState (state : State)
  | SameSystem (x y : Z)
  | PhysicalToLogical (physical_x physical_y logical_x logical_y : Z)
  | LogicalToPhysical (logical_x logical_y physical_x physical_y : Z)
  | HealthReport (checks : Checks)
  | Error (e : exn).

(** [try: ... except Exception as e: return Error] *)
Definition catching {A : Type} (m : M A) (k : A -> reply) : store -> reply * store :=
  fun st =>
    match m st with
    | (Ok a, st') => (k a, st')
    | (Raise e, st') => (Error e, st')
    end.

Definition call_tool (now : datetime) (ps : powershell) (i : Install)
    (r : request) : store -> reply * store :=
  match r with
  | calibrate points =>
    catching (compute_calibration now points)
      (fun state =>
         Calibrated (scale_x state) (scale_y state)
           (offset_x state) (offset_y state) (consistent state)
           (spread_x state) (spread_y state) (List.length points))
  | calibrate_verify success notes =>
    let notes :=
      match notes with
      | Some n => n
      | None => ""%string
      end in
    catching (mark_verified now success notes)
      (fun state =>
         let status := (if success then "verified" else "failed")%string in
         Verification status
           ("Calibration " ++ status ++ "."
            ++ (if String.eqb notes "" then "" else " Notes: " ++ notes))
           (scale_x state) (scale_y state))
  | get_calibration => catching load_state CalibrationState
  | convert_coordinates x y from_sys to_sys =>
    if String.eqb from_sys to_sys then fun st => (SameSystem x y, st)
    else if String.eqb from_sys "physical" && String.eqb to_sys "logical" then
      catching (physical_to_logical x y)
        (fun '(lx, ly) => PhysicalToLogical x y lx ly)
    else
      catching (logical_to_physical x y)
        (fun '(px, py) => LogicalToPhysical x y px py)
  | health_check => catching (run_all_checks now ps i) HealthReport
  end.


(** ** The engine as a whole, and the terms of its specification *)

(** Pixel coordinates as the Windows APIs report them: 32-bit. *)
Definition pixel (z : Z) : Prop := Z.abs z <= 2 ^ 31.

Definition pixel_point (p : CalibrationPoint) : Prop :=
  pixel (physical_x p) /\ pixel (physical_y p) /\
  pixel (logical_x p) /\ pixel (logical_y p).

(** The ratios [physical / logical] of one axis, over exactly the points
    whose logical coordinate on that axis is not zero. *)
Definition ratios (physical logical : CalibrationPoint -> Z)
    (points : list CalibrationPoint) : list float :=
  map (fun p => B64.fl (inject_Z (physical p) / inject_Z (logical p)))
      (filter (fun p => negb (logical p =? 0)) points).

(** [m] is the median of [data]: the middle element of its sorted
    arrangement, or the float mean of the two middle ones. *)
Definition is_median (data : list float) (m : float) : Prop :=
  exists s : list float,
    Permutation data s /\ StronglySorted Qle s /\
    let n := List.length s in
    if (n mod 2 =? 1)%nat then m = nth (n / 2) s 0%Q
    else (0 < n)%nat /\
         m = B64.fl (B64.fl (nth (n / 2 - 1) s 0%Q + nth (n / 2) s 0%Q) / 2).

(** Every field of the record is there. *)
Definition fully_populated (s : State) : Prop :=
  calibrated s = true /\ scale_x s <> None /\ scale_y s <> None /\
  calibrated_at s <> None /\ consistent s <> None /\
  spread_x s <> None /\ spread_y s <> None.

(** The records the engine itself can leave behind, from no record at all. *)
Inductive reachable : store -> Prop :=
  | reach_init : reachable None
  | reach_compute now points st r st' :
      reachable st -> compute_calibration now points st = (r, st') ->
      reachable st'
  | reach_verify now success notes st r st' :
      reachable st -> mark_verified now success notes st = (r, st') ->
      reachable st'
  | reach_to_logical x y st r st' :
      reachable st -> physical_to_logical x y st = (r, st') -> reachable st'
  | reach_to_physical x y st r st' :
      reachable st -> logical_to_physical x y st = (r, st') -> reachable st'
  | reach_check now st r st' :
      reachable st -> check_calibration now st = (r, st') -> reachable st'.

(** The record behind a store, as [load_state] gives it. *)
Definition loaded (st : store) : State :=
  match st with
  | Some state => state
  | None => empty_state
  end.

(** [calibrated == true] comes with a time of calibration. *)
Definition timestamped (s : State) : Prop :=
  calibrated s = true -> calibrated_at s <> None.

(** Logical to physical and back lands within one unit on each axis. *)
Definition round_trip_within_1 (st : store) (lx ly : Z) : Prop :=
  exists px py lx' ly' st1 st2,
    logical_to_physical lx ly st = (Ok (px, py), st1) /\
    physical_to_logical px py st1 = (Ok (lx', ly'), st2) /\
    Z.abs (lx' - lx) <= 1 /\ Z.abs (ly' - ly) <= 1.

(** Physical and logical coordinate on the same side of the origin, the
    logical one at most a million times the physical one. *)
Definition same_side (physical logical : Z) : Prop :=
  0 < physical * logical /\ Z.abs logical <= 1000000 * Z.abs physical.

Definition aligned (p : CalibrationPoint) : Prop :=
  same_side (physical_x p) (logical_x p) /\
  same_side (physical_y p) (logical_y p).

(** A scale as a successful estimation on pixel coordinates stores it,
    zero apart: between [2 ^ -20] and [2 ^ 31] in magnitude. *)
Definition scale_in_range (s : float) : Prop :=
  (2 ^ (-20) <= Qabs s /\ Qabs s <= 2 ^ 31)%Q.

(** The residuals [physical - logical * scale] of one axis, over the
    points whose logical coordinate on that axis is not zero. *)
Definition residuals (physical logical : CalibrationPoint -> Z)
    (points : list CalibrationPoint) (scale : float) : list float :=
  map (fun p => B64.fl (inject_Z (physical p)
                        - B64.fl (inject_Z (logical p) * scale)))
      (filter (fun p => negb (logical p =? 0)) points).

(** A landmark on the lines [physical = q * logical] through the origin. *)
Definition collinear (qx qy : Q) (p : CalibrationPoint) : Prop :=
  (inject_Z (physical_x p) == qx * inject_Z (logical_x p) /\
   inject_Z (physical_y p) == qy * inject_Z (logical_y p))%Q.

(** A reduced fraction. *)
Definition canon (q : Q) : Prop := Qred q = q.

(** [r] is within 2.01 % of [m]. *)
Definition close_to (m r : float) : Prop :=
  (Qabs (r - m) <= (201 # 10000) * m)%Q.

(** Two of the ratios are at least 1.99 % of [m] apart. *)
Definition apart (m : float) (rs : list float) : Prop :=
  exists r1 r2 : float,
    In r1 rs /\ In r2 rs /\ ((199 # 10000) * m <= r1 - r2)%Q.

(** The landmark with its axes exchanged. *)
Definition transpose (p : CalibrationPoint) : CalibrationPoint := {|
  physical_x := physical_y p;
  physical_y := physical_x p;
  logical_x := logical_y p;
  logical_y := logical_x p;
  label := label p
|}.

(** A conversion keeps the order of two points on each axis, and returns
    on both. *)
Definition keeps_order (f : Z -> Z -> M (Z * Z)) (st : store)
    (x y x' y' : Z) : Prop :=
  exists a b a' b' : Z,
    f x y st = (Ok (a, b), st) /\ f x' y' st = (Ok (a', b'), st) /\
    a <= a' /\ b <= b'.

Definition default_true (b : option bool) : bool :=
  match b with
  | Some c => c
  | None => true
  end.

(** The status by priority, for a record calibrated at [t]. *)
Definition status_of (now : datetime) (s : State) (t : datetime) : string :=
  if negb (calibrated s) then "missing"
  else if timedelta_days 7 <? now - t then "stale"
  else if negb (verified s) then "unverified"
  else if negb (default_true (consistent s)) then "inconsistent"
  else "ok".

(** Arithmetic raises its own exceptions, never [RuntimeError]. *)
Definition arithmetic (e : exn) : Prop :=
  e = TypeError \/ e = ZeroDivisionError \/ e = OverflowError \/ e = NonFinite.

(** ** Records and point sets of the examples *)

Definition pt (px py lx ly : Z) : CalibrationPoint :=
  {| physical_x := px; physical_y := py;
     logical_x := lx; logical_y := ly; label := None |}.

Definition spec_points : list CalibrationPoint :=
  [pt 100 100 100 100; pt 200 200 100 100].

(** The claim about [spec_points] as the specification words it. *)
Definition unit_scale_claim (now : datetime) (st : store) : Prop :=
  exists s st' qx qy,
    compute_calibration now spec_points st = (Ok s, st') /\
    scale_x s = Some qx /\ (qx == 1)%Q /\
    scale_y s = Some qy /\ (qy == 1)%Q /\
    consistent s = Some true.

Definition spec_points_model (now : datetime) : State := {|
  calibrated := true;
  scale_x := Some (3 # 2)%Q;
  scale_y := Some (3 # 2)%Q;
  offset_x := 0;
  offset_y := 0;
  points := spec_points;
  calibrated_at := Some now;
  verified := false;
  consistent := Some false;
  spread_x := Some (B64.fl (6667 # 10000));
  spread_y := Some (B64.fl (6667 # 10000));
  verification_notes := None;
  verified_at := None
|}.

Definition thirds : list CalibrationPoint := [pt 1 1 3 3; pt 1 1 3 3].

Definition third : float := B64.fl (1 # 3).

Definition thirds_model : State := {|
  calibrated := true;
  scale_x := Some (B64.fl (333333 # 1000000));
  scale_y := Some (B64.fl (333333 # 1000000));
  offset_x := 0;
  offset_y := 0;
  points := thirds;
  calibrated_at := Some 0;
  verified := false;
  consistent := Some true;
  spread_x := Some 0%Q;
  spread_y := Some 0%Q;
  verification_notes := None;
  verified_at := None
|}.

Definition beyond_float : list CalibrationPoint :=
  [pt (10 ^ 400) 1 1 1; pt 1 1 1 1].

Definition at_origin : list CalibrationPoint :=
  [pt 0 0 100 100; pt 0 0 100 100].

Definition origin_store : store := snd (compute_calibration 0 at_origin None).

Definition eighths : list CalibrationPoint := [pt 1 1 8 8; pt 1 1 8 8].

Definition eighths_store : store := snd (compute_calibration 0 eighths None).

(** A 125 % display, calibrated once from three landmarks. *)
Definition landmarks : list CalibrationPoint :=
  [pt 10 1070 8 856; pt 1910 1070 1528 856; pt 1800 10 1440 8].

Definition calibrated_once : store :=
  snd (compute_calibration 1700000000000000 landmarks None).

(** The same record an hour later, after a successful verification. *)
Definition verified_once : store :=
  snd (mark_verified 1700003600000000 true "cursor on the minimize button"
         calibrated_once).

(** The landmarks in another order. *)
Definition landmarks_swapped : list CalibrationPoint :=
  [pt 1910 1070 1528 856; pt 10 1070 8 856; pt 1800 10 1440 8].

(** Two landmarks of a mirrored display, their ratios -1 and -100. *)
Definition mirrored : list CalibrationPoint :=
  [pt (-10) (-10) 10 10; pt (-1000) (-1000) 10 10].

Definition mirrored_store : store := snd (compute_calibration 0 mirrored None).

(** The same x coordinates on other rows of a display that scales the
    rows by 1.5. *)
Definition other_rows : list CalibrationPoint :=
  [pt 10 300 8 200; pt 1910 300 1528 200; pt 1800 45 1440 30].

Definition other_rows_store : store :=
  snd (compute_calibration 1700000000000000 other_rows None).

(** A machine without windows-mcp. *)
Definition absent_install : Install := {|
  install_path := "C:\Claude Extensions\ant.dir.cursortouch.windows-mcp";
  path_exists := false;
  main_py := None;
  manifest := NoManifest
|}.

(** The report on that machine, two hours after the calibration. *)
Definition sample_report : Checks := {|
  calibration := {|
    status := "ok";
    msg := CalibrationValid (Some (5 # 4)%Q) (Some (5 # 4)%Q);
    scales := Some (Some (5 # 4)%Q, Some (5 # 4)%Q);
    action_needed := false
  |};
  ui_automation := {|
    ui_status := "ok";
    ui_message := "UI Automation assemblies available"
  |};
  windows_mcp := {|
    mcp_status := "missing";
    mcp_message := "windows-mcp not found at expected path";
    mcp_path := install_path absent_install;
    mcp_version := None;
    main_py_size := None
  |};
  overall := {|
    overall_status := "ok";
    overall_message := "All checks passed"
  |}
|}.

(** A record as a hand-edited or older state file can hold it: calibrated,
    verified, consistent, and no time of calibration. *)
Definition untimed_state : State := {|
  calibrated := true;
  scale_x := Some (5 # 4)%Q;
  scale_y := Some (5 # 4)%Q;
  offset_x := 0;
  offset_y := 0;
  points := [];
  calibrated_at := None;
  verified := true;
  consistent := Some true;
  spread_x := Some 0%Q;
  spread_y := Some 0%Q;
  verification_notes := None;
  verified_at := None
|}.

(** * Properties *)

(** ** Rounding to the nearest integer *)

Module RneFacts.
Import B64.
Local Open Scope Q_scope.

Lemma inject_Z_succ (z : Z) : inject_Z (z + 1) == inject_Z z + 1.
Proof. rewrite inject_Z_plus. reflexivity. Qed.

Lemma rne_is_rne (q : Q) : is_rne q (rne q).
Proof.
  unfold is_rne, rne.
  pose proof (Qfloor_le q) as Hlo.
  pose proof (Qlt_floor q) as Hhi.
  rewrite inject_Z_succ in Hhi.
  destruct (Qcompare_spec (q - inject_Z (Qfloor q)) (1 # 2)) as [He | Hl | Hg].
  - destruct (Z.even (Qfloor q)) eqn:Hev.
    + split; [lra | split; [lra |]]. intros _. exact Hev.
    + rewrite inject_Z_succ. split; [lra | split; [lra |]].
      intros _. rewrite Z.even_add, Hev. reflexivity.
  - split; [lra | split; [lra |]]. intros [H | H]; lra.
  - rewrite inject_Z_succ. split; [lra | split; [lra |]]. intros [H | H]; lra.
Qed.

Lemma inject_Z_le_iff (a b : Z) : inject_Z a <= inject_Z b <-> (a <= b)%Z.
Proof. rewrite Zle_Qle. reflexivity. Qed.

Lemma inject_Z_lt_iff (a b : Z) : inject_Z a < inject_Z b <-> (a < b)%Z.
Proof. rewrite Zlt_Qlt. reflexivity. Qed.

Lemma is_rne_unique (q : Q) (a b : Z) : is_rne q a -> is_rne q b -> a = b.
Proof.
  intros (Ha1 & Ha2 & Ha3) (Hb1 & Hb2 & Hb3).
  assert (Hab : inject_Z a - inject_Z b <= 1) by lra.
  assert (Hba : inject_Z b - inject_Z a <= 1) by lra.
  assert (Hab' : (a - b <= 1)%Z).
  { apply inject_Z_le_iff. unfold Z.sub. rewrite inject_Z_plus, inject_Z_opp.
    change (inject_Z 1) with 1. lra. }
  assert (Hba' : (b - a <= 1)%Z).
  { apply inject_Z_le_iff. unfold Z.sub. rewrite inject_Z_plus, inject_Z_opp.
    change (inject_Z 1) with 1. lra. }
  destruct (Z.eq_dec a b) as [-> | Hne]; [reflexivity | exfalso].
  assert (Hcase : (a = b + 1 \/ b = a + 1)%Z) by lia.
  destruct Hcase as [-> | ->].
  - rewrite inject_Z_succ in *.
    assert (Z.even (b + 1) = true) by (apply Ha3; left; lra).
    assert (Z.even b = true) by (apply Hb3; right; lra).
    rewrite Z.even_add in *. destruct (Z.even b); discriminate.
  - rewrite inject_Z_succ in *.
    assert (Z.even (a + 1) = true) by (apply Hb3; left; lra).
    assert (Z.even a = true) by (apply Ha3; right; lra).
    rewrite Z.even_add in *. destruct (Z.even a); discriminate.
Qed.

Lemma rne_bounds (q : Q) :
  inject_Z (rne q) - q <= 1 # 2 /\ q - inject_Z (rne q) <= 1 # 2.
Proof. destruct (rne_is_rne q) as (H1 & H2 & _). split; assumption. Qed.

Lemma rne_Qeq (q r : Q) : q == r -> rne q = rne r.
Proof.
  intros E. apply (is_rne_unique r); [| apply rne_is_rne].
  destruct (rne_is_rne q) as (H1 & H2 & H3).
  unfold is_rne. split; [lra | split; [lra |]].
  intros [H | H]; apply H3; [left | right]; lra.
Qed.

Lemma rne_Z (z : Z) : rne (inject_Z z) = z.
Proof.
  apply (is_rne_unique (inject_Z z)); [apply rne_is_rne |].
  unfold is_rne. split; [lra | split; [lra |]]. intros [H | H]; lra.
Qed.

Lemma rne_opp (q : Q) : rne (- q) = (- rne q)%Z.
Proof.
  apply (is_rne_unique (- q)); [apply rne_is_rne |].
  destruct (rne_is_rne q) as (H1 & H2 & H3).
  unfold is_rne. rewrite inject_Z_opp. split; [lra | split; [lra |]].
  intros [H | H]; rewrite Z.even_opp; apply H3; [right | left]; lra.
Qed.

Lemma rne_mono (q r : Q) : q <= r -> (rne q <= rne r)%Z.
Proof.
  intros Hqr.
  destruct (rne_is_rne q) as (Hq1 & Hq2 & Hq3).
  destruct (rne_is_rne r) as (Hr1 & Hr2 & Hr3).
  destruct (Z_le_gt_dec (rne q) (rne r)) as [Hle | Hgt]; [exact Hle | exfalso].
  assert (Hd : (rne r + 1 <= rne q)%Z) by lia.
  apply inject_Z_le_iff in Hd. rewrite inject_Z_succ in Hd.
  assert (E1 : inject_Z (rne q) - q == 1 # 2) by lra.
  assert (E2 : r - inject_Z (rne r) == 1 # 2) by lra.
  assert (E3 : inject_Z (rne q) == inject_Z (rne r) + 1) by lra.
  assert (Hq : Z.even (rne q) = true) by (apply Hq3; left; exact E1).
  assert (Hr : Z.even (rne r) = true) by (apply Hr3; right; exact E2).
  rewrite <- inject_Z_succ in E3. apply (proj1 (inject_Z_injective _ _)) in E3.
  rewrite E3, Z.even_add, Hr in Hq. discriminate.
Qed.

End RneFacts.

(** ** Powers of two and binades *)

Module Pow2.
Local Open Scope Q_scope.

Lemma pow2_pos (e : Z) : 0 < 2 ^ e.
Proof. apply Qpower_0_lt. reflexivity. Qed.

Lemma pow2_add (a b : Z) : 2 ^ (a + b) == 2 ^ a * 2 ^ b.
Proof. apply Qpower_plus. discriminate. Qed.

Lemma pow2_succ (a : Z) : 2 ^ (a + 1) == 2 * 2 ^ a.
Proof. rewrite pow2_add. change (2 ^ 1) with 2. ring. Qed.

Lemma pow2_pred (a : Z) : 2 * 2 ^ (a - 1) == 2 ^ a.
Proof. rewrite <- pow2_succ. replace (a - 1 + 1)%Z with a by ring. reflexivity. Qed.

Lemma pow2_le (a b : Z) : (a <= b)%Z -> 2 ^ a <= 2 ^ b.
Proof. intros H. apply Qpower_le_compat_l; [exact H | discriminate]. Qed.

Lemma pow2_lt (a b : Z) : (a < b)%Z -> 2 ^ a < 2 ^ b.
Proof. intros H. apply Qpower_lt_compat_l; [exact H | reflexivity]. Qed.

Lemma pow2_lt_inv (a b : Z) : 2 ^ a < 2 ^ b -> (a < b)%Z.
Proof. intros H. apply (Qpower_lt_compat_l_inv 2); [exact H | reflexivity]. Qed.

Lemma pow2_Z (e : Z) : (0 <= e)%Z -> 2 ^ e == inject_Z (2 ^ e).
Proof. intros H. rewrite Zpower_Qpower by exact H. reflexivity. Qed.

Lemma pow2_sub (a b : Z) : 2 ^ (a - b) * 2 ^ b == 2 ^ a.
Proof. rewrite <- pow2_add. replace (a - b + b)%Z with a by ring. reflexivity. Qed.

Lemma div_pow2 (x : Q) (t : Z) : x / 2 ^ t * 2 ^ t == x.
Proof. field. pose proof (pow2_pos t). lra. Qed.

End Pow2.

(** ** Rounding to binary64 *)

Module FlFacts.
Import B64 RneFacts Pow2.
Local Open Scope Q_scope.

Lemma Qabs_frac (x : Q) :
  Qabs x == inject_Z (Z.abs (Qnum x)) / inject_Z (Zpos (Qden x)).
Proof. destruct x as [n d]. simpl. apply Qmake_Qdiv. Qed.

Lemma Qabs_zero_iff (x : Q) : Qabs x == 0 <-> x == 0.
Proof.
  split; intros H.
  - revert H. apply Qabs_case; intros; lra.
  - rewrite H. reflexivity.
Qed.

Lemma Qabs_pos_iff (x : Q) : ~ x == 0 -> 0 < Qabs x.
Proof.
  intros H. pose proof (Qabs_nonneg x) as H0.
  destruct (Qlt_le_dec 0 (Qabs x)) as [Hl | Hl]; [exact Hl | exfalso].
  apply H, Qabs_zero_iff. lra.
Qed.

Lemma ilog2_spec (x : Q) :
  ~ x == 0 -> 2 ^ ilog2 x <= Qabs x /\ Qabs x < 2 ^ (ilog2 x + 1).
Proof.
  intros Hx.
  assert (HN : (0 < Z.abs (Qnum x))%Z).
  { destruct x as [n d]. unfold Qeq in Hx. simpl in *. lia. }
  pose proof (Z.log2_spec _ HN) as [Ha1 Ha2].
  pose proof (Z.log2_spec (Zpos (Qden x)) (Pos2Z.is_pos _)) as [Hb1 Hb2].
  pose proof (Z.log2_nonneg (Z.abs (Qnum x))) as Ha0.
  pose proof (Z.log2_nonneg (Zpos (Qden x))) as Hb0.
  set (a := Z.log2 (Z.abs (Qnum x))) in *.
  set (b := Z.log2 (Zpos (Qden x))) in *.
  rewrite Zle_Qle, <- pow2_Z in Ha1, Hb1 by assumption.
  rewrite Zlt_Qlt in Ha2. rewrite Zlt_Qlt in Hb2.
  unfold Z.succ in Ha2, Hb2.
  rewrite <- pow2_Z, pow2_succ in Ha2 by lia.
  rewrite <- pow2_Z, pow2_succ in Hb2 by lia.
  pose proof (Qabs_frac x) as HX.
  set (N := inject_Z (Z.abs (Qnum x))) in *.
  set (D := inject_Z (Zpos (Qden x))) in *.
  pose proof (pow2_pos b) as HR. pose proof (pow2_pos (a - b)) as HK.
  pose proof (pow2_sub a b) as HKR.
  assert (HD : 0 < D) by lra.
  assert (HXD : Qabs x * D == N) by (rewrite HX; field; lra).
  assert (Hup : Qabs x < 2 * 2 ^ (a - b)).
  { apply (Qmult_lt_l _ _ D HD). nra. }
  assert (Hlo : 2 ^ (a - b) < 2 * Qabs x).
  { apply (Qmult_lt_l _ _ D HD). nra. }
  unfold ilog2. fold a b.
  destruct (Qle_bool (2 ^ (a - b)) (Qabs x)) eqn:Ht.
  - apply Qle_bool_iff in Ht. rewrite pow2_succ. split; lra.
  - assert (Hlt : Qabs x < 2 ^ (a - b)).
    { apply Qnot_le_lt. intros H. apply Qle_bool_iff in H. congruence. }
    replace (a - b - 1 + 1)%Z with (a - b)%Z by ring.
    pose proof (pow2_pred (a - b)). split; lra.
Qed.

(** The binade is determined by the value. *)
Lemma ilog2_unique (x : Q) (e : Z) :
  2 ^ e <= Qabs x -> Qabs x < 2 ^ (e + 1) -> ilog2 x = e.
Proof.
  intros H1 H2.
  assert (Hx : ~ x == 0).
  { intros E. rewrite E in H1. pose proof (pow2_pos e). simpl in H1. lra. }
  destruct (ilog2_spec x Hx) as [H3 H4].
  assert (ilog2 x < e + 1)%Z by (apply pow2_lt_inv; lra).
  assert (e < ilog2 x + 1)%Z by (apply pow2_lt_inv; lra).
  lia.
Qed.

Lemma ilog2_Qeq (x y : Q) : ~ x == 0 -> x == y -> ilog2 x = ilog2 y.
Proof.
  intros Hx E. symmetry.
  destruct (ilog2_spec x Hx) as [H1 H2].
  apply ilog2_unique; rewrite <- E; assumption.
Qed.

Lemma ilog2_opp (x : Q) : ilog2 (- x) = ilog2 x.
Proof. destruct x as [n d]. unfold ilog2. simpl. rewrite Z.abs_opp. reflexivity. Qed.

Lemma ilog2_mono (x y : Q) : 0 < x -> x <= y -> (ilog2 x <= ilog2 y)%Z.
Proof.
  intros Hx Hxy.
  destruct (ilog2_spec x) as [H1 H2]; [lra |].
  destruct (ilog2_spec y) as [H3 H4]; [lra |].
  rewrite Qabs_pos in H1, H2, H3, H4 by lra.
  assert (ilog2 x < ilog2 y + 1)%Z by (apply pow2_lt_inv; lra).
  lia.
Qed.

Lemma ulp_exp_opp (x : Q) : ulp_exp (- x) = ulp_exp x.
Proof. unfold ulp_exp. rewrite ilog2_opp. reflexivity. Qed.

Lemma ulp_exp_ge_emin (x : Q) : (emin <= ulp_exp x)%Z.
Proof. unfold ulp_exp. lia. Qed.

(** [fl] is the significand rounded on the grid of its binade. *)
Lemma fl_eq (x : Q) :
  fl x == inject_Z (rne (x / 2 ^ ulp_exp x)) * 2 ^ ulp_exp x.
Proof. unfold fl. apply Qred_correct. Qed.

Lemma Qdiv_zero (x p : Q) : x == 0 -> x / p == inject_Z 0.
Proof.
  intros E. unfold Qdiv. transitivity (0 * / p); [| ring].
  apply Qmult_comp; [exact E | reflexivity].
Qed.

Lemma Qdiv_Qeq (x y p : Q) : x == y -> x / p == y / p.
Proof. intros E. unfold Qdiv. apply Qmult_comp; [exact E | reflexivity]. Qed.

Lemma fl_zero (x : Q) : x == 0 -> fl x == 0.
Proof.
  intros E. rewrite fl_eq.
  rewrite (rne_Qeq _ (inject_Z 0)), rne_Z; [ring |].
  apply Qdiv_zero, E.
Qed.

Lemma fl_Qeq (x y : Q) : x == y -> fl x = fl y.
Proof.
  intros E. unfold fl. apply Qred_complete.
  destruct (Qeq_dec x 0) as [Hz | Hnz].
  - assert (Hy : y == 0) by (rewrite <- E; exact Hz).
    rewrite (rne_Qeq (x / _) (inject_Z 0)) by (apply Qdiv_zero, Hz).
    rewrite (rne_Qeq (y / _) (inject_Z 0)) by (apply Qdiv_zero, Hy).
    rewrite rne_Z. ring.
  - unfold ulp_exp. rewrite (ilog2_Qeq x y Hnz E).
    rewrite (rne_Qeq (x / _) (y / 2 ^ Z.max (ilog2 y - (prec - 1)) emin))
      by (apply Qdiv_Qeq, E).
    reflexivity.
Qed.

Lemma fl_opp (x : Q) : fl (- x) == - fl x.
Proof.
  rewrite !fl_eq, ulp_exp_opp.
  rewrite (rne_Qeq (- x / 2 ^ ulp_exp x) (- (x / 2 ^ ulp_exp x))).
  - rewrite rne_opp, inject_Z_opp. ring.
  - unfold Qdiv. ring.
Qed.

(** The error of one rounding is at most half a unit in the last place. *)
Lemma fl_error (x : Q) :
  fl x - x <= 2 ^ (ulp_exp x - 1) /\ x - fl x <= 2 ^ (ulp_exp x - 1).
Proof.
  pose proof (fl_eq x) as E.
  pose proof (div_pow2 x (ulp_exp x)) as Hd.
  pose proof (pow2_pos (ulp_exp x)) as Hp.
  pose proof (pow2_pred (ulp_exp x)) as Hh.
  destruct (rne_bounds (x / 2 ^ ulp_exp x)) as [H1 H2].
  set (y := x / 2 ^ ulp_exp x) in *.
  set (z := inject_Z (rne y)) in *.
  split; nra.
Qed.

(** The standard model: a relative error of [u], or [eta] in the
    subnormal range. *)
Lemma fl_rel (x : Q) :
  fl x - x <= u * Qabs x + eta /\ x - fl x <= u * Qabs x + eta.
Proof.
  pose proof (Qabs_nonneg x) as Ha.
  assert (Hu : 0 < u) by apply pow2_pos.
  assert (He : 0 < eta) by apply pow2_pos.
  destruct (Qeq_dec x 0) as [Hz | Hnz].
  - pose proof (fl_zero x Hz). split; nra.
  - destruct (fl_error x) as [H1 H2].
    destruct (ilog2_spec x Hnz) as [H3 _].
    assert (Hb : 2 ^ (ulp_exp x - 1) <= u * Qabs x + eta).
    { unfold ulp_exp. destruct (Z.max_spec (ilog2 x - (prec - 1)) emin) as [[_ ->] | [_ ->]].
      - fold eta. nra.
      - replace (ilog2 x - (prec - 1) - 1)%Z with (ilog2 x + - prec)%Z
          by (unfold prec; ring).
        rewrite pow2_add. fold u. pose proof (pow2_pos (ilog2 x)). nra. }
    split; lra.
Qed.

Lemma fl_nonneg (x : Q) : 0 <= x -> 0 <= fl x.
Proof.
  intros H. rewrite fl_eq. pose proof (pow2_pos (ulp_exp x)) as Hp.
  assert (Hr : (0 <= rne (x / 2 ^ ulp_exp x))%Z).
  { rewrite <- (rne_Z 0). apply rne_mono.
    apply Qle_shift_div_l; [exact Hp |]. change (inject_Z 0) with 0. lra. }
  rewrite Zle_Qle in Hr. change (inject_Z 0) with 0 in Hr. nra.
Qed.

Lemma fl_nonpos (x : Q) : x <= 0 -> fl x <= 0.
Proof.
  intros H. pose proof (fl_nonneg (- x)) as Hn. rewrite fl_opp in Hn. lra.
Qed.

(** Rounding [x] cannot cross a point of the grid of its own binade. *)
Lemma fl_grid_le (x c : Q) (k : Z) :
  x <= c -> c == inject_Z k * 2 ^ ulp_exp x -> fl x <= c.
Proof.
  intros Hxc Hc. rewrite fl_eq. pose proof (pow2_pos (ulp_exp x)) as Hp.
  assert (Hr : (rne (x / 2 ^ ulp_exp x) <= k)%Z).
  { rewrite <- (rne_Z k). apply rne_mono.
    apply Qle_shift_div_r; [exact Hp | lra]. }
  rewrite Zle_Qle in Hr. nra.
Qed.

Lemma fl_grid_ge (x c : Q) (k : Z) :
  c <= x -> c == inject_Z k * 2 ^ ulp_exp x -> c <= fl x.
Proof.
  intros Hxc Hc. rewrite fl_eq. pose proof (pow2_pos (ulp_exp x)) as Hp.
  assert (Hr : (k <= rne (x / 2 ^ ulp_exp x))%Z).
  { rewrite <- (rne_Z k) at 1. apply rne_mono.
    apply Qle_shift_div_l; [exact Hp | lra]. }
  rewrite Zle_Qle in Hr. nra.
Qed.

(** A power of two sits on every finer grid. *)
Lemma pow2_on_grid (a t : Z) :
  (t <= a)%Z -> 2 ^ a == inject_Z (2 ^ (a - t)) * 2 ^ t.
Proof.
  intros H. rewrite <- pow2_Z by lia. rewrite pow2_sub. reflexivity.
Qed.

(** A value with a significand below [2 ^ 53] and an exponent from [emin]
    on is a binary64 value: rounding leaves it as it is. *)
Lemma fl_repr (x : Q) (m j : Z) :
  x == inject_Z m * 2 ^ j -> (Z.abs m < 2 ^ prec)%Z -> (emin <= j)%Z ->
  fl x == x.
Proof.
  intros Hx Hm Hj.
  destruct (Qeq_dec x 0) as [Hz | Hnz].
  { rewrite (fl_zero x Hz), Hz. reflexivity. }
  destruct (ilog2_spec x Hnz) as [H1 _].
  pose proof (pow2_pos j) as Hpj.
  assert (Habs : Qabs x == inject_Z (Z.abs m) * 2 ^ j).
  { rewrite Hx, Qabs_Qmult. rewrite (Qabs_pos (2 ^ j)) by lra. reflexivity. }
  assert (Hlt : 2 ^ ilog2 x < 2 ^ (prec + j)).
  { rewrite pow2_add. rewrite Zlt_Qlt in Hm.
    rewrite <- pow2_Z in Hm by (unfold prec; lia). nra. }
  apply pow2_lt_inv in Hlt.
  assert (Ht : (ulp_exp x <= j)%Z) by (unfold ulp_exp; lia).
  assert (Hg : x == inject_Z (m * 2 ^ (j - ulp_exp x)) * 2 ^ ulp_exp x).
  { rewrite inject_Z_mult. etransitivity; [exact Hx |].
    rewrite (pow2_on_grid j (ulp_exp x) Ht). ring. }
  apply Qle_antisym.
  - apply (fl_grid_le x x _ (Qle_refl x) Hg).
  - apply (fl_grid_ge x x _ (Qle_refl x) Hg).
Qed.

Lemma fl_Z (n : Z) : (Z.abs n < 2 ^ prec)%Z -> fl (inject_Z n) == inject_Z n.
Proof.
  intros H. apply (fl_repr _ n 0); [| exact H | unfold emin; lia].
  change (2 ^ 0) with 1. ring.
Qed.

Lemma fl_pow2 (a : Z) : (emin <= a)%Z -> fl (2 ^ a) == 2 ^ a.
Proof.
  intros H. apply (fl_repr _ 1 a); [| unfold prec; simpl; lia | exact H].
  simpl (inject_Z 1). ring.
Qed.

Lemma fl_mono_pos (x y : Q) : 0 < x -> x <= y -> fl x <= fl y.
Proof.
  intros Hx Hxy.
  pose proof (ilog2_mono x y Hx Hxy) as He.
  destruct (ilog2_spec x) as [_ Hx2]; [lra |].
  destruct (ilog2_spec y) as [Hy1 _]; [lra |].
  rewrite Qabs_pos in Hx2, Hy1 by lra.
  destruct (Z.eq_dec (ulp_exp x) (ulp_exp y)) as [Et | Nt].
  - rewrite !fl_eq, Et. pose proof (pow2_pos (ulp_exp y)) as Hp.
    assert (Hr : (rne (x / 2 ^ ulp_exp y) <= rne (y / 2 ^ ulp_exp y))%Z).
    { apply rne_mono. apply Qle_shift_div_l; [exact Hp |].
      rewrite div_pow2. exact Hxy. }
    rewrite Zle_Qle in Hr. nra.
  - assert (Hlt : (ulp_exp x < ulp_exp y)%Z) by (unfold ulp_exp in *; lia).
    assert (Hty : ulp_exp y = (ilog2 y - (prec - 1))%Z)
      by (unfold ulp_exp in *; lia).
    assert (Hex : (ilog2 x + 1 <= ilog2 y)%Z) by (unfold ulp_exp in *; lia).
    pose proof (pow2_le _ _ Hex) as Hp.
    apply (Qle_trans _ (2 ^ ilog2 y)).
    + apply (fl_grid_le x _ (2 ^ (ilog2 y - ulp_exp x))); [lra |].
      apply pow2_on_grid. unfold prec in Hty. lia.
    + apply (fl_grid_ge y _ (2 ^ (ilog2 y - ulp_exp y))); [lra |].
      apply pow2_on_grid. unfold prec in Hty. lia.
Qed.

(** Rounding is monotone. *)
Lemma fl_mono (x y : Q) : x <= y -> fl x <= fl y.
Proof.
  intros Hxy.
  destruct (Qlt_le_dec 0 x) as [Hx | Hx].
  - apply fl_mono_pos; assumption.
  - destruct (Qlt_le_dec y 0) as [Hy | Hy].
    + assert (H : fl (- y) <= fl (- x)) by (apply fl_mono_pos; lra).
      rewrite !fl_opp in H. lra.
    + pose proof (fl_nonpos x Hx). pose proof (fl_nonneg y Hy). lra.
Qed.

(** A binary64 bound on the exact value bounds the rounded one. *)
Lemma fl_le (x c : Q) : x <= c -> fl c == c -> fl x <= c.
Proof. intros H E. rewrite <- E. apply fl_mono, H. Qed.

Lemma fl_ge (x c : Q) : c <= x -> fl c == c -> c <= fl x.
Proof. intros H E. rewrite <- E. apply fl_mono, H. Qed.

Lemma fl_abs_le (x c : Q) : Qabs x <= c -> fl c == c -> Qabs (fl x) <= c.
Proof.
  intros H E. apply Qabs_Qle_condition in H. apply Qabs_Qle_condition.
  split.
  - apply fl_ge; [lra |]. rewrite fl_opp, E. reflexivity.
  - apply fl_le; [lra | exact E].
Qed.

Lemma fl_abs_ge (x c : Q) : c <= Qabs x -> fl c == c -> c <= Qabs (fl x).
Proof.
  intros H E.
  destruct (Qlt_le_dec x 0) as [Hx | Hx].
  - rewrite Qabs_neg in H by lra.
    assert (Hc : fl x <= - c).
    { apply fl_le; [lra |]. rewrite fl_opp, E. reflexivity. }
    destruct (Qlt_le_dec c 0) as [Hc0 | Hc0].
    + pose proof (Qabs_nonneg (fl x)). lra.
    + rewrite Qabs_neg by lra. lra.
  - rewrite Qabs_pos in H by lra.
    assert (Hc : c <= fl x) by (apply fl_ge; assumption).
    pose proof (fl_nonneg x Hx). rewrite Qabs_pos by lra. exact Hc.
Qed.

(** *** Grids *)

Lemma fl_on_grid (x : Q) : on_grid (ulp_exp x) (fl x).
Proof. exists (rne (x / 2 ^ ulp_exp x)). apply fl_eq. Qed.

Lemma on_grid_coarse (t t' : Z) (x : Q) :
  (t' <= t)%Z -> on_grid t x -> on_grid t' x.
Proof.
  intros H [k Hk]. exists (k * 2 ^ (t - t'))%Z.
  rewrite inject_Z_mult, Hk, (pow2_on_grid t t' H). ring.
Qed.

Lemma on_grid_zero (t : Z) (x : Q) : x == 0 -> on_grid t x.
Proof. intros E. exists 0%Z. rewrite E. change (inject_Z 0) with 0. ring. Qed.

Lemma on_grid_plus (t : Z) (x y : Q) :
  on_grid t x -> on_grid t y -> on_grid t (x + y).
Proof.
  intros [k Hk] [j Hj]. exists (k + j)%Z.
  rewrite inject_Z_plus, Hk, Hj. ring.
Qed.

(** A point of the grid other than zero is at least one step away from it. *)
Lemma on_grid_nonzero (t : Z) (x : Q) :
  on_grid t x -> ~ x == 0 -> 2 ^ t <= Qabs x.
Proof.
  intros [k Hk] Hx. pose proof (pow2_pos t) as Hp.
  assert (Hk0 : k <> 0%Z).
  { intros ->. apply Hx. rewrite Hk. change (inject_Z 0) with 0. ring. }
  rewrite Hk, Qabs_Qmult, (Qabs_pos (2 ^ t)) by lra.
  assert (H1 : 1 <= Qabs (inject_Z k)).
  { change (Qabs (inject_Z k)) with (inject_Z (Z.abs k)).
    change 1 with (inject_Z 1). rewrite <- Zle_Qle. lia. }
  nra.
Qed.

(** A value of at least [2 ^ a] in magnitude rounds onto the grid of
    [a - 52], or a finer one. *)
Lemma fl_on_grid_of (x : Q) (a : Z) :
  2 ^ a <= Qabs x -> (emin <= a - (prec - 1))%Z -> on_grid (a - (prec - 1)) (fl x).
Proof.
  intros H Ha.
  assert (Hx : ~ x == 0).
  { intros E. rewrite E in H. pose proof (pow2_pos a). simpl in H. lra. }
  destruct (ilog2_spec x Hx) as [_ H2].
  assert (a < ilog2 x + 1)%Z by (apply pow2_lt_inv; lra).
  apply (on_grid_coarse (ulp_exp x)); [unfold ulp_exp; lia | apply fl_on_grid].
Qed.

Lemma Qabs_inject_Z (n : Z) : Qabs (inject_Z n) = inject_Z (Z.abs n).
Proof. reflexivity. Qed.

(** [|d / s|] is at most [A / c] when [|d| <= A] and [c <= |s|]. *)
Lemma Qabs_div_le (d s A c : Q) :
  Qabs d <= A -> 0 < c -> c <= Qabs s -> Qabs (d / s) <= A / c.
Proof.
  intros Hd Hc Hs.
  assert (Hs0 : ~ s == 0).
  { intros E. rewrite E in Hs. simpl in Hs. lra. }
  pose proof (Qabs_nonneg d) as Hd0.
  assert (E : Qabs (d / s) * Qabs s == Qabs d).
  { rewrite <- Qabs_Qmult. apply Qabs_wd. field. exact Hs0. }
  assert (E2 : A / c * c == A) by (field; lra).
  pose proof (Qabs_nonneg (d / s)) as Hq.
  apply Qnot_lt_le. intros Hlt. nra.
Qed.

End FlFacts.

(** ** Python's numbers, [sorted] and [statistics.median] *)

Module PyFacts.
Import B64 RneFacts Pow2 FlFacts.
Local Open Scope Q_scope.

Lemma finiteb_true (v : Q) : finiteb v = true <-> Qabs v < 2 ^ emax.
Proof.
  unfold finiteb. rewrite negb_true_iff. split; intros H.
  - apply Qnot_le_lt. intros Hle. apply Qle_bool_iff in Hle. congruence.
  - destruct (Qle_bool (2 ^ emax) (Qabs v)) eqn:E; [| reflexivity].
    apply Qle_bool_iff in E. exfalso. apply (Qlt_irrefl (Qabs v)). lra.
Qed.

Lemma check_Ok (e : exn) (v w : Q) : Py.check e v = Ok w -> w = v.
Proof. unfold Py.check. destruct (finiteb v); congruence. Qed.

Lemma check_finite (e : exn) (v : Q) : Qabs v < 2 ^ emax -> Py.check e v = Ok v.
Proof. intros H. unfold Py.check. apply finiteb_true in H. rewrite H. reflexivity. Qed.

(** A rounded value within [2 ^ k], [k] below [emax], is a finite float. *)
Lemma check_fl (e : exn) (x : Q) (k : Z) :
  Qabs x <= 2 ^ k -> (emin <= k < emax)%Z ->
  Py.check e (fl x) = Ok (fl x) /\ Qabs (fl x) <= 2 ^ k.
Proof.
  intros Hx Hk.
  assert (Hb : Qabs (fl x) <= 2 ^ k) by (apply fl_abs_le; [exact Hx | apply fl_pow2; lia]).
  split; [| exact Hb].
  apply check_finite. pose proof (pow2_lt k emax (proj2 Hk)). lra.
Qed.

Lemma fl_two : fl (inject_Z 2) = 2.
Proof. vm_compute. reflexivity. Qed.

Lemma float_of_int_two : Py.float_of_int 2 = Ok 2.
Proof. vm_compute. reflexivity. Qed.

(** *** [sorted] *)

Lemma insert_perm (x : Q) (l : list Q) : Permutation (x :: l) (Py.insert x l).
Proof.
  induction l as [| y l IH]; simpl; [reflexivity |].
  destruct (Qle_bool x y); [reflexivity |].
  rewrite perm_swap. apply perm_skip, IH.
Qed.

Lemma sorted_perm (l : list Q) : Permutation l (Py.sorted l).
Proof.
  induction l as [| x l IH]; simpl; [reflexivity |].
  rewrite <- insert_perm. apply perm_skip, IH.
Qed.

Lemma sorted_length (l : list Q) : List.length (Py.sorted l) = List.length l.
Proof. symmetry. apply Permutation_length, sorted_perm. Qed.

Lemma insert_sorted (x : Q) (l : list Q) :
  StronglySorted Qle l -> StronglySorted Qle (Py.insert x l).
Proof.
  induction 1 as [| y l Hs IH Hy]; simpl.
  - constructor; constructor.
  - destruct (Qle_bool x y) eqn:E.
    + apply Qle_bool_iff in E. constructor.
      * constructor; assumption.
      * constructor; [exact E |].
        eapply Forall_impl; [| exact Hy]. intros z Hz. simpl in Hz. lra.
    + assert (Hyx : y <= x).
      { apply Qlt_le_weak, Qnot_le_lt. intros H. apply Qle_bool_iff in H. congruence. }
      constructor; [exact IH |].
      apply (Permutation_Forall (insert_perm x l)).
      constructor; assumption.
Qed.

Lemma sorted_sorted (l : list Q) : StronglySorted Qle (Py.sorted l).
Proof.
  induction l as [| x l IH]; simpl; [constructor | apply insert_sorted, IH].
Qed.

Lemma sorted_Forall (P : Q -> Prop) (l : list Q) :
  Forall P l -> Forall P (Py.sorted l).
Proof. apply Permutation_Forall, sorted_perm. Qed.

Lemma Forall_nth_lt (P : Q -> Prop) (l : list Q) (i : nat) :
  Forall P l -> (i < List.length l)%nat -> P (nth i l 0).
Proof. intros H Hi. rewrite Forall_forall in H. apply H, nth_In, Hi. Qed.

(** *** [statistics.median] *)

(** What [statistics.median] returns is the median. *)
Lemma bind_Ok {A B : Type} (a : A) (k : A -> result B) : bind (Ok a) k = k a.
Proof. reflexivity. Qed.

Lemma bind_Raise {A B : Type} (e : exn) (k : A -> result B) :
  bind (Raise e) k = Raise e.
Proof. reflexivity. Qed.

(** The operations, one step unfolded. *)
Lemma fadd_eq (x y : float) : Py.fadd x y = Py.check NonFinite (fl (x + y)).
Proof. unfold Py.fadd. reflexivity. Qed.

Lemma fsub_eq (x y : float) : Py.fsub x y = Py.check NonFinite (fl (x - y)).
Proof. unfold Py.fsub. reflexivity. Qed.

Lemma fmul_eq (x y : float) : Py.fmul x y = Py.check NonFinite (fl (x * y)).
Proof. unfold Py.fmul. reflexivity. Qed.

Lemma fdiv_eq (x y : float) :
  Qeq_bool y 0 = false -> Py.fdiv x y = Py.check NonFinite (fl (x / y)).
Proof. intros E. unfold Py.fdiv. rewrite E. reflexivity. Qed.

Lemma fdiv_zero (x y : float) :
  Qeq_bool y 0 = true -> Py.fdiv x y = Raise ZeroDivisionError.
Proof. intros E. unfold Py.fdiv. rewrite E. reflexivity. Qed.

Lemma float_of_int_eq (n : Z) :
  Py.float_of_int n = Py.check OverflowError (fl (inject_Z n)).
Proof. unfold Py.float_of_int. reflexivity. Qed.

Lemma median_eq (data : list float) :
  statistics.median data =
  if (List.length (Py.sorted data) =? 0)%nat then Raise StatisticsError
  else if (List.length (Py.sorted data) mod 2 =? 1)%nat
       then Ok (nth (List.length (Py.sorted data) / 2) (Py.sorted data) 0)
       else (s <- Py.fadd (nth (List.length (Py.sorted data) / 2 - 1)
                               (Py.sorted data) 0)
                          (nth (List.length (Py.sorted data) / 2)
                               (Py.sorted data) 0) ;;
             two <- Py.float_of_int 2 ;;
             Py.fdiv s two)%py.
Proof. unfold statistics.median. reflexivity. Qed.

Lemma mean_of_two (a b m : float) :
  (s <- Py.fadd a b ;; two <- Py.float_of_int 2 ;; Py.fdiv s two)%py = Ok m ->
  m = fl (fl (a + b) / 2).
Proof.
  rewrite fadd_eq. intros H.
  destruct (Py.check NonFinite (fl (a + b))) as [s |] eqn:Ea; [| discriminate].
  apply check_Ok in Ea. subst s.
  rewrite bind_Ok, float_of_int_two, bind_Ok in H.
  rewrite fdiv_eq in H by reflexivity.
  apply check_Ok in H. exact H.
Qed.

(** What [statistics.median] returns is the median. *)
Lemma median_is_median (data : list float) (m : float) :
  statistics.median data = Ok m -> is_median data m.
Proof.
  rewrite median_eq. intros H.
  exists (Py.sorted data).
  split; [apply sorted_perm |]. split; [apply sorted_sorted |].
  cbv zeta.
  destruct (List.length (Py.sorted data) =? 0)%nat eqn:E0; [discriminate |].
  apply Nat.eqb_neq in E0.
  destruct (List.length (Py.sorted data) mod 2 =? 1)%nat.
  - congruence.
  - split; [lia |]. apply mean_of_two, H.
Qed.

(** The median of data within [2 ^ k] exists and is within [2 ^ k]. *)
Lemma median_bounded (data : list float) (k : Z) :
  data <> [] -> Forall (fun x => Qabs x <= 2 ^ k) data ->
  (emin <= k)%Z -> (k + 1 < emax)%Z ->
  exists m, statistics.median data = Ok m /\ Qabs m <= 2 ^ k.
Proof.
  intros Hne Hb Hk1 Hk2.
  rewrite median_eq.
  pose proof (sorted_Forall _ _ Hb) as Hs.
  assert (Hpos : (0 < List.length (Py.sorted data))%nat).
  { rewrite sorted_length. destruct data; [congruence | apply Nat.lt_0_succ]. }
  remember (Py.sorted data) as sd eqn:Esd. clear Esd.
  assert (Hmid : (List.length sd / 2 < List.length sd)%nat)
    by (apply Nat.div_lt; [exact Hpos | constructor]).
  assert (Hmid' : (List.length sd / 2 - 1 < List.length sd)%nat)
    by (eapply Nat.le_lt_trans; [apply Nat.le_sub_l | exact Hmid]).
  destruct (Nat.eqb_spec (List.length sd) 0) as [E0 | _];
    [rewrite E0 in Hpos; inversion Hpos |].
  destruct (List.length sd mod 2 =? 1)%nat.
  - eexists. split; [reflexivity |].
    apply (Forall_nth_lt _ _ _ Hs), Hmid.
  - remember (nth (List.length sd / 2 - 1) sd 0) as a eqn:Ea.
    remember (nth (List.length sd / 2) sd 0) as b eqn:Eb.
    assert (Ha : Qabs a <= 2 ^ k)
      by (rewrite Ea; exact (Forall_nth_lt _ _ _ Hs Hmid')).
    assert (Hb' : Qabs b <= 2 ^ k)
      by (rewrite Eb; exact (Forall_nth_lt _ _ _ Hs Hmid)).
    clear Ea Eb.
    assert (Hab : Qabs (a + b) <= 2 ^ (k + 1)).
    { rewrite pow2_succ. pose proof (Qabs_triangle a b). lra. }
    destruct (check_fl NonFinite (a + b) (k + 1) Hab) as [E1 B1]; [lia |].
    rewrite fadd_eq, E1, bind_Ok, float_of_int_two, bind_Ok.
    rewrite fdiv_eq by reflexivity.
    assert (Hh : Qabs (fl (a + b) / 2) <= 2 ^ k).
    { rewrite pow2_succ in B1. apply Qabs_Qle_condition in B1.
      apply Qabs_Qle_condition. split.
      - apply Qle_shift_div_l; lra.
      - apply Qle_shift_div_r; lra. }
    destruct (check_fl NonFinite (fl (a + b) / 2) k Hh) as [E2 B2]; [lia |].
    rewrite E2. eexists. split; [reflexivity | exact B2].
Qed.

(** The median is one of the data, or the float mean of two of them. *)
Lemma median_cases (data : list float) (m : float) :
  statistics.median data = Ok m ->
  In m data \/
  exists a b, In a data /\ In b data /\ m = fl (fl (a + b) / 2).
Proof.
  intros H. apply median_is_median in H.
  destruct H as (s & Hp & _ & H). cbv zeta in H.
  assert (Hin : forall i, (i < List.length s)%nat -> In (nth i s 0) data).
  { intros i Hi. apply (Permutation_in _ (Permutation_sym Hp)), nth_In, Hi. }
  destruct (List.length s mod 2 =? 1)%nat eqn:E.
  - left. subst m. apply Hin. apply Nat.eqb_eq in E.
    apply Nat.div_lt; [| lia]. destruct (List.length s); [discriminate | lia].
  - right. destruct H as [Hn ->].
    exists (nth (List.length s / 2 - 1) s 0), (nth (List.length s / 2) s 0).
    pose proof (Nat.div_lt (List.length s) 2 Hn).
    split; [apply Hin; lia |]. split; [apply Hin; lia | reflexivity].
Qed.

Lemma Qabs_half (z : Q) : Qabs (z / 2) == Qabs z / 2.
Proof.
  change (z / 2) with (z * (1 # 2)). change (Qabs z / 2) with (Qabs z * (1 # 2)).
  destruct (Qlt_le_dec z 0) as [Hz | Hz].
  - pose proof (Qabs_neg z ltac:(lra)) as E1.
    pose proof (Qabs_neg (z * (1 # 2)) ltac:(lra)) as E2. lra.
  - pose proof (Qabs_pos z Hz) as E1.
    pose proof (Qabs_pos (z * (1 # 2)) ltac:(lra)) as E2. lra.
Qed.

(** The median of data on the grid of [2 ^ g] is zero or at least
    [2 ^ (g - 1)] in magnitude. *)
Lemma median_grid (data : list float) (m : float) (g : Z) :
  Forall (on_grid g) data -> (emin <= g - 1)%Z ->
  statistics.median data = Ok m ->
  m == 0 \/ 2 ^ (g - 1) <= Qabs m.
Proof.
  intros Hg He H.
  pose proof (pow2_le (g - 1) g ltac:(lia)) as Hle.
  rewrite Forall_forall in Hg.
  destruct (median_cases _ _ H) as [Hin | (a & b & Ha & Hb & ->)].
  - destruct (Qeq_dec m 0) as [E | N]; [left; exact E | right].
    pose proof (on_grid_nonzero g m (Hg _ Hin) N). lra.
  - pose proof (on_grid_plus g a b (Hg _ Ha) (Hg _ Hb)) as Hy.
    destruct (Qeq_dec (a + b) 0) as [E | N].
    + left. apply fl_zero. pose proof (fl_zero _ E) as E1.
      change (fl (a + b) / 2) with (fl (a + b) * (1 # 2)). lra.
    + right. pose proof (on_grid_nonzero g _ Hy N) as H1.
      pose proof (fl_abs_ge _ _ H1 (fl_pow2 g ltac:(lia))) as H2.
      apply fl_abs_ge; [| apply fl_pow2; lia].
      rewrite Qabs_half. pose proof (pow2_pred g).
      change (Qabs (fl (a + b)) / 2) with (Qabs (fl (a + b)) * (1 # 2)). lra.
Qed.

(** A lower bound on all the data is one on the median. *)
Lemma median_ge_pow2 (data : list float) (m : float) (a : Z) :
  Forall (fun x => 2 ^ a <= x) data -> (emin <= a)%Z ->
  statistics.median data = Ok m -> 2 ^ a <= m.
Proof.
  intros Hd Ha H. rewrite Forall_forall in Hd.
  destruct (median_cases _ _ H) as [Hin | (x & y & Hx & Hy & ->)].
  - apply Hd, Hin.
  - pose proof (Hd _ Hx) as Bx. pose proof (Hd _ Hy) as By_.
    cbv beta in Bx, By_.
    assert (Hs : 2 ^ (a + 1) <= fl (x + y)).
    { apply fl_ge; [rewrite pow2_succ; lra | apply fl_pow2; lia]. }
    apply fl_ge; [| apply fl_pow2; exact Ha].
    rewrite pow2_succ in Hs. apply Qle_shift_div_l; lra.
Qed.

(** *** [max] and [min] *)

Lemma fold_left_pick (f : Q -> Q -> bool) (l : list Q) (x : Q) :
  In (fold_left (fun m y => if f m y then y else m) l x) (x :: l).
Proof.
  revert x. induction l as [| y l IH]; intros x; simpl; [left; reflexivity |].
  destruct (f x y).
  - right. apply IH.
  - destruct (IH x) as [E | Hin]; [left; exact E | right; right; exact Hin].
Qed.

Lemma max_In (l : list float) (m : float) : Py.max l = Ok m -> In m l.
Proof.
  destruct l as [| x l]; simpl; [discriminate |].
  intros H. injection H as <-. apply (fold_left_pick Py.flt).
Qed.

Lemma min_In (l : list float) (m : float) : Py.min l = Ok m -> In m l.
Proof.
  destruct l as [| x l]; simpl; [discriminate |].
  intros H. injection H as <-.
  apply (fold_left_pick (fun m y => Py.flt y m)).
Qed.

End PyFacts.

(** ** The persisted record *)

Lemma load_state_loaded (st : store) : load_state st = (Ok (loaded st), st).
Proof. destruct st; reflexivity. Qed.

Lemma bindM_lift {A B : Type} (r : result A) (k : A -> M B) (st : store) :
  bindM (lift r) k st =
  match r with
  | Ok a => k a st
  | Raise e => (Raise e, st)
  end.
Proof. destruct r; reflexivity. Qed.

Lemma bindM_load {B : Type} (k : State -> M B) (st : store) :
  bindM load_state k st = k (loaded st) st.
Proof. unfold bindM. rewrite load_state_loaded. reflexivity. Qed.

(** What an estimation leaves behind: nothing when it raises, and when it
    returns the model it returns, stamped with the time of the call. *)
Lemma compute_calibration_store (now : datetime) (pts : list CalibrationPoint)
    (st : store) :
  match compute_calibration now pts st with
  | (Raise _, st') => st' = st
  | (Ok s, st') =>
    st' = Some s /\ calibrated s = true /\ calibrated_at s = Some now /\
    verified s = false /\ points s = pts /\
    verification_notes s = None /\ verified_at s = None /\
    exists c, consistent s = Some c
  end.
Proof.
  unfold compute_calibration.
  destruct (List.length pts <? 2)%nat; [reflexivity |].
  rewrite bindM_lift.
  destruct (scales_loop pts [] []) as [[scales_x scales_y] | e]; [| reflexivity].
  destruct (is_empty scales_x || is_empty scales_y); [reflexivity |].
  repeat (rewrite bindM_lift;
          match goal with
          | |- context [match ?r with Ok _ => _ | Raise _ => _ end] =>
            destruct r; [| reflexivity]
          end).
  unfold bindM, save_state, ret.
  cbn [calibrated calibrated_at verified points verification_notes verified_at
       consistent].
  repeat split. eexists. reflexivity.
Qed.

(** The record a verification writes. *)
Lemma mark_verified_eq (now : datetime) (success : bool) (notes : string)
    (st : store) :
  mark_verified now success notes st =
  let s := {|
    calibrated := calibrated (loaded st);
    scale_x := scale_x (loaded st);
    scale_y := scale_y (loaded st);
    offset_x := offset_x (loaded st);
    offset_y := offset_y (loaded st);
    points := points (loaded st);
    calibrated_at := calibrated_at (loaded st);
    verified := success;
    consistent := consistent (loaded st);
    spread_x := spread_x (loaded st);
    spread_y := spread_y (loaded st);
    verification_notes := Some notes;
    verified_at := Some now
  |} in (Ok s, Some s).
Proof. unfold mark_verified. rewrite bindM_load. reflexivity. Qed.

(** C6. Estimation is atomic on the persisted record: when it raises,
    whatever the exception, the record is the one from before the call;
    when it returns, the record written is the returned model, with every
    field there. *)
Theorem compute_calibration_atomic (now : datetime)
    (points : list CalibrationPoint) (st : store) :
  match compute_calibration now points st with
  | (Raise _, st') => st' = st
  | (Ok s, st') => st' = Some s /\ fully_populated s
  end.
Proof.
  unfold compute_calibration.
  destruct (List.length points <? 2)%nat; [reflexivity |].
  rewrite bindM_lift.
  destruct (scales_loop points [] []) as [[scales_x scales_y] | e]; [| reflexivity].
  destruct (is_empty scales_x || is_empty scales_y); [reflexivity |].
  repeat (rewrite bindM_lift;
          match goal with
          | |- context [match ?r with Ok _ => _ | Raise _ => _ end] =>
            destruct r; [| reflexivity]
          end).
  unfold bindM, save_state, ret. split; [reflexivity |].
  unfold fully_populated.
  cbn [calibrated scale_x scale_y calibrated_at consistent spread_x spread_y].
  repeat split; discriminate.
Qed.

(** C8. Verification sets [verified], [verification_notes] and
    [verified_at], persists the record, and leaves every other field as
    it was loaded; it always returns. *)
Theorem mark_verified_frame (now : datetime) (success : bool) (notes : string)
    (st : store) :
  exists s : State,
    mark_verified now success notes st = (Ok s, Some s) /\
    verified s = success /\
    verification_notes s = Some notes /\
    verified_at s = Some now /\
    calibrated s = calibrated (loaded st) /\
    scale_x s = scale_x (loaded st) /\
    scale_y s = scale_y (loaded st) /\
    offset_x s = offset_x (loaded st) /\
    offset_y s = offset_y (loaded st) /\
    points s = points (loaded st) /\
    calibrated_at s = calibrated_at (loaded st) /\
    consistent s = consistent (loaded st) /\
    spread_x s = spread_x (loaded st) /\
    spread_y s = spread_y (loaded st).
Proof.
  unfold mark_verified. rewrite bindM_load.
  eexists. split; [reflexivity |]. simpl. repeat split.
Qed.

(** ** The status of a record *)

(** On a record that is not calibrated, or has its time of calibration,
    [check_calibration] returns the status of the priority order, and asks
    for action exactly when the status is not "ok". *)
Lemma check_calibration_priority (now : datetime) (st : store) (t : datetime) :
  calibrated (loaded st) = false \/ calibrated_at (loaded st) = Some t ->
  exists h : Health,
    check_calibration now st = (Ok h, st) /\
    status h = status_of now (loaded st) t /\
    action_needed h = negb (String.eqb (status h) "ok").
Proof.
  intros H. unfold check_calibration, status_of. rewrite bindM_load.
  destruct (calibrated (loaded st)) eqn:Hc; simpl.
  - destruct H as [H | H]; [discriminate |]. rewrite H.
    destruct (timedelta_days 7 <? now - t).
    + eexists. split; [reflexivity |]. split; reflexivity.
    + destruct (verified (loaded st)); simpl.
      * destruct (consistent (loaded st)) as [[|] |]; simpl;
          eexists; (split; [reflexivity |]); split; reflexivity.
      * eexists. split; [reflexivity |]. split; reflexivity.
  - eexists. split; [reflexivity |]. split; reflexivity.
Qed.

(** [check_calibration] raises exactly on a calibrated record without its
    time of calibration: the [age] it formats is then unbound. *)
Lemma check_calibration_raises_iff (now : datetime) (st : store) :
  (exists e, fst (check_calibration now st) = Raise e) <->
  calibrated (loaded st) = true /\ calibrated_at (loaded st) = None.
Proof.
  split.
  - intros [e He].
    destruct (calibrated (loaded st)) eqn:Hc.
    + destruct (calibrated_at (loaded st)) as [t |] eqn:Ht; [| split; reflexivity].
      destruct (check_calibration_priority now st t) as (h & E & _).
      { right. exact Ht. }
      rewrite E in He. discriminate.
    + destruct (check_calibration_priority now st 0) as (h & E & _).
      { left. exact Hc. }
      rewrite E in He. discriminate.
  - intros [Hc Ht]. exists UnboundLocalError.
    unfold check_calibration. rewrite bindM_load, Hc, Ht. reflexivity.
Qed.

(** C1. On a calibrated record without [calibrated_at] the classifier
    sets [stale = True] and then raises [UnboundLocalError] while it
    formats [age.days]: no status is returned. *)
Theorem check_calibration_untimed (now : datetime) :
  check_calibration now (Some untimed_state)
  = (Raise UnboundLocalError, Some untimed_state).
Proof. reflexivity. Qed.

(** C10. Every record the engine can leave behind has its time of
    calibration when it is calibrated, and on it the classifier returns a
    status, whatever the time of the call. *)
Theorem reachable_timestamped (st : store) :
  reachable st ->
  timestamped (loaded st) /\
  forall now : datetime, exists h : Health, check_calibration now st = (Ok h, st).
Proof.
  intros Hr.
  assert (Ht : timestamped (loaded st)).
  { induction Hr as [| now points st r st' _ IH E
                     | now success notes st r st' _ IH E
                     | x y st r st' _ IH E
                     | x y st r st' _ IH E
                     | now st r st' _ IH E].
    - intros H. discriminate.
    - pose proof (compute_calibration_store now points st) as Ha.
      rewrite E in Ha. destruct r as [s | e].
      + destruct Ha as [-> (_ & Hat & _)]. intros _. cbn [loaded]. rewrite Hat.
        discriminate.
      + subst st'. exact IH.
    - rewrite mark_verified_eq in E. injection E as _ <-. exact IH.
    - unfold physical_to_logical in E. rewrite bindM_load in E.
      destruct (negb (calibrated (loaded st))).
      + injection E as _ <-. exact IH.
      + rewrite bindM_lift in E. destruct (to_logical x _ _).
        * rewrite bindM_lift in E. destruct (to_logical y _ _);
            injection E as _ <-; exact IH.
        * injection E as _ <-. exact IH.
    - unfold logical_to_physical in E. rewrite bindM_load in E.
      destruct (negb (calibrated (loaded st))).
      + injection E as _ <-. exact IH.
      + rewrite bindM_lift in E. destruct (to_physical x _ _).
        * rewrite bindM_lift in E. destruct (to_physical y _ _);
            injection E as _ <-; exact IH.
        * injection E as _ <-. exact IH.
    - destruct (calibrated (loaded st)) eqn:Hc.
      + destruct (calibrated_at (loaded st)) as [t |] eqn:Hat.
        * destruct (check_calibration_priority now st t) as (h & Eh & _).
          { right. exact Hat. }
          rewrite Eh in E. injection E as _ <-. exact IH.
        * exfalso. apply IH; [exact Hc | exact Hat].
      + destruct (check_calibration_priority now st 0) as (h & Eh & _).
        { left. exact Hc. }
        rewrite Eh in E. injection E as _ <-. exact IH. }
  split; [exact Ht |].
  intros now.
  destruct (calibrated (loaded st)) eqn:Hc.
  - destruct (calibrated_at (loaded st)) as [t |] eqn:Hat.
    + destruct (check_calibration_priority now st t) as (h & Eh & _).
      { right. exact Hat. }
      exists h. exact Eh.
    + exfalso. apply Ht; [exact Hc | exact Hat].
  - destruct (check_calibration_priority now st 0) as (h & Eh & _).
    { left. exact Hc. }
    exists h. exact Eh.
Qed.

(** ** Estimation *)

Module Estimation.
Import B64 FlFacts PyFacts.

Lemma int_truediv_Ok (a b : Z) (r : float) :
  Py.int_truediv a b = Ok r ->
  b <> 0 /\ r = fl (inject_Z a / inject_Z b).
Proof.
  unfold Py.int_truediv. destruct (Z.eqb_spec b 0) as [-> | Hb]; [discriminate |].
  intros H. apply check_Ok in H. split; assumption.
Qed.

(** The loop collects, behind what it was given, the ratios of each axis in
    the order of the points. *)
Lemma scales_loop_ratios (points : list CalibrationPoint)
    (ax ay sx sy : list float) :
  scales_loop points ax ay = Ok (sx, sy) ->
  sx = ax ++ ratios physical_x logical_x points /\
  sy = ay ++ ratios physical_y logical_y points.
Proof.
  revert ax ay. induction points as [| p rest IH]; intros ax ay H.
  - simpl in H. injection H as <- <-. unfold ratios. simpl.
    rewrite !app_nil_r. split; reflexivity.
  - simpl in H. unfold ratios. simpl.
    destruct (Z.eqb_spec (logical_x p) 0) as [Ex | Ex];
      destruct (Z.eqb_spec (logical_y p) 0) as [Ey | Ey]; simpl in *.
    + apply IH in H. exact H.
    + destruct (Py.int_truediv (physical_y p) (logical_y p)) as [ry |] eqn:Ry;
        [| discriminate]. simpl in H.
      apply int_truediv_Ok in Ry. destruct Ry as [_ ->].
      apply IH in H. destruct H as [-> ->]. rewrite <- app_assoc. split; reflexivity.
    + destruct (Py.int_truediv (physical_x p) (logical_x p)) as [rx |] eqn:Rx;
        [| discriminate]. simpl in H.
      apply int_truediv_Ok in Rx. destruct Rx as [_ ->].
      apply IH in H. destruct H as [-> ->]. rewrite <- app_assoc. split; reflexivity.
    + destruct (Py.int_truediv (physical_x p) (logical_x p)) as [rx |] eqn:Rx;
        [| discriminate]. simpl in H.
      destruct (Py.int_truediv (physical_y p) (logical_y p)) as [ry |] eqn:Ry;
        [| discriminate]. simpl in H.
      apply int_truediv_Ok in Rx. destruct Rx as [_ ->].
      apply int_truediv_Ok in Ry. destruct Ry as [_ ->].
      apply IH in H. destruct H as [-> ->]. rewrite <- !app_assoc. split; reflexivity.
Qed.

(** What a successful estimation has computed. *)
Lemma compute_calibration_Ok (now : datetime) (points : list CalibrationPoint)
    (st st' : store) (s : State) :
  compute_calibration now points st = (Ok s, st') ->
  exists mx my,
    (2 <= List.length points)%nat /\
    statistics.median (ratios physical_x logical_x points) = Ok mx /\
    statistics.median (ratios physical_y logical_y points) = Ok my /\
    scale_x s = Some (Py.round_nd mx 6) /\
    scale_y s = Some (Py.round_nd my 6) /\
    st' = Some s.
Proof.
  unfold compute_calibration.
  destruct (Nat.ltb_spec (List.length points) 2) as [Hl | Hl]; [discriminate |].
  rewrite bindM_lift.
  destruct (scales_loop points [] []) as [[scales_x scales_y] | e] eqn:El;
    [| discriminate].
  apply scales_loop_ratios in El. simpl in El. destruct El as [-> ->].
  destruct (is_empty _ || is_empty _); [discriminate |].
  rewrite bindM_lift.
  destruct (statistics.median (ratios physical_x _ _)) as [mx |]; [| discriminate].
  rewrite bindM_lift.
  destruct (statistics.median (ratios physical_y _ _)) as [my |]; [| discriminate].
  repeat (rewrite bindM_lift;
          match goal with
          | |- context [match ?r with Ok _ => _ | Raise _ => _ end] =>
            destruct r; [| discriminate]
          end).
  unfold bindM, save_state, ret. intros H.
  match type of H with
  | (Ok ?r, Some ?r) = _ =>
    assert (Es : s = r) by congruence;
    assert (Est : st' = Some r) by congruence
  end.
  rewrite Est, Es. exists mx, my.
  split; [exact Hl |]. repeat split.
Qed.

(** *** Pixel coordinates *)

Local Open Scope Q_scope.
Import Pow2.

Lemma pixel_abs (z : Z) : pixel z -> Qabs (inject_Z z) <= 2 ^ 31.
Proof.
  unfold pixel. intros H. rewrite Qabs_inject_Z, pow2_Z by lia.
  rewrite <- Zle_Qle. exact H.
Qed.

Lemma nonzero_abs (z : Z) : z <> 0%Z -> 1 <= Qabs (inject_Z z).
Proof.
  intros H. rewrite Qabs_inject_Z. change 1 with (inject_Z 1).
  rewrite <- Zle_Qle. lia.
Qed.

Lemma ratio_abs_le (p l : Z) :
  pixel p -> l <> 0%Z -> Qabs (inject_Z p / inject_Z l) <= 2 ^ 31.
Proof.
  intros Hp Hl.
  pose proof (Qabs_div_le _ _ _ 1 (pixel_abs p Hp) eq_refl (nonzero_abs l Hl)) as H.
  unfold Qdiv at 2 in H. change (/ 1) with 1 in H. rewrite Qmult_1_r in H. exact H.
Qed.

Lemma int_truediv_pixel (p l : Z) :
  pixel p -> l <> 0%Z ->
  Py.int_truediv p l = Ok (fl (inject_Z p / inject_Z l)).
Proof.
  intros Hp Hl. unfold Py.int_truediv.
  destruct (Z.eqb_spec l 0) as [E | _]; [contradiction |].
  apply check_fl with (k := 31%Z); [apply ratio_abs_le; assumption |].
  unfold emin, emax. lia.
Qed.

Lemma scales_loop_pixel (points : list CalibrationPoint) (ax ay : list float) :
  Forall pixel_point points ->
  scales_loop points ax ay
  = Ok (ax ++ ratios physical_x logical_x points,
        ay ++ ratios physical_y logical_y points).
Proof.
  intros H. revert ax ay.
  induction H as [| p rest (Hpx & Hpy & _ & _) _ IH]; intros ax ay.
  - unfold ratios. simpl. rewrite !app_nil_r. reflexivity.
  - simpl. unfold ratios. simpl.
    destruct (Z.eqb_spec (logical_x p) 0) as [Ex | Ex];
      destruct (Z.eqb_spec (logical_y p) 0) as [Ey | Ey]; simpl;
      try rewrite (int_truediv_pixel _ _ Hpx Ex);
      try rewrite (int_truediv_pixel _ _ Hpy Ey); simpl;
      rewrite IH; unfold ratios; rewrite <- ?app_assoc; reflexivity.
Qed.

(** A property of every ratio of an axis. *)
Lemma ratios_Forall (P : Q -> Prop) (physical logical : CalibrationPoint -> Z)
    (points : list CalibrationPoint) :
  Forall (fun p => logical p <> 0%Z ->
                   P (fl (inject_Z (physical p) / inject_Z (logical p)))) points ->
  Forall P (ratios physical logical points).
Proof.
  intros H. unfold ratios. apply Forall_map.
  induction H as [| p rest Hp _ IH]; simpl; [constructor |].
  destruct (Z.eqb_spec (logical p) 0) as [E | E]; simpl; [exact IH |].
  constructor; [apply Hp, E | exact IH].
Qed.

Lemma ratios_nil_iff (physical logical : CalibrationPoint -> Z)
    (points : list CalibrationPoint) :
  ratios physical logical points = [] <->
  Forall (fun p => logical p = 0%Z) points.
Proof.
  unfold ratios. induction points as [| p rest IH]; simpl.
  - split; [constructor | reflexivity].
  - destruct (Z.eqb_spec (logical p) 0) as [E | E]; simpl.
    + rewrite IH. split; intros H.
      * constructor; assumption.
      * inversion H. assumption.
    + split; [discriminate |]. intros H. inversion H. contradiction.
Qed.

Lemma is_empty_true {A : Type} (l : list A) : is_empty l = true <-> l = [].
Proof. destruct l; simpl; split; congruence. Qed.

Lemma ratios_pixel_bound (physical logical : CalibrationPoint -> Z)
    (points : list CalibrationPoint) :
  Forall (fun p => pixel (physical p)) points ->
  Forall (fun r => Qabs r <= 2 ^ 31) (ratios physical logical points).
Proof.
  intros H. apply ratios_Forall.
  eapply Forall_impl; [| exact H]. intros p Hp Hl. cbv beta.
  apply fl_abs_le; [apply ratio_abs_le; assumption |].
  apply fl_pow2. unfold emin. lia.
Qed.

(** The ratio of two pixel coordinates is zero or at least [2 ^ -31], so
    it rounds onto the grid of [2 ^ -83]. *)
Lemma ratios_pixel_grid (physical logical : CalibrationPoint -> Z)
    (points : list CalibrationPoint) :
  Forall (fun p => pixel (logical p)) points ->
  Forall (on_grid (-83)) (ratios physical logical points).
Proof.
  intros H. apply ratios_Forall.
  eapply Forall_impl; [| exact H]. intros p Hp Hl. cbv beta.
  destruct (Z.eq_dec (physical p) 0) as [E | N].
  - apply on_grid_zero, fl_zero. rewrite E. unfold Qdiv.
    change (inject_Z 0) with 0. ring.
  - apply (fl_on_grid_of _ (-31)); [| unfold emin, prec; lia].
    assert (Hl0 : ~ inject_Z (logical p) == 0).
    { intros E. apply Hl. apply (inject_Z_injective _ 0). exact E. }
    assert (E : Qabs (inject_Z (physical p) / inject_Z (logical p))
                * Qabs (inject_Z (logical p)) == Qabs (inject_Z (physical p))).
    { rewrite <- Qabs_Qmult. apply Qabs_wd. field. exact Hl0. }
    pose proof (nonzero_abs _ N) as H1.
    pose proof (pixel_abs _ Hp) as H2.
    pose proof (nonzero_abs _ Hl) as H3.
    pose proof (Qabs_nonneg (inject_Z (physical p) / inject_Z (logical p))) as H4.
    assert (H5 : 2 ^ (-31) * 2 ^ 31 == 1) by reflexivity.
    apply Qnot_lt_le. intros Hlt. nra.
Qed.

Lemma spread_ok (scales : list float) (scale : float) :
  scales <> [] -> Forall (fun r => Qabs r <= 2 ^ 31) scales ->
  scale == 0 \/ 2 ^ (-84) <= Qabs scale ->
  exists v, spread scales scale = Ok v.
Proof.
  intros Hne Hb Hs. unfold spread.
  destruct (Qeq_bool scale 0) eqn:E0; [eexists; reflexivity |].
  apply Qeq_bool_neq in E0. destruct Hs as [Hs | Hs]; [contradiction |].
  rewrite Forall_forall in Hb.
  destruct scales as [| x rest]; [congruence |].
  destruct (Py.max (x :: rest)) as [hi |] eqn:Ehi; [| discriminate].
  destruct (Py.min (x :: rest)) as [lo |] eqn:Elo; [| discriminate].
  pose proof (Hb _ (max_In _ _ Ehi)) as Bhi.
  pose proof (Hb _ (min_In _ _ Elo)) as Blo.
  assert (Hd : Qabs (hi - lo) <= 2 ^ 32).
  { change (2 ^ 32) with (2 * 2 ^ 31).
    apply Qabs_Qle_condition in Bhi. apply Qabs_Qle_condition in Blo.
    apply Qabs_Qle_condition. lra. }
  destruct (check_fl NonFinite _ 32 Hd) as [E1 B1]; [unfold emin, emax; lia |].
  unfold bind, Py.fsub. rewrite E1. unfold Py.fdiv.
  destruct (Qeq_bool scale 0) eqn:E0'; [apply Qeq_bool_iff in E0'; contradiction |].
  assert (Hq : Qabs (fl (hi - lo) / scale) <= 2 ^ 116).
  { pose proof (Qabs_div_le _ _ _ _ B1 (pow2_pos (-84)) Hs) as H.
    assert (E : 2 ^ 32 / 2 ^ (-84) == 2 ^ 116) by reflexivity.
    lra. }
  destruct (check_fl NonFinite _ 116 Hq) as [E2 _]; [unfold emin, emax; lia |].
  rewrite E2. eexists. reflexivity.
Qed.

Lemma float_of_int_pixel (z : Z) :
  pixel z ->
  Py.float_of_int z = Ok (fl (inject_Z z)) /\ fl (inject_Z z) == inject_Z z.
Proof.
  intros H. split.
  - apply check_fl with (k := 31%Z); [apply pixel_abs, H |].
    unfold emin, emax. lia.
  - apply fl_Z. unfold pixel in H. unfold prec.
    assert (2 ^ 31 < 2 ^ 53)%Z by (apply Z.pow_lt_mono_r; lia). lia.
Qed.

Lemma residual_ok (physical logical : Z) (scale : float) :
  pixel physical -> pixel logical -> Qabs scale <= 2 ^ 31 ->
  exists v, residual physical logical scale = Ok v /\ Qabs v <= 2 ^ 63.
Proof.
  intros Hp Hl Hs. unfold residual.
  destruct (float_of_int_pixel _ Hl) as [El' El].
  destruct (float_of_int_pixel _ Hp) as [Ep' Ep].
  pose proof (pixel_abs _ Hp) as Bp. pose proof (pixel_abs _ Hl) as Bl.
  rewrite <- (Qabs_wd _ _ El) in Bl. rewrite <- (Qabs_wd _ _ Ep) in Bp.
  remember (fl (inject_Z logical)) as l eqn:Eql.
  remember (fl (inject_Z physical)) as p eqn:Eqp.
  assert (Hm : Qabs (l * scale) <= 2 ^ 62).
  { rewrite Qabs_Qmult. change (2 ^ 62) with (2 ^ 31 * 2 ^ 31).
    pose proof (Qabs_nonneg l). pose proof (Qabs_nonneg scale). nra. }
  destruct (check_fl NonFinite _ 62 Hm) as [E1 B1]; [unfold emin, emax; lia |].
  rewrite El', bind_Ok, fmul_eq, E1, bind_Ok, Ep', bind_Ok, fsub_eq.
  assert (Hd : Qabs (p - fl (l * scale)) <= 2 ^ 63).
  { apply Qabs_Qle_condition in Bp. apply Qabs_Qle_condition in B1.
    apply Qabs_Qle_condition.
    assert (E63 : 2 ^ 63 == 2 * 2 ^ 62) by reflexivity.
    assert (E62 : 2 ^ 31 <= 2 ^ 62) by (apply pow2_le; lia).
    lra. }
  destruct (check_fl NonFinite _ 63 Hd) as [E2 B2]; [unfold emin, emax; lia |].
  rewrite E2. eexists. split; [reflexivity | exact B2].
Qed.

Lemma offsets_ok (physical logical : CalibrationPoint -> Z)
    (points : list CalibrationPoint) (scale : float) :
  Forall (fun p => pixel (physical p) /\ pixel (logical p)) points ->
  Qabs scale <= 2 ^ 31 ->
  exists vs, offsets physical logical points scale = Ok vs /\
             Forall (fun v => Qabs v <= 2 ^ 63) vs.
Proof.
  intros H Hs. unfold offsets.
  induction H as [| p rest [Hp Hl] _ (vs & E & B)]; simpl.
  - exists []. split; [reflexivity | constructor].
  - destruct (negb (logical p =? 0)%Z); [| exists vs; split; assumption].
    simpl. destruct (residual_ok _ _ _ Hp Hl Hs) as (v & -> & Bv).
    simpl. rewrite E. simpl. exists (v :: vs).
    split; [reflexivity | constructor; assumption].
Qed.

Lemma offset_of_ok (vs : list float) :
  Forall (fun v => Qabs v <= 2 ^ 63) vs -> exists z, offset_of vs = Ok z.
Proof.
  intros H. unfold offset_of. destruct vs as [| v vs]; [eexists; reflexivity |].
  destruct (median_bounded (v :: vs) 63) as (m & -> & _);
    [discriminate | exact H | unfold emin; lia | unfold emax; lia |].
  eexists. reflexivity.
Qed.

(** On pixel coordinates nothing leaves the range of the floats: with two
    points or more and a ratio on each axis the estimation returns. *)
Lemma compute_calibration_pixel (now : datetime)
    (points : list CalibrationPoint) (st : store) :
  Forall pixel_point points -> (2 <= List.length points)%nat ->
  ratios physical_x logical_x points <> [] ->
  ratios physical_y logical_y points <> [] ->
  exists s, compute_calibration now points st = (Ok s, Some s).
Proof.
  intros Hpix Hlen Hx Hy. unfold compute_calibration.
  destruct (Nat.ltb_spec (List.length points) 2) as [Hl | _]; [lia |].
  rewrite bindM_lift, (scales_loop_pixel _ _ _ Hpix).
  cbn [app]. cbv beta iota.
  set (rx := ratios physical_x logical_x points) in *.
  set (ry := ratios physical_y logical_y points) in *.
  assert (Ex : is_empty rx = false) by (destruct rx; [congruence | reflexivity]).
  assert (Ey : is_empty ry = false) by (destruct ry; [congruence | reflexivity]).
  rewrite Ex, Ey. cbn [orb]. cbv beta iota.
  assert (Bx : Forall (fun r => Qabs r <= 2 ^ 31) rx).
  { apply ratios_pixel_bound. eapply Forall_impl; [| exact Hpix].
    intros p (H & _). exact H. }
  assert (By : Forall (fun r => Qabs r <= 2 ^ 31) ry).
  { apply ratios_pixel_bound. eapply Forall_impl; [| exact Hpix].
    intros p (_ & H & _). exact H. }
  assert (Gx : Forall (on_grid (-83)) rx).
  { apply ratios_pixel_grid. eapply Forall_impl; [| exact Hpix].
    intros p (_ & _ & H & _). exact H. }
  assert (Gy : Forall (on_grid (-83)) ry).
  { apply ratios_pixel_grid. eapply Forall_impl; [| exact Hpix].
    intros p (_ & _ & _ & H). exact H. }
  destruct (median_bounded rx 31 Hx Bx) as (mx & Emx & Bmx);
    [unfold emin; lia | unfold emax; lia |].
  destruct (median_bounded ry 31 Hy By) as (my & Emy & Bmy);
    [unfold emin; lia | unfold emax; lia |].
  rewrite bindM_lift, Emx. cbv beta iota. rewrite bindM_lift, Emy. cbv beta iota.
  destruct (spread_ok rx mx Hx Bx) as (spx & Espx).
  { apply (median_grid rx mx (-83) Gx); [unfold emin; lia | exact Emx]. }
  destruct (spread_ok ry my Hy By) as (spy & Espy).
  { apply (median_grid ry my (-83) Gy); [unfold emin; lia | exact Emy]. }
  rewrite bindM_lift, Espx. cbv beta iota. rewrite bindM_lift, Espy. cbv beta iota.
  destruct (offsets_ok physical_x logical_x points mx) as (ox & Eox & Box);
    [| exact Bmx |].
  { eapply Forall_impl; [| exact Hpix]. intros p (H1 & _ & H2 & _). split; assumption. }
  destruct (offsets_ok physical_y logical_y points my) as (oy & Eoy & Boy);
    [| exact Bmy |].
  { eapply Forall_impl; [| exact Hpix]. intros p (_ & H1 & _ & H2). split; assumption. }
  rewrite bindM_lift, Eox. cbv beta iota. rewrite bindM_lift, Eoy. cbv beta iota.
  destruct (offset_of_ok ox Box) as (zx & Ezx).
  destruct (offset_of_ok oy Boy) as (zy & Ezy).
  rewrite bindM_lift, Ezx. cbv beta iota. rewrite bindM_lift, Ezy. cbv beta iota.
  unfold bindM, save_state, ret. eexists. reflexivity.
Qed.

End Estimation.

Lemma compute_calibration_short (now : datetime)
    (points : list CalibrationPoint) (st : store) :
  (List.length points < 2)%nat ->
  compute_calibration now points st = (Raise InsufficientSamples, st).
Proof.
  intros H. unfold compute_calibration.
  destruct (Nat.ltb_spec (List.length points) 2) as [_ | Hl]; [reflexivity | lia].
Qed.

Lemma compute_calibration_degenerate (now : datetime)
    (points : list CalibrationPoint) (st : store) :
  Forall pixel_point points -> (2 <= List.length points)%nat ->
  ratios physical_x logical_x points = [] \/
  ratios physical_y logical_y points = [] ->
  compute_calibration now points st = (Raise DegenerateInput, st).
Proof.
  intros Hpix Hlen He. unfold compute_calibration.
  destruct (Nat.ltb_spec (List.length points) 2) as [Hl | _]; [lia |].
  rewrite bindM_lift, (Estimation.scales_loop_pixel _ _ _ Hpix).
  cbn [app]. cbv beta iota.
  destruct He as [-> | ->]; cbn [is_empty orb]; [reflexivity |].
  rewrite orb_true_r. reflexivity.
Qed.

(** C5, as amended. On points with pixel coordinates: estimation fails
    with InsufficientSamples exactly when fewer than 2 points are given;
    given at least 2 points it fails with DegenerateInput exactly when on
    some axis every point has logical coordinate 0; otherwise it returns a
    model and persists it. *)
Theorem estimation_outcomes (now : datetime) (points : list CalibrationPoint)
    (st : store) :
  Forall pixel_point points ->
  (fst (compute_calibration now points st) = Raise InsufficientSamples <->
   (List.length points < 2)%nat) /\
  ((2 <= List.length points)%nat ->
   (fst (compute_calibration now points st) = Raise DegenerateInput <->
    Forall (fun p => logical_x p = 0) points \/
    Forall (fun p => logical_y p = 0) points)) /\
  ((2 <= List.length points)%nat ->
   ~ Forall (fun p => logical_x p = 0) points ->
   ~ Forall (fun p => logical_y p = 0) points ->
   exists s : State, compute_calibration now points st = (Ok s, Some s)).
Proof.
  intros Hpix.
  rewrite <- !(Estimation.ratios_nil_iff physical_x logical_x points).
  rewrite <- !(Estimation.ratios_nil_iff physical_y logical_y points).
  assert (Hok : (2 <= List.length points)%nat ->
                ratios physical_x logical_x points <> [] ->
                ratios physical_y logical_y points <> [] ->
                exists s, compute_calibration now points st = (Ok s, Some s))
    by (intros; apply Estimation.compute_calibration_pixel; assumption).
  assert (Hdec : forall l : list float, l = [] \/ l <> [])
    by (intros [| x l]; [left; reflexivity | right; discriminate]).
  split; [| split].
  - split.
    + intros H.
      destruct (Nat.ltb_spec (List.length points) 2) as [Hl | Hl]; [exact Hl |].
      exfalso.
      destruct (Hdec (ratios physical_x logical_x points)) as [Ex | Nx].
      { rewrite compute_calibration_degenerate in H by auto. discriminate H. }
      destruct (Hdec (ratios physical_y logical_y points)) as [Ey | Ny].
      { rewrite compute_calibration_degenerate in H by auto. discriminate H. }
      destruct (Hok Hl Nx Ny) as (s & E). rewrite E in H. discriminate H.
    + intros H. rewrite compute_calibration_short by exact H. reflexivity.
  - intros Hl. split.
    + intros H.
      destruct (Hdec (ratios physical_x logical_x points)) as [Ex | Nx];
        [left; exact Ex |].
      destruct (Hdec (ratios physical_y logical_y points)) as [Ey | Ny];
        [right; exact Ey |].
      destruct (Hok Hl Nx Ny) as (s & E). rewrite E in H. discriminate H.
    + intros H. rewrite compute_calibration_degenerate by assumption. reflexivity.
  - exact Hok.
Qed.

(** *** Positive scales *)

Module Positive.
Import B64 RneFacts Pow2 FlFacts PyFacts.
Local Open Scope Q_scope.

(** The ratio of coordinates on the same side is at least [2 ^ -20]. *)
Lemma ratio_same_side (p l : Z) :
  same_side p l -> 2 ^ (-20) <= fl (inject_Z p / inject_Z l).
Proof.
  intros [Hs Hb].
  apply fl_ge; [| apply fl_pow2; unfold emin; lia].
  assert (Hc : 2 ^ (-20) <= 1 # 1000000) by (vm_compute; discriminate).
  apply (Qle_trans _ (1 # 1000000)); [exact Hc |].
  assert (Hcase : (0 < p /\ 0 < l /\ l <= 1000000 * p)%Z \/
                  (p < 0 /\ l < 0 /\ 1000000 * p <= l)%Z) by nia.
  assert (Hl0 : ~ inject_Z l == 0).
  { intros E. apply (inject_Z_injective l 0) in E. lia. }
  assert (E : inject_Z p / inject_Z l * inject_Z l == inject_Z p)
    by (field; exact Hl0).
  remember (inject_Z p / inject_Z l) as x eqn:Ex. clear Ex.
  destruct Hcase as [(Hp & Hl & Hle) | (Hp & Hl & Hle)];
    rewrite Zlt_Qlt in Hp, Hl; rewrite Zle_Qle, inject_Z_mult in Hle;
    change (inject_Z 0) with 0 in *;
    change (inject_Z 1000000) with (1000000 # 1) in Hle;
    apply Qnot_lt_le; intros Hlt; nra.
Qed.

(** Rounding to 6 places keeps a value of at least [2 ^ -20] positive. *)
Lemma round_nd_6_pos (m : float) : 2 ^ (-20) <= m -> 0 < Py.round_nd m 6.
Proof.
  intros H. unfold Py.round_nd.
  assert (Hk : (1 <= rne (m * 10 ^ 6))%Z).
  { assert (E1 : rne (2 ^ (-20) * 10 ^ 6) = 1%Z) by (vm_compute; reflexivity).
    rewrite <- E1. apply rne_mono.
    apply Qmult_le_compat_r; [exact H | vm_compute; discriminate]. }
  rewrite Zle_Qle in Hk. change (inject_Z 1) with 1 in Hk.
  assert (Hq : 2 ^ (-20) <= inject_Z (rne (m * 10 ^ 6)) / 10 ^ 6).
  { apply Qle_shift_div_l; [reflexivity |].
    assert (Hc : 2 ^ (-20) * 10 ^ 6 <= 1) by (vm_compute; discriminate).
    lra. }
  pose proof (fl_ge _ _ Hq (fl_pow2 (-20) ltac:(unfold emin; lia))) as Hf.
  pose proof (pow2_pos (-20)). lra.
Qed.

End Positive.

(** C9, as amended. For at least 2 points with pixel coordinates, each
    with physical and logical coordinate on the same side of the origin on
    both axes and a logical coordinate at most a million times the
    physical one, estimation succeeds with [scale_x > 0] and
    [scale_y > 0]. *)
Theorem positive_scales (now : datetime) (points : list CalibrationPoint)
    (st : store) :
  (2 <= List.length points)%nat ->
  Forall pixel_point points -> Forall aligned points ->
  exists (s : State) (qx qy : float),
    compute_calibration now points st = (Ok s, Some s) /\
    scale_x s = Some qx /\ scale_y s = Some qy /\
    (0 < qx)%Q /\ (0 < qy)%Q.
Proof.
  intros Hlen Hpix Hal.
  assert (Hx0 : Forall (fun p => logical_x p <> 0) points).
  { eapply Forall_impl; [| exact Hal]. intros p [[H _] _] E.
    rewrite E in H. lia. }
  assert (Hy0 : Forall (fun p => logical_y p <> 0) points).
  { eapply Forall_impl; [| exact Hal]. intros p [_ [H _]] E.
    rewrite E in H. lia. }
  assert (Hne : points <> []) by (destruct points; [simpl in Hlen; lia | discriminate]).
  assert (Nx : ratios physical_x logical_x points <> []).
  { rewrite Estimation.ratios_nil_iff. intros H.
    destruct points as [| p rest]; [congruence |].
    inversion H; inversion Hx0; contradiction. }
  assert (Ny : ratios physical_y logical_y points <> []).
  { rewrite Estimation.ratios_nil_iff. intros H.
    destruct points as [| p rest]; [congruence |].
    inversion H; inversion Hy0; contradiction. }
  destruct (Estimation.compute_calibration_pixel now points st Hpix Hlen Nx Ny)
    as (s & E).
  destruct (Estimation.compute_calibration_Ok _ _ _ _ _ E)
    as (mx & my & _ & Hmx & Hmy & Sx & Sy & _).
  exists s, (Py.round_nd mx 6), (Py.round_nd my 6).
  split; [exact E |]. split; [exact Sx |]. split; [exact Sy |].
  split; apply Positive.round_nd_6_pos.
  - apply (PyFacts.median_ge_pow2 (ratios physical_x logical_x points));
      [| unfold B64.emin; lia | exact Hmx].
    apply Estimation.ratios_Forall.
    eapply Forall_impl; [| exact Hal]. intros p [H _] _.
    apply Positive.ratio_same_side, H.
  - apply (PyFacts.median_ge_pow2 (ratios physical_y logical_y points));
      [| unfold B64.emin; lia | exact Hmy].
    apply Estimation.ratios_Forall.
    eapply Forall_impl; [| exact Hal]. intros p [_ H] _.
    apply Positive.ratio_same_side, H.
Qed.

(** C4. After a successful estimation the stored [scale_x] (and
    [scale_y]) is the median of the ratios [physical / logical] over
    exactly the points with a nonzero logical coordinate on that axis,
    rounded to 6 decimal places; the model returned is the one persisted. *)
Theorem stored_scale_is_rounded_median (now : datetime)
    (points : list CalibrationPoint) (st st' : store) (s : State) :
  compute_calibration now points st = (Ok s, st') ->
  exists mx my : float,
    is_median (ratios physical_x logical_x points) mx /\
    is_median (ratios physical_y logical_y points) my /\
    scale_x s = Some (Py.round_nd mx 6) /\
    scale_y s = Some (Py.round_nd my 6) /\
    st' = Some s.
Proof.
  intros H.
  destruct (Estimation.compute_calibration_Ok _ _ _ _ _ H)
    as (mx & my & _ & Hx & Hy & Sx & Sy & Hst).
  exists mx, my.
  split; [apply PyFacts.median_is_median, Hx |].
  split; [apply PyFacts.median_is_median, Hy |].
  repeat split; assumption.
Qed.

(** ** Conversion *)

Module Conversion.
Import B64 RneFacts Pow2 FlFacts PyFacts.
Local Open Scope Q_scope.

Lemma check_Raise (e e' : exn) (v : Q) : Py.check e v = Raise e' -> e' = e.
Proof. unfold Py.check. destruct (finiteb v); congruence. Qed.

Ltac raised E :=
  rewrite bind_Raise; apply check_Raise in E; subst;
  let H := fresh in intros H; injection H as <-; auto.

Lemma to_logical_raises (x o : Z) (scale : option float) (e : exn) :
  to_logical x o scale = Raise e -> arithmetic e.
Proof.
  unfold to_logical, arithmetic. destruct scale as [s |]; cbn [number].
  - rewrite bind_Ok, float_of_int_eq.
    destruct (Py.check OverflowError _) as [d | e1] eqn:E1; [clear E1 | raised E1].
    rewrite bind_Ok.
    destruct (Qeq_bool s 0) eqn:E0.
    + rewrite fdiv_zero by exact E0. rewrite bind_Raise. intros H.
      injection H as <-. auto.
    + rewrite fdiv_eq by exact E0.
      destruct (Py.check NonFinite _) as [q | e2] eqn:E2; [clear E2 | raised E2].
      rewrite bind_Ok. discriminate.
  - rewrite bind_Raise. intros H. injection H as <-. auto.
Qed.

Lemma to_physical_raises (x o : Z) (scale : option float) (e : exn) :
  to_physical x o scale = Raise e -> arithmetic e.
Proof.
  unfold to_physical, arithmetic. destruct scale as [s |]; cbn [number].
  - rewrite bind_Ok, float_of_int_eq.
    destruct (Py.check OverflowError _) as [l | e1] eqn:E1; [clear E1 | raised E1].
    rewrite bind_Ok, fmul_eq.
    destruct (Py.check NonFinite _) as [m | e2] eqn:E2; [clear E2 | raised E2].
    rewrite bind_Ok, float_of_int_eq.
    destruct (Py.check OverflowError _) as [f | e3] eqn:E3; [clear E3 | raised E3].
    rewrite bind_Ok, fadd_eq.
    destruct (Py.check NonFinite _) as [a | e4] eqn:E4; [clear E4 | raised E4].
    rewrite bind_Ok. discriminate.
  - rewrite bind_Raise. intros H. injection H as <-. auto.
Qed.

Lemma arithmetic_not_NotCalibrated : ~ arithmetic NotCalibrated.
Proof. intros [H | [H | [H | H]]]; discriminate H. Qed.

Lemma scale_nonzero (s : float) : 2 ^ (-20) <= Qabs s -> Qeq_bool s 0 = false.
Proof.
  intros H. destruct (Qeq_bool s 0) eqn:E; [| reflexivity].
  apply Qeq_bool_iff in E. rewrite E in H. pose proof (pow2_pos (-20)).
  change (Qabs 0) with 0 in H. lra.
Qed.

Lemma Z_abs_le_pow2 (z k : Z) :
  (0 <= k)%Z -> (Z.abs z <= 2 ^ k)%Z -> Qabs (inject_Z z) <= 2 ^ k.
Proof.
  intros Hk H. rewrite Qabs_inject_Z, pow2_Z by exact Hk.
  rewrite <- Zle_Qle. exact H.
Qed.

(** The conversion to logical returns when the difference fits 64 bits
    and the scale is at least [2 ^ -20] in magnitude. *)
Lemma to_logical_ok (x o : Z) (s : float) :
  (Z.abs (x - o) <= 2 ^ 64)%Z -> 2 ^ (-20) <= Qabs s ->
  to_logical x o (Some s) = Ok (rne (fl (fl (inject_Z (x - o)) / s))).
Proof.
  intros Hd Hs. unfold to_logical. cbn [number].
  pose proof (Z_abs_le_pow2 _ 64 ltac:(lia) Hd) as Bd.
  destruct (check_fl OverflowError _ 64 Bd) as [E1 B1]; [unfold emin, emax; lia |].
  rewrite bind_Ok, float_of_int_eq, E1, bind_Ok.
  rewrite fdiv_eq by (apply scale_nonzero, Hs).
  assert (Hq : Qabs (fl (inject_Z (x - o)) / s) <= 2 ^ 84).
  { pose proof (Qabs_div_le _ _ _ _ B1 (pow2_pos (-20)) Hs) as H.
    assert (E : 2 ^ 64 / 2 ^ (-20) == 2 ^ 84) by reflexivity. lra. }
  destruct (check_fl NonFinite _ 84 Hq) as [E2 _]; [unfold emin, emax; lia |].
  rewrite E2, bind_Ok. reflexivity.
Qed.

Lemma pixel_diff (x o : Z) : pixel x -> pixel o -> (Z.abs (x - o) <= 2 ^ 32)%Z.
Proof. unfold pixel. change (2 ^ 32)%Z with (2 * 2 ^ 31)%Z. lia. Qed.

Lemma to_logical_pixel (x o : Z) (s : float) :
  pixel x -> pixel o -> 2 ^ (-20) <= Qabs s ->
  to_logical x o (Some s) = Ok (rne (fl (inject_Z (x - o) / s))).
Proof.
  intros Hx Ho Hs. pose proof (pixel_diff x o Hx Ho) as Hd.
  rewrite to_logical_ok; [| | exact Hs].
  - f_equal. f_equal. apply fl_Qeq, Qdiv_Qeq, fl_Z.
    unfold prec. assert (2 ^ 32 < 2 ^ 53)%Z by (apply Z.pow_lt_mono_r; lia). lia.
  - assert (2 ^ 32 <= 2 ^ 64)%Z by (apply Z.pow_le_mono_r; lia). lia.
Qed.

Lemma to_physical_pixel (x o : Z) (s : float) :
  pixel x -> pixel o -> Qabs s <= 2 ^ 31 ->
  to_physical x o (Some s) = Ok (rne (fl (fl (inject_Z x * s) + inject_Z o))).
Proof.
  intros Hx Ho Hs. unfold to_physical. cbn [number].
  destruct (Estimation.float_of_int_pixel _ Hx) as [Ex' Ex].
  destruct (Estimation.float_of_int_pixel _ Ho) as [Eo' Eo].
  pose proof (Estimation.pixel_abs _ Hx) as Bx.
  pose proof (Estimation.pixel_abs _ Ho) as Bo.
  assert (Em : fl (fl (inject_Z x) * s) = fl (inject_Z x * s)).
  { apply fl_Qeq. rewrite Ex. reflexivity. }
  assert (Hm : Qabs (inject_Z x * s) <= 2 ^ 62).
  { rewrite Qabs_Qmult. change (2 ^ 62) with (2 ^ 31 * 2 ^ 31).
    pose proof (Qabs_nonneg (inject_Z x)). pose proof (Qabs_nonneg s). nra. }
  destruct (check_fl NonFinite _ 62 Hm) as [E1 B1]; [unfold emin, emax; lia |].
  rewrite bind_Ok, Ex', bind_Ok, fmul_eq, Em, E1, bind_Ok, Eo', bind_Ok, fadd_eq.
  assert (Ea : fl (fl (inject_Z x * s) + fl (inject_Z o))
               = fl (fl (inject_Z x * s) + inject_Z o)).
  { apply fl_Qeq. rewrite Eo. reflexivity. }
  assert (Ha : Qabs (fl (inject_Z x * s) + inject_Z o) <= 2 ^ 63).
  { apply Qabs_Qle_condition in Bo. apply Qabs_Qle_condition in B1.
    apply Qabs_Qle_condition.
    assert (E63 : 2 ^ 63 == 2 * 2 ^ 62) by reflexivity.
    assert (E62 : 2 ^ 31 <= 2 ^ 62) by (apply pow2_le; lia).
    lra. }
  destruct (check_fl NonFinite _ 63 Ha) as [E2 _]; [unfold emin, emax; lia |].
  rewrite Ea, E2, bind_Ok. reflexivity.
Qed.

(** *** The round trip on one axis *)

Lemma fl_rel_bound (x B : Q) :
  - B <= x -> x <= B ->
  fl x - x <= (1 # 9007199254740992) * B + eta /\
  x - fl x <= (1 # 9007199254740992) * B + eta.
Proof.
  intros H1 H2. destruct (fl_rel x) as [E1 E2].
  assert (Ha : Qabs x <= B) by (apply Qabs_Qle_condition; split; assumption).
  change u with (1 # 9007199254740992) in E1, E2.
  split; lra.
Qed.

Lemma eta_small : 0 < eta /\ eta <= 1 # 1000000000000.
Proof. split; [apply pow2_pos | vm_compute; discriminate]. Qed.

(** Dividing by a scale of at least one half at most doubles an error. *)
Lemma div_error (q L s c K X : Q) :
  1 # 2 <= s -> q * s == c -> 0 <= K -> 0 <= X ->
  c - L * s <= K + s * X -> L * s - c <= K + s * X ->
  q - L <= 2 * K + X /\ L - q <= 2 * K + X.
Proof.
  intros Hs E HK HX H1 H2. split; apply Qnot_lt_le; intros Hlt; nra.
Qed.

Lemma round_trip_analysis (l o p l' : Z) (s a1 b1 c1 q1 : Q) :
  pixel l -> pixel o -> 1 # 2 <= s -> s <= 2 ^ 31 ->
  a1 = fl (inject_Z l * s) ->
  b1 = fl (a1 + inject_Z o) ->
  p = rne b1 ->
  c1 = fl (inject_Z (p - o)) ->
  q1 = fl (c1 / s) ->
  l' = rne q1 ->
  (Z.abs (p - o) <= 2 ^ 64)%Z /\ (Z.abs (l' - l) <= 1)%Z.
Proof.
  intros Hl Ho Hs1 Hs2 Ea Eb Ep Ec Eq1 El'.
  pose proof (Estimation.pixel_abs _ Hl) as BL.
  pose proof (Estimation.pixel_abs _ Ho) as BO.
  apply Qabs_Qle_condition in BL. apply Qabs_Qle_condition in BO.
  assert (E31 : 2 ^ 31 == 2147483648 # 1) by reflexivity.
  rewrite E31 in BL, BO, Hs2. clear E31.
  destruct eta_small as [He0 He1].
  assert (ED : inject_Z (p - o) == inject_Z p - inject_Z o).
  { unfold Z.sub. rewrite inject_Z_plus, inject_Z_opp. reflexivity. }
  assert (EL : inject_Z (l' - l) == inject_Z l' - inject_Z l).
  { unfold Z.sub. rewrite inject_Z_plus, inject_Z_opp. reflexivity. }
  assert (EL2 : inject_Z (l - l') == inject_Z l - inject_Z l').
  { unfold Z.sub. rewrite inject_Z_plus, inject_Z_opp. reflexivity. }
  remember (inject_Z l) as L eqn:EqL. remember (inject_Z o) as O eqn:EqO.
  remember (inject_Z (p - o)) as D eqn:EqD.
  remember (L * s) as A eqn:EA.
  assert (BA : - ((2147483648 # 1) * s) <= A /\ A <= (2147483648 # 1) * s)
    by (subst A; split; nra).
  destruct (fl_rel_bound A _ (proj1 BA) (proj2 BA)) as [Ea1 Ea2].
  rewrite <- Ea in Ea1, Ea2.
  assert (Bb1 : - ((2147483649 # 1) * s + (2147483649 # 1)) <= a1 + O /\
                a1 + O <= (2147483649 # 1) * s + (2147483649 # 1))
    by (split; lra).
  destruct (fl_rel_bound (a1 + O) _ (proj1 Bb1) (proj2 Bb1)) as [Eb1 Eb2].
  rewrite <- Eb in Eb1, Eb2.
  destruct (rne_bounds b1) as [Ep1 Ep2]. rewrite <- Ep in Ep1, Ep2.
  assert (BD1 : - ((2147483649 # 1) * s + 1) <= D /\ D <= (2147483649 # 1) * s + 1)
    by (split; lra).
  destruct (fl_rel_bound D _ (proj1 BD1) (proj2 BD1)) as [Ec1 Ec2].
  rewrite <- Ec in Ec1, Ec2.
  assert (Eq : c1 / s * s == c1) by (field; lra).
  remember (c1 / s) as q eqn:Eqq.
  assert (Hc : c1 - L * s <= ((1 # 2) + (1 # 1000)) + s * (1 # 1000) /\
               L * s - c1 <= ((1 # 2) + (1 # 1000)) + s * (1 # 1000))
    by (rewrite <- EA; split; lra).
  destruct (div_error q L s c1 ((1 # 2) + (1 # 1000)) (1 # 1000) Hs1 Eq
              ltac:(lra) ltac:(lra) (proj1 Hc) (proj2 Hc)) as [Hq1 Hq2].
  assert (Bq : - ((2147483648 # 1) + 2) <= q /\ q <= (2147483648 # 1) + 2)
    by (split; lra).
  destruct (fl_rel_bound q _ (proj1 Bq) (proj2 Bq)) as [Ef1 Ef2].
  rewrite <- Eq1 in Ef1, Ef2.
  destruct (rne_bounds q1) as [Er1 Er2]. rewrite <- El' in Er1, Er2.
  split.
  - rewrite Zle_Qle, <- Qabs_inject_Z, <- EqD. apply Qabs_Qle_condition.
    change (inject_Z (2 ^ 64)) with (18446744073709551616 # 1).
    split; lra.
  - assert (Hz1 : (l' - l < 2)%Z).
    { rewrite Zlt_Qlt, EL. change (inject_Z 2) with 2. lra. }
    assert (Hz2 : (l - l' < 2)%Z).
    { rewrite Zlt_Qlt, EL2. change (inject_Z 2) with 2. lra. }
    lia.
Qed.

(** Logical to physical and back, on one axis: within one unit when the
    scale is at least one half. *)
Lemma axis_round_trip (l o : Z) (s : float) :
  pixel l -> pixel o -> 1 # 2 <= s -> s <= 2 ^ 31 ->
  exists p l' : Z,
    to_physical l o (Some s) = Ok p /\
    to_logical p o (Some s) = Ok l' /\
    (Z.abs (l' - l) <= 1)%Z.
Proof.
  intros Hl Ho Hs1 Hs2.
  assert (Habs : Qabs s == s) by (apply Qabs_pos; lra).
  assert (Hlo : 2 ^ (-20) <= Qabs s).
  { rewrite Habs. assert (2 ^ (-20) <= 1 # 2) by (vm_compute; discriminate). lra. }
  assert (Hhi : Qabs s <= 2 ^ 31) by (rewrite Habs; exact Hs2).
  destruct (round_trip_analysis l o _ _ s _ _ _ _ Hl Ho Hs1 Hs2
              eq_refl eq_refl eq_refl eq_refl eq_refl eq_refl) as [Hd Hr].
  eexists. eexists.
  split; [apply (to_physical_pixel l o s Hl Ho Hhi) |].
  split; [| exact Hr].
  apply (to_logical_ok _ o s Hd Hlo).
Qed.

End Conversion.

(** C7, as amended. Each conversion fails with NotCalibrated exactly when
    the loaded record has [calibrated == false].  When it is calibrated,
    its scales are in range, and offsets and inputs are pixel coordinates,
    the conversion returns, per axis, [round((physical - offset) / scale)]
    to logical and [round(logical * scale + offset)] to physical, with the
    stored scale and offset of that axis, and leaves the record alone. *)
Theorem conversions (st : store) (x y : Z) :
  (fst (physical_to_logical x y st) = Raise NotCalibrated <->
   calibrated (loaded st) = false) /\
  (fst (logical_to_physical x y st) = Raise NotCalibrated <->
   calibrated (loaded st) = false) /\
  forall sx sy : float,
    calibrated (loaded st) = true ->
    scale_x (loaded st) = Some sx -> scale_y (loaded st) = Some sy ->
    scale_in_range sx -> scale_in_range sy ->
    pixel (offset_x (loaded st)) -> pixel (offset_y (loaded st)) ->
    pixel x -> pixel y ->
    physical_to_logical x y st
    = (Ok (B64.rne (B64.fl (inject_Z (x - offset_x (loaded st)) / sx)),
           B64.rne (B64.fl (inject_Z (y - offset_y (loaded st)) / sy))), st) /\
    logical_to_physical x y st
    = (Ok (B64.rne (B64.fl (B64.fl (inject_Z x * sx)
                            + inject_Z (offset_x (loaded st)))),
           B64.rne (B64.fl (B64.fl (inject_Z y * sy)
                            + inject_Z (offset_y (loaded st))))), st).
Proof.
  unfold physical_to_logical, logical_to_physical. rewrite !bindM_load.
  destruct (calibrated (loaded st)) eqn:Hc; cbn [negb].
  - split; [| split].
    + split; [| discriminate]. intros H. exfalso.
      rewrite bindM_lift in H.
      destruct (to_logical x _ _) as [lx |] eqn:Ex.
      * rewrite bindM_lift in H.
        destruct (to_logical y _ _) as [ly |] eqn:Ey; cbn [fst] in H.
        -- discriminate H.
        -- injection H as ->. apply Conversion.to_logical_raises in Ey.
           exact (Conversion.arithmetic_not_NotCalibrated Ey).
      * cbn [fst] in H. injection H as ->.
        apply Conversion.to_logical_raises in Ex.
        exact (Conversion.arithmetic_not_NotCalibrated Ex).
    + split; [| discriminate]. intros H. exfalso.
      rewrite bindM_lift in H.
      destruct (to_physical x _ _) as [px |] eqn:Ex.
      * rewrite bindM_lift in H.
        destruct (to_physical y _ _) as [py |] eqn:Ey; cbn [fst] in H.
        -- discriminate H.
        -- injection H as ->. apply Conversion.to_physical_raises in Ey.
           exact (Conversion.arithmetic_not_NotCalibrated Ey).
      * cbn [fst] in H. injection H as ->.
        apply Conversion.to_physical_raises in Ex.
        exact (Conversion.arithmetic_not_NotCalibrated Ex).
    + intros sx sy _ Sx Sy [Lx Ux] [Ly Uy] Ox Oy Px Py. rewrite Sx, Sy.
      rewrite !bindM_lift.
      rewrite (Conversion.to_logical_pixel x _ sx Px Ox Lx).
      rewrite (Conversion.to_physical_pixel x _ sx Px Ox Ux).
      rewrite !bindM_lift.
      rewrite (Conversion.to_logical_pixel y _ sy Py Oy Ly).
      rewrite (Conversion.to_physical_pixel y _ sy Py Oy Uy).
      split; reflexivity.
  - split; [| split].
    + split; reflexivity.
    + split; reflexivity.
    + intros sx sy H. discriminate H.
Qed.

(** C2, as amended. For a calibrated record whose scales are between
    0.5 and [2 ^ 31] and whose offsets are pixel coordinates, and for pixel
    coordinates [(lx, ly)], converting logical to physical and back
    returns coordinates within 1 unit of [(lx, ly)] on each axis. *)
Theorem round_trip_bound (st : store) (lx ly : Z) (sx sy : float) :
  calibrated (loaded st) = true ->
  scale_x (loaded st) = Some sx -> scale_y (loaded st) = Some sy ->
  (1 # 2 <= sx <= 2 ^ 31)%Q -> (1 # 2 <= sy <= 2 ^ 31)%Q ->
  pixel (offset_x (loaded st)) -> pixel (offset_y (loaded st)) ->
  pixel lx -> pixel ly ->
  round_trip_within_1 st lx ly.
Proof.
  intros Hc Sx Sy [Lx Ux] [Ly Uy] Ox Oy Px Py.
  destruct (Conversion.axis_round_trip lx _ sx Px Ox Lx Ux)
    as (px & lx' & Ex1 & Ex2 & Hx).
  destruct (Conversion.axis_round_trip ly _ sy Py Oy Ly Uy)
    as (py & ly' & Ey1 & Ey2 & Hy).
  exists px, py, lx', ly', st, st.
  unfold logical_to_physical, physical_to_logical.
  rewrite !bindM_load, Hc, Sx, Sy. cbn [negb].
  rewrite !bindM_lift, Ex1, Ex2. rewrite !bindM_lift, Ey1, Ey2.
  repeat split; assumption.
Qed.

(** ** The example of the specification *)

(** C3, as amended. On the two points of the specification's example the
    ratios are 1.0 and 2.0: estimation succeeds with both scales 1.5, zero
    offsets, a spread of 0.6667 and [consistent == false]. *)
Theorem spec_points_estimate (now : datetime) (st : store) :
  compute_calibration now spec_points st
  = (Ok (spec_points_model now), Some (spec_points_model now)).
Proof. vm_compute. reflexivity. Qed.

(** C3, as stated, fails: the scales are not 1.0 and the points are not
    consistent. *)
Lemma spec_points_not_unit_scale : ~ unit_scale_claim 0 None.
Proof.
  intros (s & st' & qx & qy & H & Hx & Ex & _).
  rewrite spec_points_estimate in H. injection H as <- _.
  simpl in Hx. injection Hx as <-. discriminate Ex.
Qed.

(** ** Inputs on which a claim fails *)

Lemma thirds_estimate :
  compute_calibration 0 thirds None = (Ok thirds_model, Some thirds_model).
Proof. vm_compute. reflexivity. Qed.

Lemma thirds_median :
  statistics.median (ratios physical_x logical_x thirds) = Ok third.
Proof. vm_compute. reflexivity. Qed.

(** C4, as stated, fails: on two points of ratio 1/3 the median is the
    float 1/3 and the stored scale is 0.333333. *)
Lemma stored_scale_not_median :
  ~ (forall s st',
       compute_calibration 0 thirds None = (Ok s, st') ->
       exists m q,
         statistics.median (ratios physical_x logical_x thirds) = Ok m /\
         scale_x s = Some q /\ (q == m)%Q).
Proof.
  intros H.
  destruct (H _ _ thirds_estimate) as (m & q & Hm & Hq & E).
  rewrite thirds_median in Hm.
  assert (Em : m = third) by congruence.
  assert (Eq : q = B64.fl (333333 # 1000000)).
  { cbn [scale_x thirds_model] in Hq. congruence. }
  subst m q. revert E. vm_compute. discriminate.
Qed.

(** C5, as stated, fails: two points, ratios on both axes, and the
    estimation raises [OverflowError] on [10 ** 400 / 1]. *)
Lemma estimate_beyond_float :
  (2 <= List.length beyond_float)%nat /\
  ratios physical_x logical_x beyond_float <> [] /\
  ratios physical_y logical_y beyond_float <> [] /\
  compute_calibration 0 beyond_float None = (Raise OverflowError, None).
Proof.
  split; [simpl; lia |]. split; [discriminate |]. split; [discriminate |].
  vm_compute. reflexivity.
Qed.

(** C9, as stated, fails: two landmarks at the physical origin, logical
    coordinates nonzero, and the estimated scales are 0. *)
Lemma estimate_at_origin :
  Forall (fun p => logical_x p <> 0 /\ logical_y p <> 0) at_origin /\
  exists s,
    compute_calibration 0 at_origin None = (Ok s, Some s) /\
    scale_x s = Some 0%Q /\ scale_y s = Some 0%Q.
Proof.
  split.
  - repeat constructor; discriminate.
  - eexists. split; [vm_compute; reflexivity |]. split; reflexivity.
Qed.

(** C7, as stated, fails: the record estimated at the origin is calibrated
    with scale 0, and the conversion to logical raises
    [ZeroDivisionError]. *)
Lemma to_logical_zero_scale :
  calibrated (loaded origin_store) = true /\
  physical_to_logical 5 5 origin_store = (Raise ZeroDivisionError, origin_store).
Proof. split; vm_compute; reflexivity. Qed.

(** C2, as stated, fails: with the estimated scale 1/8 the logical point
    (3, 3) goes to the physical (0, 0) and comes back as (0, 0). *)
Lemma round_trip_eighths :
  calibrated (loaded eighths_store) = true /\
  ~ round_trip_within_1 eighths_store 3 3.
Proof.
  split; [vm_compute; reflexivity |].
  intros (px & py & lx' & ly' & st1 & st2 & H1 & H2 & H3 & _).
  vm_compute in H1. injection H1 as <- <- <-.
  vm_compute in H2. injection H2 as <- _ _.
  vm_compute in H3. apply H3. reflexivity.
Qed.

Lemma stored_scale_is_rounded_median_witness :
  exists mx my : float,
    is_median (ratios physical_x logical_x thirds) mx /\
    is_median (ratios physical_y logical_y thirds) my /\
    scale_x thirds_model = Some (Py.round_nd mx 6) /\
    scale_y thirds_model = Some (Py.round_nd my 6) /\
    Some thirds_model = Some thirds_model.
Proof.
  exact (stored_scale_is_rounded_median 0 thirds None (Some thirds_model)
           thirds_model thirds_estimate).
Defined.

Lemma reachable_timestamped_witness :
  timestamped (loaded calibrated_once) /\
  forall now : datetime,
    exists h : Health, check_calibration now calibrated_once = (Ok h, calibrated_once).
Proof.
  apply (reachable_timestamped calibrated_once).
  apply (reach_compute 1700000000000000 landmarks None
           (fst (compute_calibration 1700000000000000 landmarks None))
           calibrated_once reach_init).
  apply surjective_pairing.
Defined.

Lemma landmarks_pixel : Forall pixel_point landmarks.
Proof. repeat constructor; unfold pixel; simpl; lia. Qed.

Lemma landmarks_aligned : Forall aligned landmarks.
Proof. repeat constructor; simpl; lia. Qed.

Lemma estimation_outcomes_witness :
  (fst (compute_calibration 0 landmarks None) = Raise InsufficientSamples <->
   (List.length landmarks < 2)%nat) /\
  ((2 <= List.length landmarks)%nat ->
   (fst (compute_calibration 0 landmarks None) = Raise DegenerateInput <->
    Forall (fun p => logical_x p = 0) landmarks \/
    Forall (fun p => logical_y p = 0) landmarks)) /\
  ((2 <= List.length landmarks)%nat ->
   ~ Forall (fun p => logical_x p = 0) landmarks ->
   ~ Forall (fun p => logical_y p = 0) landmarks ->
   exists s : State, compute_calibration 0 landmarks None = (Ok s, Some s)).
Proof.
  apply (estimation_outcomes 0 landmarks None).
  repeat constructor; unfold pixel; simpl; lia.
Defined.

Lemma positive_scales_witness :
  exists (s : State) (qx qy : float),
    compute_calibration 0 landmarks None = (Ok s, Some s) /\
    scale_x s = Some qx /\ scale_y s = Some qy /\
    (0 < qx)%Q /\ (0 < qy)%Q.
Proof.
  apply (positive_scales 0 landmarks None).
  - simpl. lia.
  - repeat constructor; unfold pixel; simpl; lia.
  - repeat constructor; simpl; lia.
Defined.

Lemma calibrated_once_record :
  calibrated (loaded calibrated_once) = true /\
  scale_x (loaded calibrated_once) = Some (5 # 4)%Q /\
  scale_y (loaded calibrated_once) = Some (5 # 4)%Q /\
  offset_x (loaded calibrated_once) = 0 /\
  offset_y (loaded calibrated_once) = 0.
Proof. repeat split; vm_compute; reflexivity. Qed.

Lemma conversions_witness :
  physical_to_logical 1910 1070 calibrated_once
  = (Ok (B64.rne (B64.fl (inject_Z (1910 - offset_x (loaded calibrated_once))
                          / (5 # 4))),
         B64.rne (B64.fl (inject_Z (1070 - offset_y (loaded calibrated_once))
                          / (5 # 4)))), calibrated_once) /\
  logical_to_physical 1910 1070 calibrated_once
  = (Ok (B64.rne (B64.fl (B64.fl (inject_Z 1910 * (5 # 4))
                          + inject_Z (offset_x (loaded calibrated_once)))),
         B64.rne (B64.fl (B64.fl (inject_Z 1070 * (5 # 4))
                          + inject_Z (offset_y (loaded calibrated_once))))),
     calibrated_once).
Proof.
  apply (proj2 (proj2 (conversions calibrated_once 1910 1070)) (5 # 4)%Q (5 # 4)%Q).
  - vm_compute. reflexivity.
  - vm_compute. reflexivity.
  - vm_compute. reflexivity.
  - split; vm_compute; discriminate.
  - split; vm_compute; discriminate.
  - vm_compute. discriminate.
  - vm_compute. discriminate.
  - vm_compute. discriminate.
  - vm_compute. discriminate.
Defined.

Lemma round_trip_bound_witness : round_trip_within_1 calibrated_once 1528 856.
Proof.
  apply (round_trip_bound calibrated_once 1528 856 (5 # 4)%Q (5 # 4)%Q).
  - vm_compute. reflexivity.
  - vm_compute. reflexivity.
  - vm_compute. reflexivity.
  - split; vm_compute; discriminate.
  - split; vm_compute; discriminate.
  - vm_compute. discriminate.
  - vm_compute. discriminate.
  - vm_compute. discriminate.
  - vm_compute. discriminate.
Defined.

(** ** The life of a record *)

(** The classifier on a calibrated record with its time of calibration. *)
Lemma check_calibration_timed (now : datetime) (st : store) (t : datetime) :
  calibrated (loaded st) = true -> calibrated_at (loaded st) = Some t ->
  check_calibration now st =
  (Ok (if timedelta_days 7 <? now - t then
         {| status := "stale"; msg := CalibrationIsDaysOld (days (now - t));
            scales := Some (scale_x (loaded st), scale_y (loaded st));
            action_needed := true |}
       else if negb (verified (loaded st)) then
         {| status := "unverified"; msg := ComputedButNotVerified;
            scales := Some (scale_x (loaded st), scale_y (loaded st));
            action_needed := true |}
       else if negb (default_true (consistent (loaded st))) then
         {| status := "inconsistent";
            msg := PointsDisagree (spread_x (loaded st)) (spread_y (loaded st));
            scales := Some (scale_x (loaded st), scale_y (loaded st));
            action_needed := true |}
       else
         {| status := "ok";
            msg := CalibrationValid (scale_x (loaded st)) (scale_y (loaded st));
            scales := Some (scale_x (loaded st), scale_y (loaded st));
            action_needed := false |}), st).
Proof.
  intros Hc Ht. unfold check_calibration. rewrite bindM_load, Hc, Ht.
  cbn [negb]. cbv beta iota.
  destruct (timedelta_days 7 <? now - t); [reflexivity |].
  destruct (verified (loaded st)); cbn [negb]; [| reflexivity].
  destruct (consistent (loaded st)) as [[|] |]; reflexivity.
Qed.

Lemma check_calibration_missing (now : datetime) (st : store) :
  calibrated (loaded st) = false ->
  check_calibration now st =
  (Ok {| status := "missing"; msg := NoCalibrationData;
         scales := None; action_needed := true |}, st).
Proof.
  intros Hc. unfold check_calibration. rewrite bindM_load, Hc. reflexivity.
Qed.

(** The estimation never reads the stored record: its outcome, and the
    record it leaves when it returns, are the same whatever was stored. *)
Theorem estimate_ignores_store (now : datetime) (pts : list CalibrationPoint)
    (st1 st2 : store) :
  fst (compute_calibration now pts st1) = fst (compute_calibration now pts st2) /\
  forall s : State,
    fst (compute_calibration now pts st1) = Ok s ->
    snd (compute_calibration now pts st1) = Some s /\
    snd (compute_calibration now pts st2) = Some s.
Proof.
  unfold compute_calibration.
  destruct (List.length pts <? 2)%nat; [split; [reflexivity | discriminate] |].
  rewrite !bindM_lift.
  destruct (scales_loop pts [] []) as [[scales_x scales_y] | e];
    [| split; [reflexivity | discriminate]].
  destruct (is_empty scales_x || is_empty scales_y);
    [split; [reflexivity | discriminate] |].
  repeat (rewrite !bindM_lift;
          match goal with
          | |- context [match ?r with Ok _ => _ | Raise _ => _ end] =>
            destruct r; [| split; [reflexivity | discriminate]]
          end).
  unfold bindM, save_state, ret. cbn [fst snd].
  match goal with
  | |- Ok ?r = _ /\ _ => generalize r
  end.
  intros r. split; [reflexivity |].
  intros s H. injection H as <-. split; reflexivity.
Qed.

Lemma check_calibration_reads (now : datetime) (st : store) :
  snd (check_calibration now st) = st.
Proof.
  unfold check_calibration. rewrite bindM_load.
  destruct (calibrated (loaded st)); cbn [negb]; [| reflexivity].
  destruct (calibrated_at (loaded st)) as [t |]; cbv beta iota.
  - destruct (timedelta_days 7 <? now - t); [reflexivity |].
    destruct (negb (verified (loaded st))); [reflexivity |].
    destruct (negb _); reflexivity.
  - reflexivity.
Qed.

Lemma physical_to_logical_reads (x y : Z) (st : store) :
  snd (physical_to_logical x y st) = st.
Proof.
  unfold physical_to_logical. rewrite bindM_load.
  destruct (negb (calibrated (loaded st))); [reflexivity |].
  rewrite bindM_lift. destruct (to_logical x _ _); [| reflexivity].
  rewrite bindM_lift. destruct (to_logical y _ _); reflexivity.
Qed.

Lemma logical_to_physical_reads (x y : Z) (st : store) :
  snd (logical_to_physical x y st) = st.
Proof.
  unfold logical_to_physical. rewrite bindM_load.
  destruct (negb (calibrated (loaded st))); [reflexivity |].
  rewrite bindM_lift. destruct (to_physical x _ _); [| reflexivity].
  rewrite bindM_lift. destruct (to_physical y _ _); reflexivity.
Qed.

(** The classifier and the two conversions only read the record: whether
    they return or raise, the store is the one they found. *)
Theorem readers_keep_store (now : datetime) (x y : Z) (st : store) :
  snd (check_calibration now st) = st /\
  snd (physical_to_logical x y st) = st /\
  snd (logical_to_physical x y st) = st.
Proof.
  split; [apply check_calibration_reads |].
  split; [apply physical_to_logical_reads | apply logical_to_physical_reads].
Qed.

(** After an estimation that returned, whatever was stored and verified
    before, the classifier reports "unverified" for the first seven days
    and "stale" after them, with the scales of the new model. *)
Theorem estimate_then_check (t now : datetime) (pts : list CalibrationPoint)
    (st st1 : store) (s : State) :
  compute_calibration t pts st = (Ok s, st1) ->
  check_calibration now st1 =
  (Ok (if timedelta_days 7 <? now - t then
         {| status := "stale"; msg := CalibrationIsDaysOld (days (now - t));
            scales := Some (scale_x s, scale_y s); action_needed := true |}
       else
         {| status := "unverified"; msg := ComputedButNotVerified;
            scales := Some (scale_x s, scale_y s); action_needed := true |}),
   st1).
Proof.
  intros E. pose proof (compute_calibration_store t pts st) as H.
  rewrite E in H. destruct H as (-> & Hc & Ht & Hv & _).
  rewrite (check_calibration_timed now (Some s) t Hc Ht).
  cbn [loaded]. rewrite Hv. cbn [negb].
  destruct (timedelta_days 7 <? now - t); reflexivity.
Qed.

(** An estimation that returned, then a verification: the classifier
    reports "stale" once the estimation is more than seven days old,
    whenever the verification took place; before that "unverified" after a
    failed verification, and after a successful one "ok" or "inconsistent"
    as the estimation found the points. *)
Theorem verify_then_check (t t' now : datetime) (pts : list CalibrationPoint)
    (success : bool) (notes : string) (st st1 : store) (s : State) :
  compute_calibration t pts st = (Ok s, st1) ->
  exists (s' : State) (h : Health),
    mark_verified t' success notes st1 = (Ok s', Some s') /\
    check_calibration now (Some s') = (Ok h, Some s') /\
    status h =
      (if (timedelta_days 7 <? now - t)%Z then "stale"
       else if negb success then "unverified"
       else if negb (default_true (consistent s)) then "inconsistent"
       else "ok")%string /\
    scales h = Some (scale_x s, scale_y s).
Proof.
  intros E. pose proof (compute_calibration_store t pts st) as H.
  rewrite E in H. destruct H as (-> & Hc & Ht & _).
  rewrite mark_verified_eq. cbv zeta. cbn [loaded].
  eexists. eexists. split; [reflexivity |].
  rewrite (check_calibration_timed now _ t); [| exact Hc | exact Ht].
  cbn [loaded verified consistent scale_x scale_y spread_x spread_y].
  split; [reflexivity |].
  destruct (timedelta_days 7 <? now - t); [split; reflexivity |].
  destruct success; cbn [negb]; [| split; reflexivity].
  destruct (negb (default_true (consistent s))); split; reflexivity.
Qed.

(** Verification does not calibrate: on a record that is not calibrated,
    the absent one included, it writes a record that is still not
    calibrated, whatever [success] says; the classifier goes on reporting
    "missing" and the conversions go on raising NotCalibrated. *)
Theorem verify_without_calibration (t now : datetime) (success : bool)
    (notes : string) (x y : Z) (st : store) :
  calibrated (loaded st) = false ->
  exists s : State,
    mark_verified t success notes st = (Ok s, Some s) /\
    calibrated s = false /\ verified s = success /\
    (exists h : Health,
       check_calibration now (Some s) = (Ok h, Some s) /\
       status h = "missing"%string) /\
    physical_to_logical x y (Some s) = (Raise NotCalibrated, Some s) /\
    logical_to_physical x y (Some s) = (Raise NotCalibrated, Some s).
Proof.
  intros Hc. rewrite mark_verified_eq. cbv zeta.
  eexists. split; [reflexivity |].
  cbn [calibrated verified]. split; [exact Hc |]. split; [reflexivity |].
  split; [| split].
  - eexists. rewrite check_calibration_missing by exact Hc.
    split; reflexivity.
  - unfold physical_to_logical. rewrite bindM_load. cbn [loaded calibrated].
    rewrite Hc. reflexivity.
  - unfold logical_to_physical. rewrite bindM_load. cbn [loaded calibrated].
    rewrite Hc. reflexivity.
Qed.

(** Of two verifications in a row only the second leaves a trace: the
    record is the one the second alone would have written. *)
Theorem mark_verified_last_wins (t1 t2 : datetime) (b1 b2 : bool)
    (n1 n2 : string) (st : store) :
  snd (mark_verified t2 b2 n2 (snd (mark_verified t1 b1 n1 st)))
  = snd (mark_verified t2 b2 n2 st).
Proof. rewrite !mark_verified_eq. reflexivity. Qed.

(** ** The health report *)

(** On a record that is not calibrated, or has its time of calibration,
    the classifier returns the status of the priority order missing,
    stale, unverified, inconsistent, ok; it asks for action exactly when
    the status is not "ok", and reports the stored scales unless the
    calibration is missing. *)
Theorem check_calibration_verdict (now : datetime) (st : store) (t : datetime) :
  calibrated (loaded st) = false \/ calibrated_at (loaded st) = Some t ->
  exists h : Health,
    check_calibration now st = (Ok h, st) /\
    status h = status_of now (loaded st) t /\
    action_needed h = negb (String.eqb (status h) "ok") /\
    scales h = if calibrated (loaded st)
               then Some (scale_x (loaded st), scale_y (loaded st))
               else None.
Proof.
  intros H. unfold status_of.
  destruct (calibrated (loaded st)) eqn:Hc; cbn [negb].
  - destruct H as [H | Ht]; [discriminate H |].
    rewrite (check_calibration_timed now st t Hc Ht).
    eexists. split; [reflexivity |].
    destruct (timedelta_days 7 <? now - t); [repeat split |].
    destruct (verified (loaded st)); cbn [negb]; [| repeat split].
    destruct (negb (default_true (consistent (loaded st)))); repeat split.
  - rewrite (check_calibration_missing now st Hc).
    eexists. repeat split.
Qed.

(** The statuses the classifier can return, each with its request for
    action. *)
Lemma check_calibration_statuses (now : datetime) (st st' : store) (h : Health) :
  check_calibration now st = (Ok h, st') ->
  (action_needed h = true /\
   (status h = "missing" \/ status h = "stale" \/ status h = "unverified" \/
    status h = "inconsistent"))%string \/
  (action_needed h = false /\ status h = "ok"%string).
Proof.
  destruct (calibrated (loaded st)) eqn:Hc.
  - destruct (calibrated_at (loaded st)) as [t |] eqn:Ht.
    + rewrite (check_calibration_timed now st t Hc Ht). intros H.
      injection H as <- _.
      destruct (timedelta_days 7 <? now - t); [left; auto |].
      destruct (negb (verified (loaded st))); [left; auto |].
      destruct (negb (default_true (consistent (loaded st))));
        [left; auto 6 | right; auto].
    + unfold check_calibration. rewrite bindM_load, Hc, Ht. discriminate.
  - rewrite (check_calibration_missing now st Hc). intros H.
    injection H as <- _. left. auto.
Qed.

(** "stale" means more than seven days: the classifier returns it only on
    a record calibrated more than seven days before the call, and the age
    it reports is at least 7 whole days. *)
Theorem stale_reports_a_week (now : datetime) (st : store) (h : Health) :
  fst (check_calibration now st) = Ok h -> status h = "stale"%string ->
  exists t : datetime,
    calibrated_at (loaded st) = Some t /\
    timedelta_days 7 < now - t /\
    msg h = CalibrationIsDaysOld (days (now - t)) /\
    7 <= days (now - t).
Proof.
  destruct (calibrated (loaded st)) eqn:Hc.
  - destruct (calibrated_at (loaded st)) as [t |] eqn:Ht.
    + rewrite (check_calibration_timed now st t Hc Ht). cbn [fst].
      destruct (Z.ltb_spec (timedelta_days 7) (now - t)) as [Hlt | Hle].
      * intros H _. injection H as <-. exists t.
        split; [reflexivity |]. split; [exact Hlt |]. split; [reflexivity |].
        unfold days, timedelta_days, microseconds_per_day in *.
        apply Z.div_le_lower_bound; lia.
      * destruct (negb (verified (loaded st))).
        { intros H. injection H as <-. discriminate. }
        destruct (negb (default_true (consistent (loaded st))));
          intros H; injection H as <-; discriminate.
    + unfold check_calibration. rewrite bindM_load, Hc, Ht. discriminate.
  - rewrite (check_calibration_missing now st Hc). cbn [fst].
    intros H. injection H as <-. discriminate.
Qed.

Lemma run_all_checks_eq (now : datetime) (ps : powershell) (i : Install)
    (st : store) :
  run_all_checks now ps i st =
  match check_calibration now st with
  | (Ok h, st') =>
    let any_action := action_needed h || false || false in
    let any_error :=
      String.eqb (status h) "error"
      || String.eqb (ui_status (check_ui_automation ps)) "error"
      || String.eqb (mcp_status (check_windows_mcp i)) "error" in
    (Ok {| calibration := h;
           ui_automation := check_ui_automation ps;
           windows_mcp := check_windows_mcp i;
           overall := {|
             overall_status :=
               if any_error then "error"
               else if any_action then "action_needed" else "ok";
             overall_message :=
               if negb any_error && negb any_action then "All checks passed"
               else "Some checks need attention"
           |} |}, st')
  | (Raise e, st') => (Raise e, st')
  end.
Proof.
  unfold run_all_checks, bindM.
  destruct (check_calibration now st) as [[h | e] st']; reflexivity.
Qed.

Lemma run_all_checks_reads (now : datetime) (ps : powershell) (i : Install)
    (st : store) :
  snd (run_all_checks now ps i st) = st.
Proof.
  rewrite run_all_checks_eq.
  pose proof (check_calibration_reads now st) as H.
  destruct (check_calibration now st) as [[h | e] st']; exact H.
Qed.

Lemma overall_status_eq (now : datetime) (ps : powershell) (i : Install)
    (st st' : store) (c : Checks) :
  run_all_checks now ps i st = (Ok c, st') ->
  overall_status (overall c) =
    (if String.eqb (ui_status (ui_automation c)) "error"
        || String.eqb (mcp_status (windows_mcp c)) "error" then "error"
     else if String.eqb (status (calibration c)) "ok" then "ok"
     else "action_needed")%string /\
  (overall_message (overall c) = "All checks passed"%string <->
   overall_status (overall c) = "ok"%string).
Proof.
  rewrite run_all_checks_eq.
  destruct (check_calibration now st) as [[h | e] st0] eqn:E; [| discriminate].
  intros H. injection H as <- _.
  cbn [overall overall_status overall_message calibration ui_automation
       windows_mcp]. cbv zeta.
  destruct (check_calibration_statuses now st st0 h E)
    as [[-> [-> | [-> | [-> | ->]]]] | [-> ->]];
    cbn [String.eqb Ascii.eqb Bool.eqb orb andb negb];
    destruct (String.eqb (ui_status (check_ui_automation ps)) "error");
    destruct (String.eqb (mcp_status (check_windows_mcp i)) "error");
    cbn [orb andb negb]; (split; [reflexivity |]);
    split; (reflexivity || discriminate).
Qed.

(** The overall verdict of the report: "error" exactly when the UI
    Automation check or the windows-mcp check has status "error" (the
    calibration never counts as an error), otherwise "ok" exactly when the
    calibration is "ok", otherwise "action_needed"; and the message is
    "All checks passed" exactly when the verdict is "ok". *)
Theorem overall_verdict (now : datetime) (ps : powershell) (i : Install)
    (st st' : store) (c : Checks) :
  run_all_checks now ps i st = (Ok c, st') ->
  overall_status (overall c) =
    (if String.eqb (ui_status (ui_automation c)) "error"
        || String.eqb (mcp_status (windows_mcp c)) "error" then "error"
     else if String.eqb (status (calibration c)) "ok" then "ok"
     else "action_needed")%string /\
  (overall_message (overall c) = "All checks passed"%string <->
   overall_status (overall c) = "ok"%string).
Proof. apply overall_status_eq. Qed.

(** A windows-mcp that is not installed does not spoil the report: its
    check has status "missing", which is neither an error nor a request
    for action, so the verdict is "ok" exactly when the calibration is
    "ok" and PowerShell printed "OK". *)
Theorem missing_install_passes (now : datetime) (ps : powershell) (i : Install)
    (st st' : store) (c : Checks) :
  run_all_checks now ps i st = (Ok c, st') ->
  path_exists i = false ->
  mcp_status (windows_mcp c) = "missing"%string /\
  (overall_status (overall c) = "ok"%string <->
   status (calibration c) = "ok"%string /\
   exists output : string, ps = Stdout output /\ contains "OK" output = true).
Proof.
  intros E Hp. destruct (overall_status_eq now ps i st st' c E) as [-> _].
  rewrite run_all_checks_eq in E.
  destruct (check_calibration now st) as [[h | e] st0] eqn:Eh; [| discriminate].
  injection E as <- _.
  cbn [calibration ui_automation windows_mcp].
  unfold check_windows_mcp. rewrite Hp. cbn [negb mcp_status].
  split; [reflexivity |].
  cbn [String.eqb Ascii.eqb Bool.eqb]. rewrite orb_false_r.
  destruct ps as [output | | text]; cbn [check_ui_automation].
  - destruct (contains "OK" output) eqn:Ec; cbn [ui_status String.eqb Ascii.eqb Bool.eqb].
    + destruct (String.eqb_spec (status h) "ok") as [Es | Es].
      * split; [intros _ | reflexivity].
        split; [exact Es |]. exists output. split; [reflexivity | exact Ec].
      * split; [discriminate |]. intros [Hs _]. contradiction.
    + split; [discriminate |]. intros [_ (o & Ho & Hc)].
      injection Ho as <-. congruence.
  - cbn [ui_status String.eqb Ascii.eqb Bool.eqb].
    split; [discriminate |]. intros [_ (o & Ho & _)]. discriminate Ho.
  - cbn [ui_status].
    destruct (String.eqb "error" "error") eqn:Ee; [| discriminate Ee].
    split; [discriminate |]. intros [_ (o & Ho & _)]. discriminate Ho.
Qed.

(** The report raises exactly when the classifier does, that is on a
    calibrated record without its time of calibration, with
    [UnboundLocalError]; and it never writes the record. *)
Theorem run_all_checks_raises (now : datetime) (ps : powershell) (i : Install)
    (st : store) :
  (forall e : exn,
     fst (run_all_checks now ps i st) = Raise e <->
     e = UnboundLocalError /\
     calibrated (loaded st) = true /\ calibrated_at (loaded st) = None) /\
  snd (run_all_checks now ps i st) = st.
Proof.
  rewrite run_all_checks_eq.
  pose proof (check_calibration_reads now st) as Hs.
  destruct (calibrated (loaded st)) eqn:Hc.
  - destruct (calibrated_at (loaded st)) as [t |] eqn:Ht.
    + rewrite (check_calibration_timed now st t Hc Ht) in *.
      split; [| reflexivity]. intros e. split; [discriminate |].
      intros (_ & _ & H). discriminate H.
    + assert (E : check_calibration now st = (Raise UnboundLocalError, st)).
      { unfold check_calibration. rewrite bindM_load, Hc, Ht. reflexivity. }
      rewrite E. split; [| reflexivity]. intros e. cbn [fst]. split.
      * intros H. injection H as <-. repeat split.
      * intros (-> & _). reflexivity.
  - rewrite (check_calibration_missing now st Hc).
    split; [| reflexivity]. intros e. split; [discriminate |].
    intros (_ & H & _). discriminate H.
Qed.

(** ** The tools *)

(** A tool call that answers with an error has not touched the record. *)
Theorem failed_call_keeps_store (now : datetime) (ps : powershell) (i : Install)
    (r : request) (st st' : store) (e : exn) :
  call_tool now ps i r st = (Error e, st') -> st' = st.
Proof.
  destruct r as [pts | success notes | | x y from_sys to_sys |];
    unfold call_tool, catching.
  - pose proof (compute_calibration_store now pts st) as H.
    destruct (compute_calibration now pts st) as [[s | e0] st0].
    + discriminate.
    + intros E. injection E as _ <-. exact H.
  - rewrite mark_verified_eq. discriminate.
  - rewrite load_state_loaded. discriminate.
  - destruct (String.eqb from_sys to_sys); [discriminate |].
    destruct (String.eqb from_sys "physical" && String.eqb to_sys "logical").
    + pose proof (physical_to_logical_reads x y st) as H.
      destruct (physical_to_logical x y st) as [[[lx ly] | e0] st0].
      * discriminate.
      * intros E. injection E as _ <-. exact H.
    + pose proof (logical_to_physical_reads x y st) as H.
      destruct (logical_to_physical x y st) as [[[px py] | e0] st0].
      * discriminate.
      * intros E. injection E as _ <-. exact H.
  - pose proof (run_all_checks_reads now ps i st) as H.
    destruct (run_all_checks now ps i st) as [[c | e0] st0].
    + discriminate.
    + intros E. injection E as _ <-. exact H.
Qed.

(** Three of the five tools only read: [get_calibration],
    [convert_coordinates] and [health_check] leave the record as it is,
    whatever they answer. *)
Theorem read_only_tools (now : datetime) (ps : powershell) (i : Install)
    (x y : Z) (from_sys to_sys : string) (st : store) :
  snd (call_tool now ps i get_calibration st) = st /\
  snd (call_tool now ps i (convert_coordinates x y from_sys to_sys) st) = st /\
  snd (call_tool now ps i health_check st) = st.
Proof.
  unfold call_tool, catching. split; [| split].
  - rewrite load_state_loaded. reflexivity.
  - destruct (String.eqb from_sys to_sys); [reflexivity |].
    destruct (String.eqb from_sys "physical" && String.eqb to_sys "logical").
    + pose proof (physical_to_logical_reads x y st) as H.
      destruct (physical_to_logical x y st) as [[[lx ly] | e0] st0]; exact H.
    + pose proof (logical_to_physical_reads x y st) as H.
      destruct (logical_to_physical x y st) as [[[px py] | e0] st0]; exact H.
  - pose proof (run_all_checks_reads now ps i st) as H.
    destruct (run_all_checks now ps i st) as [[c | e0] st0]; exact H.
Qed.

(** Without a calibration [convert_coordinates] still answers a request
    that names the same system twice, with the coordinates as given; every
    other request it answers with NotCalibrated. *)
Theorem convert_uncalibrated (now : datetime) (ps : powershell) (i : Install)
    (x y : Z) (from_sys to_sys : string) (st : store) :
  calibrated (loaded st) = false ->
  call_tool now ps i (convert_coordinates x y from_sys to_sys) st =
  (if String.eqb from_sys to_sys then SameSystem x y else Error NotCalibrated,
   st).
Proof.
  intros Hc. unfold call_tool, catching.
  destruct (String.eqb from_sys to_sys); [reflexivity |].
  destruct (String.eqb from_sys "physical" && String.eqb to_sys "logical").
  - unfold physical_to_logical. rewrite bindM_load, Hc. reflexivity.
  - unfold logical_to_physical. rewrite bindM_load, Hc. reflexivity.
Qed.

(** What [calibrate] reports is what it stored: when it does not answer
    with an error, the scales, offsets, consistency and spreads of its
    reply are those of the record now stored, [points_used] is the number
    of stored points, at least 2, and [get_calibration] returns that
    record. *)
Theorem calibrate_then_get (now now' : datetime) (ps : powershell) (i : Install)
    (pts : list CalibrationPoint) (st st' : store) (rep : reply) :
  call_tool now ps i (calibrate pts) st = (rep, st') ->
  (forall e : exn, rep <> Error e) ->
  exists s : State,
    st' = Some s /\
    rep = Calibrated (scale_x s) (scale_y s) (offset_x s) (offset_y s)
            (consistent s) (spread_x s) (spread_y s) (List.length (points s)) /\
    (2 <= List.length (points s))%nat /\
    call_tool now' ps i get_calibration st' = (CalibrationState s, st').
Proof.
  unfold call_tool, catching. intros E Hne.
  pose proof (compute_calibration_store now pts st) as H.
  destruct (compute_calibration now pts st) as [[s | e0] st0] eqn:Ec.
  - destruct H as (-> & _ & _ & _ & Hp & _).
    injection E as <- <-. exists s. rewrite Hp.
    split; [reflexivity |]. split; [reflexivity |].
    split; [| reflexivity].
    destruct (Nat.ltb_spec (List.length pts) 2) as [Hl | Hl]; [| exact Hl].
    rewrite (compute_calibration_short now pts st Hl) in Ec. discriminate Ec.
  - injection E as <- _. exfalso. exact (Hne e0 eq_refl).
Qed.

(** [calibrate_verify] never fails and answers "verified" exactly when it
    is told of a success, with the stored scales, be they [null]: it
    records the verification without looking at the calibration, which it
    leaves as it was. *)
Theorem verify_reply (now : datetime) (ps : powershell) (i : Install)
    (success : bool) (notes : option string) (st : store) :
  exists (s : State) (message : string),
    call_tool now ps i (calibrate_verify success notes) st =
    (Verification (if success then "verified" else "failed") message
       (scale_x (loaded st)) (scale_y (loaded st)), Some s) /\
    verified s = success /\
    calibrated s = calibrated (loaded st) /\
    calibrated_at s = calibrated_at (loaded st).
Proof.
  unfold call_tool, catching. rewrite mark_verified_eq. cbv zeta.
  eexists. eexists. split; [reflexivity |]. repeat split.
Qed.

(** ** Order and exactness of the conversions *)

Module Order.
Import B64 RneFacts Pow2 FlFacts PyFacts.
Local Open Scope Q_scope.

Lemma to_physical_mono (x x' o : Z) (s : float) :
  pixel x -> pixel x' -> pixel o -> 0 <= s -> s <= 2 ^ 31 -> (x <= x')%Z ->
  exists p p' : Z,
    to_physical x o (Some s) = Ok p /\ to_physical x' o (Some s) = Ok p' /\
    (p <= p')%Z.
Proof.
  intros Hx Hx' Ho Hs0 Hs1 Hle.
  assert (Habs : Qabs s <= 2 ^ 31) by (rewrite Qabs_pos; assumption).
  rewrite (Conversion.to_physical_pixel x o s Hx Ho Habs).
  rewrite (Conversion.to_physical_pixel x' o s Hx' Ho Habs).
  eexists. eexists. split; [reflexivity |]. split; [reflexivity |].
  apply rne_mono, fl_mono, Qplus_le_compat; [| apply Qle_refl].
  apply fl_mono, Qmult_le_compat_r; [| exact Hs0].
  rewrite <- Zle_Qle. exact Hle.
Qed.

Lemma to_logical_mono (x x' o : Z) (s : float) :
  pixel x -> pixel x' -> pixel o -> 2 ^ (-20) <= s -> (x <= x')%Z ->
  exists l l' : Z,
    to_logical x o (Some s) = Ok l /\ to_logical x' o (Some s) = Ok l' /\
    (l <= l')%Z.
Proof.
  intros Hx Hx' Ho Hs Hle.
  pose proof (pow2_pos (-20)) as Hpos.
  assert (Habs : 2 ^ (-20) <= Qabs s) by (rewrite Qabs_pos; lra).
  rewrite (Conversion.to_logical_pixel x o s Hx Ho Habs).
  rewrite (Conversion.to_logical_pixel x' o s Hx' Ho Habs).
  eexists. eexists. split; [reflexivity |]. split; [reflexivity |].
  apply rne_mono, fl_mono. unfold Qdiv.
  apply Qmult_le_compat_r.
  - rewrite <- Zle_Qle. lia.
  - apply Qlt_le_weak, Qinv_lt_0_compat. lra.
Qed.

End Order.

(** With positive scales the conversions keep the order of coordinates on
    each axis, in both directions: of two points, the one further right
    (or further down) is not mapped to the left of (or above) the other. *)
Theorem conversions_monotone (st : store) (sx sy : float) (x y x' y' : Z) :
  calibrated (loaded st) = true ->
  scale_x (loaded st) = Some sx -> scale_y (loaded st) = Some sy ->
  (2 ^ (-20) <= sx <= 2 ^ 31)%Q -> (2 ^ (-20) <= sy <= 2 ^ 31)%Q ->
  pixel (offset_x (loaded st)) -> pixel (offset_y (loaded st)) ->
  pixel x -> pixel y -> pixel x' -> pixel y' ->
  x <= x' -> y <= y' ->
  keeps_order logical_to_physical st x y x' y' /\
  keeps_order physical_to_logical st x y x' y'.
Proof.
  intros Hc Sx Sy [Lx Ux] [Ly Uy] Ox Oy Px Py Px' Py' Hx Hy.
  pose proof (Pow2.pow2_pos (-20)) as Hpos.
  destruct (Order.to_physical_mono x x' _ sx Px Px' Ox ltac:(lra) Ux Hx)
    as (a & a' & Ea & Ea' & Ha).
  destruct (Order.to_physical_mono y y' _ sy Py Py' Oy ltac:(lra) Uy Hy)
    as (b & b' & Eb & Eb' & Hb).
  destruct (Order.to_logical_mono x x' _ sx Px Px' Ox Lx Hx)
    as (c & c' & Ec & Ec' & Hc').
  destruct (Order.to_logical_mono y y' _ sy Py Py' Oy Ly Hy)
    as (d & d' & Ed & Ed' & Hd).
  split.
  - exists a, b, a', b'. unfold logical_to_physical.
    rewrite !bindM_load, Hc, Sx, Sy. cbn [negb].
    rewrite !bindM_lift, Ea, Ea'. rewrite !bindM_lift, Eb, Eb'.
    repeat split; assumption.
  - exists c, d, c', d'. unfold physical_to_logical.
    rewrite !bindM_load, Hc, Sx, Sy. cbn [negb].
    rewrite !bindM_lift, Ec, Ec'. rewrite !bindM_lift, Ed, Ed'.
    repeat split; assumption.
Qed.

Module Exact.
Import B64 RneFacts Pow2 FlFacts PyFacts.
Local Open Scope Q_scope.

Lemma Z_small (z : Z) (k : Z) :
  (0 <= k < 53)%Z -> (Z.abs z <= 2 ^ k)%Z -> (Z.abs z < 2 ^ prec)%Z.
Proof.
  intros Hk H. unfold prec.
  assert (2 ^ k < 2 ^ 53)%Z by (apply Z.pow_lt_mono_r; lia). lia.
Qed.

(** Where [l * s] is a whole number [m], the conversion to physical is
    exact. *)
Lemma to_physical_exact (l o m : Z) (s : float) :
  pixel l -> pixel o -> pixel m -> Qabs s <= 2 ^ 31 ->
  inject_Z l * s == inject_Z m ->
  to_physical l o (Some s) = Ok (m + o)%Z.
Proof.
  intros Hl Ho Hm Hs E.
  rewrite (Conversion.to_physical_pixel l o s Hl Ho Hs). f_equal.
  etransitivity; [| apply (rne_Z (m + o))]. apply rne_Qeq.
  assert (E1 : fl (inject_Z l * s) == inject_Z m).
  { rewrite (fl_Qeq _ _ E). apply fl_Z. apply (Z_small m 31); [lia | exact Hm]. }
  assert (E2 : fl (inject_Z l * s) + inject_Z o == inject_Z (m + o)).
  { rewrite E1, inject_Z_plus. reflexivity. }
  rewrite (fl_Qeq _ _ E2). apply fl_Z.
  apply (Z_small _ 32); [lia |].
  unfold pixel in Hm, Ho. change (2 ^ 32)%Z with (2 * 2 ^ 31)%Z. lia.
Qed.

(** And the way back returns [l]. *)
Lemma to_logical_exact (l o m : Z) (s : float) :
  pixel l -> pixel m -> 2 ^ (-20) <= Qabs s ->
  inject_Z l * s == inject_Z m ->
  to_logical (m + o) o (Some s) = Ok l.
Proof.
  intros Hl Hm Hs E.
  assert (Hd : (m + o - o = m)%Z) by lia.
  rewrite Conversion.to_logical_ok; [| | exact Hs].
  - f_equal. rewrite Hd. etransitivity; [| apply (rne_Z l)]. apply rne_Qeq.
    assert (Hs0 : ~ s == 0).
    { intros H0. rewrite H0 in Hs. pose proof (pow2_pos (-20)).
      change (Qabs 0) with 0 in Hs. lra. }
    assert (E1 : fl (inject_Z m) / s == inject_Z l).
    { rewrite (fl_Z m) by (apply (Z_small m 31); [lia | exact Hm]).
      rewrite <- E. field. exact Hs0. }
    rewrite (fl_Qeq _ _ E1). apply fl_Z.
    apply (Z_small l 31); [lia | exact Hl].
  - rewrite Hd. unfold pixel in Hm.
    assert (2 ^ 31 <= 2 ^ 64)%Z by (apply Z.pow_le_mono_r; lia). lia.
Qed.

End Exact.

(** Where the scale maps a logical coordinate onto a whole physical pixel
    ([lx * scale_x] and [ly * scale_y] are integers, as with scale 1.25
    and a multiple of 4, scale 1.5 and an even number, or scale 2), the
    conversion to physical is exact, the scaled coordinate plus the
    offset, and the conversion back returns the logical coordinates it
    started from. *)
Theorem round_trip_exact (st : store) (sx sy : float) (lx ly mx my : Z) :
  calibrated (loaded st) = true ->
  scale_x (loaded st) = Some sx -> scale_y (loaded st) = Some sy ->
  scale_in_range sx -> scale_in_range sy ->
  pixel (offset_x (loaded st)) -> pixel (offset_y (loaded st)) ->
  pixel lx -> pixel ly -> pixel mx -> pixel my ->
  (inject_Z lx * sx == inject_Z mx)%Q -> (inject_Z ly * sy == inject_Z my)%Q ->
  logical_to_physical lx ly st
  = (Ok (mx + offset_x (loaded st), my + offset_y (loaded st)), st) /\
  physical_to_logical (mx + offset_x (loaded st)) (my + offset_y (loaded st)) st
  = (Ok (lx, ly), st).
Proof.
  intros Hc Sx Sy [Lx Ux] [Ly Uy] Ox Oy Plx Ply Pmx Pmy Ex Ey.
  unfold logical_to_physical, physical_to_logical.
  rewrite !bindM_load, Hc, Sx, Sy. cbn [negb].
  rewrite !bindM_lift.
  rewrite (Exact.to_physical_exact lx _ mx sx Plx Ox Pmx Ux Ex).
  rewrite (Exact.to_logical_exact lx _ mx sx Plx Pmx Lx Ex).
  rewrite !bindM_lift.
  rewrite (Exact.to_physical_exact ly _ my sy Ply Oy Pmy Uy Ey).
  rewrite (Exact.to_logical_exact ly _ my sy Ply Pmy Ly Ey).
  split; reflexivity.
Qed.

Module ZeroScale.
Import B64 RneFacts Pow2 FlFacts PyFacts.
Local Open Scope Q_scope.

Lemma to_logical_zero (x o : Z) (s : float) :
  pixel x -> pixel o -> s == 0 ->
  to_logical x o (Some s) = Raise ZeroDivisionError.
Proof.
  intros Hx Ho Hs. unfold to_logical. cbn [number].
  pose proof (Conversion.pixel_diff x o Hx Ho) as Hd.
  assert (H64 : (Z.abs (x - o) <= 2 ^ 64)%Z).
  { assert (2 ^ 32 <= 2 ^ 64)%Z by (apply Z.pow_le_mono_r; lia). lia. }
  pose proof (Conversion.Z_abs_le_pow2 _ 64 ltac:(lia) H64) as Bd.
  destruct (check_fl OverflowError _ 64 Bd) as [E1 _]; [unfold emin, emax; lia |].
  rewrite bind_Ok, float_of_int_eq, E1, bind_Ok.
  rewrite fdiv_zero by (apply Qeq_bool_iff; exact Hs).
  apply bind_Raise.
Qed.

Lemma to_physical_zero (x o : Z) (s : float) :
  pixel x -> pixel o -> s == 0 -> to_physical x o (Some s) = Ok o.
Proof.
  intros Hx Ho Hs.
  assert (Habs : Qabs s <= 2 ^ 31).
  { rewrite Hs. change (Qabs 0) with 0. apply Qlt_le_weak, pow2_pos. }
  rewrite (Conversion.to_physical_pixel x o s Hx Ho Habs). f_equal.
  etransitivity; [| apply (rne_Z o)]. apply rne_Qeq.
  assert (E1 : fl (inject_Z x * s) == 0).
  { apply fl_zero. rewrite Hs. ring. }
  assert (E2 : fl (inject_Z x * s) + inject_Z o == inject_Z o).
  { rewrite E1. ring. }
  rewrite (fl_Qeq _ _ E2). apply fl_Z.
  apply (Exact.Z_small o 31); [lia | exact Ho].
Qed.

End ZeroScale.

(** A calibrated record can hold a scale of zero, and then the two
    directions part ways: the conversion to logical raises
    [ZeroDivisionError] whatever the coordinates, while the conversion to
    physical returns and sends every coordinate of that axis to the
    offset. *)
Theorem zero_scale_one_way (st : store) (sx sy : float) (x y : Z) :
  calibrated (loaded st) = true ->
  scale_x (loaded st) = Some sx -> scale_y (loaded st) = Some sy ->
  (sx == 0 \/ scale_in_range sx)%Q -> (sy == 0 \/ scale_in_range sy)%Q ->
  (sx == 0 \/ sy == 0)%Q ->
  pixel (offset_x (loaded st)) -> pixel (offset_y (loaded st)) ->
  pixel x -> pixel y ->
  physical_to_logical x y st = (Raise ZeroDivisionError, st) /\
  exists px py : Z,
    logical_to_physical x y st = (Ok (px, py), st) /\
    ((sx == 0)%Q -> px = offset_x (loaded st)) /\
    ((sy == 0)%Q -> py = offset_y (loaded st)).
Proof.
  intros Hc Sx Sy Rx Ry Hz Ox Oy Px Py.
  unfold logical_to_physical, physical_to_logical.
  rewrite !bindM_load, Hc, Sx, Sy. cbn [negb]. split.
  - rewrite bindM_lift. destruct Rx as [Zx | [Lx _]].
    + rewrite (ZeroScale.to_logical_zero x _ sx Px Ox Zx). reflexivity.
    + rewrite (Conversion.to_logical_pixel x _ sx Px Ox Lx).
      rewrite bindM_lift.
      destruct Hz as [Zx | Zy].
      * exfalso. rewrite Zx in Lx. pose proof (Pow2.pow2_pos (-20)).
        change (Qabs 0) with 0%Q in Lx. lra.
      * rewrite (ZeroScale.to_logical_zero y _ sy Py Oy Zy). reflexivity.
  - assert (Hx : exists px, to_physical x (offset_x (loaded st)) (Some sx) = Ok px
                            /\ ((sx == 0)%Q -> px = offset_x (loaded st))).
    { destruct Rx as [Zx | [Lx Ux]].
      - exists (offset_x (loaded st)).
        split; [apply ZeroScale.to_physical_zero; assumption | reflexivity].
      - eexists. split; [apply Conversion.to_physical_pixel; assumption |].
        intros Zx. exfalso. rewrite Zx in Lx. pose proof (Pow2.pow2_pos (-20)).
        change (Qabs 0) with 0%Q in Lx. lra. }
    assert (Hy : exists py, to_physical y (offset_y (loaded st)) (Some sy) = Ok py
                            /\ ((sy == 0)%Q -> py = offset_y (loaded st))).
    { destruct Ry as [Zy | [Ly Uy]].
      - exists (offset_y (loaded st)).
        split; [apply ZeroScale.to_physical_zero; assumption | reflexivity].
      - eexists. split; [apply Conversion.to_physical_pixel; assumption |].
        intros Zy. exfalso. rewrite Zy in Ly. pose proof (Pow2.pow2_pos (-20)).
        change (Qabs 0) with 0%Q in Ly. lra. }
    destruct Hx as (px & Epx & Hpx). destruct Hy as (py & Epy & Hpy).
    exists px, py. rewrite bindM_lift, Epx, bindM_lift, Epy.
    split; [reflexivity |]. split; assumption.
Qed.

(** ** More on the estimation *)

Module Steps.
Import B64 RneFacts Pow2 FlFacts PyFacts.

(** What an estimation that returned went through, step by step. *)
Lemma compute_calibration_inv (now : datetime) (pts : list CalibrationPoint)
    (st st' : store) (s : State) :
  compute_calibration now pts st = (Ok s, st') ->
  exists (mx my spx spy : float) (ox oy : list float) (zx zy : Z),
    ratios physical_x logical_x pts <> [] /\
    ratios physical_y logical_y pts <> [] /\
    statistics.median (ratios physical_x logical_x pts) = Ok mx /\
    statistics.median (ratios physical_y logical_y pts) = Ok my /\
    spread (ratios physical_x logical_x pts) mx = Ok spx /\
    spread (ratios physical_y logical_y pts) my = Ok spy /\
    offsets physical_x logical_x pts mx = Ok ox /\
    offsets physical_y logical_y pts my = Ok oy /\
    offset_of ox = Ok zx /\ offset_of oy = Ok zy /\
    s = {| calibrated := true;
           scale_x := Some (Py.round_nd mx 6);
           scale_y := Some (Py.round_nd my 6);
           offset_x := zx;
           offset_y := zy;
           points := pts;
           calibrated_at := Some now;
           verified := false;
           consistent := Some (Py.flt spx tolerance && Py.flt spy tolerance);
           spread_x := Some (Py.round_nd spx 4);
           spread_y := Some (Py.round_nd spy 4);
           verification_notes := None;
           verified_at := None |} /\
    st' = Some s.
Proof.
  unfold compute_calibration.
  destruct (List.length pts <? 2)%nat; [discriminate |].
  rewrite bindM_lift.
  destruct (scales_loop pts [] []) as [[scales_x scales_y] | e] eqn:El;
    [| discriminate].
  apply Estimation.scales_loop_ratios in El. cbn [app] in El.
  destruct El as [-> ->].
  destruct (is_empty (ratios physical_x logical_x pts)) eqn:Ex;
    [discriminate |].
  destruct (is_empty (ratios physical_y logical_y pts)) eqn:Ey;
    [discriminate |].
  cbn [orb].
  rewrite bindM_lift.
  destruct (statistics.median (ratios physical_x _ _)) as [mx |] eqn:Emx;
    [| discriminate].
  rewrite bindM_lift.
  destruct (statistics.median (ratios physical_y _ _)) as [my |] eqn:Emy;
    [| discriminate].
  rewrite bindM_lift.
  destruct (spread (ratios physical_x _ _) mx) as [spx |] eqn:Espx;
    [| discriminate].
  rewrite bindM_lift.
  destruct (spread (ratios physical_y _ _) my) as [spy |] eqn:Espy;
    [| discriminate].
  rewrite bindM_lift.
  destruct (offsets physical_x logical_x pts mx) as [ox |] eqn:Eox;
    [| discriminate].
  rewrite bindM_lift.
  destruct (offsets physical_y logical_y pts my) as [oy |] eqn:Eoy;
    [| discriminate].
  rewrite bindM_lift.
  destruct (offset_of ox) as [zx |] eqn:Ezx; [| discriminate].
  rewrite bindM_lift.
  destruct (offset_of oy) as [zy |] eqn:Ezy; [| discriminate].
  unfold bindM, save_state, ret. intros H.
  match type of H with
  | (Ok ?r, Some ?r) = _ =>
    assert (Es : s = r) by congruence;
    assert (Est : st' = Some r) by congruence
  end.
  exists mx, my, spx, spy, ox, oy, zx, zy.
  split; [intros E; rewrite E in Ex; discriminate Ex |].
  split; [intros E; rewrite E in Ey; discriminate Ey |].
  rewrite Est, Es. repeat split; assumption.
Qed.

End Steps.

Module Offsets.
Import B64 RneFacts Pow2 FlFacts PyFacts.
Local Open Scope Q_scope.

Lemma residual_pixel (physical logical : Z) (scale v : float) :
  pixel physical -> pixel logical ->
  residual physical logical scale = Ok v ->
  v = fl (inject_Z physical - fl (inject_Z logical * scale)).
Proof.
  intros Hp Hl. unfold residual.
  destruct (Estimation.float_of_int_pixel _ Hl) as [El' El].
  destruct (Estimation.float_of_int_pixel _ Hp) as [Ep' Ep].
  rewrite El', bind_Ok, fmul_eq.
  assert (Em : fl (fl (inject_Z logical) * scale) = fl (inject_Z logical * scale)).
  { apply fl_Qeq. rewrite El. reflexivity. }
  rewrite Em.
  destruct (Py.check NonFinite (fl (inject_Z logical * scale))) as [m |] eqn:E1;
    [| rewrite bind_Raise; discriminate].
  apply check_Ok in E1. subst m.
  rewrite bind_Ok, Ep', bind_Ok, fsub_eq. intros H. apply check_Ok in H.
  rewrite H. apply fl_Qeq. rewrite Ep. reflexivity.
Qed.

Lemma offsets_residuals (physical logical : CalibrationPoint -> Z)
    (pts : list CalibrationPoint) (scale : float) (vs : list float) :
  Forall (fun p => pixel (physical p) /\ pixel (logical p)) pts ->
  offsets physical logical pts scale = Ok vs ->
  vs = residuals physical logical pts scale.
Proof.
  intros H. unfold offsets, residuals. revert vs.
  induction H as [| p rest [Hp Hl] _ IH]; intros vs.
  - cbn [filter mapM map]. intros E. injection E as <-. reflexivity.
  - cbn [filter]. destruct (negb (logical p =? 0)%Z).
    + cbn [mapM map].
      destruct (residual (physical p) (logical p) scale) as [v |] eqn:Ev;
        [| rewrite bind_Raise; discriminate].
      rewrite bind_Ok.
      destruct (mapM _ (filter _ rest)) as [ws |] eqn:Ews;
        [| rewrite bind_Raise; discriminate].
      rewrite bind_Ok. intros E. injection E as <-.
      rewrite (residual_pixel _ _ _ _ Hp Hl Ev), (IH ws eq_refl). reflexivity.
    + apply IH.
Qed.

Lemma residuals_length (physical logical : CalibrationPoint -> Z)
    (pts : list CalibrationPoint) (scale : float) :
  List.length (residuals physical logical pts scale)
  = List.length (ratios physical logical pts).
Proof. unfold residuals, ratios. rewrite !length_map. reflexivity. Qed.

Lemma offset_of_cons (vs : list float) (z : Z) :
  vs <> [] -> offset_of vs = Ok z ->
  exists m, statistics.median vs = Ok m /\ z = rne m.
Proof.
  intros Hne. unfold offset_of. destruct vs as [| v vs]; [congruence |].
  destruct (statistics.median (v :: vs)) as [m |];
    [| rewrite bind_Raise; discriminate].
  rewrite bind_Ok. intros E. injection E as <-. exists m. split; reflexivity.
Qed.

End Offsets.

(** After a successful estimation on pixel coordinates the stored
    [offset_x] (and [offset_y]) is the median, rounded to the nearest
    integer, of the residuals [physical - logical * scale] over exactly
    the points with a nonzero logical coordinate on that axis, where
    [scale] is the median of the ratios before it is rounded to 6 places;
    there are as many residuals as ratios, so the fallback offset 0 for an
    empty list is never used. *)
Theorem stored_offset_is_rounded_median (now : datetime)
    (pts : list CalibrationPoint) (st st' : store) (s : State) :
  Forall pixel_point pts ->
  compute_calibration now pts st = (Ok s, st') ->
  exists mx my rx ry : float,
    statistics.median (ratios physical_x logical_x pts) = Ok mx /\
    statistics.median (ratios physical_y logical_y pts) = Ok my /\
    residuals physical_x logical_x pts mx <> [] /\
    residuals physical_y logical_y pts my <> [] /\
    is_median (residuals physical_x logical_x pts mx) rx /\
    is_median (residuals physical_y logical_y pts my) ry /\
    offset_x s = Py.round rx /\ offset_y s = Py.round ry.
Proof.
  intros Hpix H.
  destruct (Steps.compute_calibration_inv _ _ _ _ _ H)
    as (mx & my & spx & spy & ox & oy & zx & zy & Nx & Ny & Emx & Emy & _ & _
        & Eox & Eoy & Ezx & Ezy & Es & _).
  apply Offsets.offsets_residuals in Eox;
    [| eapply Forall_impl; [| exact Hpix]; intros p (H1 & _ & H2 & _);
       split; assumption].
  apply Offsets.offsets_residuals in Eoy;
    [| eapply Forall_impl; [| exact Hpix]; intros p (_ & H1 & _ & H2);
       split; assumption].
  subst ox oy.
  assert (Rx : residuals physical_x logical_x pts mx <> []).
  { intros E. apply Nx. apply length_zero_iff_nil.
    rewrite <- Offsets.residuals_length with (scale := mx), E. reflexivity. }
  assert (Ry : residuals physical_y logical_y pts my <> []).
  { intros E. apply Ny. apply length_zero_iff_nil.
    rewrite <- Offsets.residuals_length with (scale := my), E. reflexivity. }
  destruct (Offsets.offset_of_cons _ _ Rx Ezx) as (rx & Erx & ->).
  destruct (Offsets.offset_of_cons _ _ Ry Ezy) as (ry & Ery & ->).
  exists mx, my, rx, ry. rewrite Es. cbn [offset_x offset_y].
  repeat split; try assumption; apply PyFacts.median_is_median; assumption.
Qed.

Module Spread.
Import B64 RneFacts Pow2 FlFacts PyFacts.
Local Open Scope Q_scope.

Lemma flt_true (x y : float) : Py.flt x y = true <-> x < y.
Proof.
  unfold Py.flt. rewrite negb_true_iff.
  destruct (Qle_bool y x) eqn:E.
  - apply Qle_bool_iff in E. split; [discriminate | intros H; lra].
  - split; [intros _ | reflexivity].
    apply Qnot_le_lt. intros H. apply Qle_bool_iff in H. congruence.
Qed.

Lemma fold_max_ge (l : list float) (x : float) :
  x <= fold_left (fun m y => if Py.flt m y then y else m) l x /\
  Forall (fun v => v <= fold_left (fun m y => if Py.flt m y then y else m) l x) l.
Proof.
  revert x. induction l as [| y l IH]; intros x; cbn [fold_left].
  - split; [apply Qle_refl | constructor].
  - destruct (IH (if Py.flt x y then y else x)) as [H1 H2].
    destruct (Py.flt x y) eqn:E.
    + apply flt_true in E. split; [lra |]. constructor; assumption.
    + assert (Hyx : y <= x).
      { apply Qnot_lt_le. intros H. apply flt_true in H. congruence. }
      split; [exact H1 |]. constructor; [lra | exact H2].
Qed.

Lemma fold_min_le (l : list float) (x : float) :
  fold_left (fun m y => if Py.flt y m then y else m) l x <= x /\
  Forall (fun v => fold_left (fun m y => if Py.flt y m then y else m) l x <= v) l.
Proof.
  revert x. induction l as [| y l IH]; intros x; cbn [fold_left].
  - split; [apply Qle_refl | constructor].
  - destruct (IH (if Py.flt y x then y else x)) as [H1 H2].
    destruct (Py.flt y x) eqn:E.
    + apply flt_true in E. split; [lra |]. constructor; assumption.
    + assert (Hyx : x <= y).
      { apply Qnot_lt_le. intros H. apply flt_true in H. congruence. }
      split; [exact H1 |]. constructor; [lra | exact H2].
Qed.

(** [max] is at least every element, [min] at most. *)
Lemma max_ge (l : list float) (hi : float) :
  Py.max l = Ok hi -> Forall (fun v => v <= hi) l.
Proof.
  unfold Py.max. destruct l as [| x l]; [discriminate |].
  intros H. injection H as <-.
  destruct (fold_max_ge l x) as [H1 H2]. constructor; assumption.
Qed.

Lemma min_le (l : list float) (lo : float) :
  Py.min l = Ok lo -> Forall (fun v => lo <= v) l.
Proof.
  unfold Py.min. destruct l as [| x l]; [discriminate |].
  intros H. injection H as <-.
  destruct (fold_min_le l x) as [H1 H2]. constructor; assumption.
Qed.

Lemma min_le_max (l : list float) (lo hi : float) :
  Py.min l = Ok lo -> Py.max l = Ok hi -> lo <= hi.
Proof.
  intros Hlo Hhi. pose proof (max_ge _ _ Hhi) as H.
  rewrite Forall_forall in H. apply H. apply (min_In _ _ Hlo).
Qed.

Lemma median_nonpos (data : list float) (m : float) :
  Forall (fun r => r <= 0) data -> statistics.median data = Ok m -> m <= 0.
Proof.
  intros H E. rewrite Forall_forall in H.
  destruct (median_cases _ _ E) as [Hin | (a & b & Ha & Hb & ->)].
  - apply H, Hin.
  - apply fl_nonpos.
    assert (Hs : fl (a + b) <= 0).
    { apply fl_nonpos. pose proof (H _ Ha). pose proof (H _ Hb). lra. }
    unfold Qdiv. change (/ 2) with (1 # 2). lra.
Qed.

(** Divided by a scale that is not positive, the spread is not positive. *)
Lemma spread_nonpos (scales : list float) (scale v : float) :
  scale <= 0 -> spread scales scale = Ok v -> v <= 0.
Proof.
  intros Hs. unfold spread.
  destruct (Qeq_bool scale 0) eqn:E0.
  { intros H. injection H as <-. apply Qle_refl. }
  destruct (Py.max scales) as [hi |] eqn:Ehi;
    [| rewrite bind_Raise; discriminate].
  rewrite bind_Ok.
  destruct (Py.min scales) as [lo |] eqn:Elo;
    [| rewrite bind_Raise; discriminate].
  rewrite bind_Ok, fsub_eq.
  destruct (Py.check NonFinite (fl (hi - lo))) as [d |] eqn:Ed;
    [| rewrite bind_Raise; discriminate].
  apply check_Ok in Ed. rewrite bind_Ok, fdiv_eq by exact E0.
  intros H. apply check_Ok in H. subst v d.
  apply fl_nonpos.
  pose proof (min_le_max _ _ _ Elo Ehi) as Hlh.
  assert (Hd : 0 <= fl (hi - lo)) by (apply fl_nonneg; lra).
  apply Qeq_bool_neq in E0.
  assert (Hneg : scale < 0).
  { apply Qnot_le_lt. intros H0. apply E0. lra. }
  assert (Hi : / scale < 0).
  { apply Qinv_lt_0_compat in Hneg || idtac.
    apply Qnot_le_lt. intros Hge.
    assert (Hm : scale * / scale == 1) by (apply Qmult_inv_r; exact E0).
    nra. }
  unfold Qdiv. nra.
Qed.

Lemma tolerance_pos : 0 < tolerance.
Proof. vm_compute. reflexivity. Qed.

End Spread.

(** A mirrored axis is always found consistent.  Where on each axis the
    physical and the logical coordinate of every landmark have opposite
    signs (or the physical one is 0), the ratios are not positive, the
    spread is divided by a median that is not positive, and [spread <
    0.02] holds however far the ratios are apart: whenever the estimation
    returns, [consistent] is true. *)
Theorem mirrored_axes_consistent (now : datetime) (pts : list CalibrationPoint)
    (st st' : store) (s : State) :
  Forall (fun p => physical_x p * logical_x p <= 0
                   /\ physical_y p * logical_y p <= 0) pts ->
  compute_calibration now pts st = (Ok s, st') ->
  consistent s = Some true.
Proof.
  intros Hm H.
  destruct (Steps.compute_calibration_inv _ _ _ _ _ H)
    as (mx & my & spx & spy & ox & oy & zx & zy & _ & _ & Emx & Emy & Espx & Espy
        & _ & _ & _ & _ & Es & _).
  assert (Hratio : forall p l : Z, (p * l <= 0)%Z -> l <> 0%Z ->
                     (B64.fl (inject_Z p / inject_Z l) <= 0)%Q).
  { intros p l Hpl Hl. apply FlFacts.fl_nonpos.
    assert (Hl0 : ~ (inject_Z l == 0)%Q).
    { intros E. apply Hl. apply (inject_Z_injective l 0). exact E. }
    assert (E : (inject_Z p / inject_Z l * inject_Z l == inject_Z p)%Q)
      by (field; exact Hl0).
    assert (Hq : (inject_Z p * inject_Z l <= 0)%Q).
    { rewrite <- inject_Z_mult. change 0%Q with (inject_Z 0).
      rewrite <- Zle_Qle. exact Hpl. }
    remember (inject_Z p / inject_Z l)%Q as q eqn:Eq. clear Eq.
    remember (inject_Z l) as L eqn:EL. remember (inject_Z p) as P eqn:EP.
    clear EL EP.
    assert (HL : (0 < L * L)%Q).
    { destruct (Qlt_le_dec 0 L) as [Hp | Hn]; [nra |].
      destruct (Qlt_le_dec L 0) as [Hp | Hn']; [nra |].
      exfalso. apply Hl0. lra. }
    apply Qnot_lt_le. intros Hpos.
    assert (Hc : (0 < q * (L * L))%Q) by nra.
    assert (Ec : (q * (L * L) == P * L)%Q) by (rewrite <- E; ring).
    lra. }
  assert (Hx : Forall (fun r => (r <= 0)%Q) (ratios physical_x logical_x pts)).
  { apply Estimation.ratios_Forall. eapply Forall_impl; [| exact Hm].
    intros p [Hp _] Hl. apply Hratio; assumption. }
  assert (Hy : Forall (fun r => (r <= 0)%Q) (ratios physical_y logical_y pts)).
  { apply Estimation.ratios_Forall. eapply Forall_impl; [| exact Hm].
    intros p [_ Hp] Hl. apply Hratio; assumption. }
  pose proof (Spread.spread_nonpos _ _ _ (Spread.median_nonpos _ _ Hx Emx) Espx)
    as Sx.
  pose proof (Spread.spread_nonpos _ _ _ (Spread.median_nonpos _ _ Hy Emy) Espy)
    as Sy.
  pose proof Spread.tolerance_pos as Ht.
  rewrite Es. cbn [consistent]. f_equal.
  apply andb_true_intro. split; apply Spread.flt_true; lra.
Qed.

Module Canonical.
Import B64 RneFacts Pow2 FlFacts PyFacts.
Local Open Scope Q_scope.

(** The result of [fl] is a reduced fraction: two results that denote the
    same rational are the same term. *)
Lemma fl_canon (x y : Q) : fl x == fl y -> fl x = fl y.
Proof.
  unfold fl. intros H. rewrite !Qred_correct in H.
  apply Qred_complete. exact H.
Qed.

(** A float has a significand of 53 bits. *)
Lemma fl_mantissa (x : Q) :
  exists m j : Z,
    fl x == inject_Z m * 2 ^ j /\ (Z.abs m < 2 ^ prec)%Z /\ (emin <= j)%Z.
Proof.
  destruct (Qeq_dec x 0) as [E0 | N0].
  { exists 0%Z, emin. rewrite (fl_zero x E0).
    split; [ring |]. split; [reflexivity | lia]. }
  pose proof (fl_eq x) as Ef.
  pose proof (ulp_exp_ge_emin x) as He.
  destruct (ilog2_spec x N0) as [_ Hup].
  assert (Hexp : (ilog2 x + 1 <= ulp_exp x + 53)%Z).
  { unfold ulp_exp, prec. lia. }
  remember (ulp_exp x) as e eqn:Ee. clear Ee.
  assert (Hx : Qabs x < 2 ^ e * 2 ^ 53).
  { rewrite <- pow2_add. eapply Qlt_le_trans; [exact Hup |].
    apply pow2_le. exact Hexp. }
  pose proof (div_pow2 x e) as Ey.
  remember (x / 2 ^ e) as y eqn:Eqy.
  assert (Hy : Qabs y < 2 ^ 53).
  { pose proof (pow2_pos e) as Hp.
    assert (Ea : Qabs x == Qabs y * 2 ^ e).
    { rewrite <- Ey, Qabs_Qmult. rewrite (Qabs_pos (2 ^ e)) by lra. reflexivity. }
    rewrite Ea in Hx. apply Qnot_le_lt. intros Hge. nra. }
  assert (E53 : 2 ^ 53 == inject_Z (2 ^ 53)) by reflexivity.
  assert (HM : (- 2 ^ 53 <= rne y <= 2 ^ 53)%Z).
  { rewrite E53 in Hy.
    assert (Hlo : - inject_Z (2 ^ 53) <= y /\ y <= inject_Z (2 ^ 53)).
    { apply Qabs_Qle_condition. lra. }
    destruct Hlo as [Hlo Hhi]. split.
    - rewrite <- (rne_Z (- 2 ^ 53)). apply rne_mono.
      rewrite inject_Z_opp. exact Hlo.
    - rewrite <- (rne_Z (2 ^ 53)). apply rne_mono. exact Hhi. }
  remember (rne y) as M eqn:EM. clear EM.
  assert (E2 : 2 ^ (e + 1) == 2 * 2 ^ e) by apply pow2_succ.
  destruct (Z.eq_dec M (2 ^ 53)) as [Ep | Np].
  { exists (2 ^ 52)%Z, (e + 1)%Z. split; [| split; [reflexivity | lia]].
    rewrite Ef, Ep, E2.
    assert (Ec : inject_Z (2 ^ 53) == 2 * inject_Z (2 ^ 52)) by reflexivity.
    rewrite Ec. ring. }
  destruct (Z.eq_dec M (- 2 ^ 53)) as [En | Nn].
  { exists (- 2 ^ 52)%Z, (e + 1)%Z. split; [| split; [reflexivity | lia]].
    rewrite Ef, En, E2.
    assert (Ec : inject_Z (- 2 ^ 53) == 2 * inject_Z (- 2 ^ 52)) by reflexivity.
    rewrite Ec. ring. }
  exists M, e. split; [exact Ef |]. split; [| exact He].
  unfold prec. lia.
Qed.

(** Rounding a float again changes nothing. *)
Lemma fl_idem (x : Q) : fl (fl x) = fl x.
Proof.
  destruct (fl_mantissa x) as (m & j & E & Hm & Hj).
  apply fl_canon. apply (fl_repr _ m j); assumption.
Qed.

(** The mean of a float with itself is that float (no rounding error and,
    in this model, no overflow). *)
Lemma mean_same (x : Q) : fl (fl (fl x + fl x) / 2) = fl x.
Proof.
  destruct (fl_mantissa x) as (m & j & E & Hm & Hj).
  assert (Hd : fl (fl x + fl x) == fl x + fl x).
  { apply (fl_repr _ m (j + 1)); [| exact Hm | lia].
    rewrite E, pow2_succ. ring. }
  rewrite <- (fl_idem x) at 3. apply fl_Qeq. rewrite Hd. field.
Qed.

Lemma fl_0 : fl 0 = 0.
Proof. vm_compute. reflexivity. Qed.

End Canonical.

Module Uniform.
Import B64 RneFacts Pow2 FlFacts PyFacts Canonical.
Local Open Scope Q_scope.

Lemma Forall_eq_In (c : Q) (l : list Q) (x : Q) :
  Forall (fun r => r = c) l -> In x l -> x = c.
Proof. intros H Hin. rewrite Forall_forall in H. apply H, Hin. Qed.

(** The median of copies of one float is that float. *)
Lemma median_const (data : list float) (y : Q) (k : Z) :
  data <> [] -> Forall (fun r => r = fl y) data ->
  Qabs (fl y) <= 2 ^ k -> (emin <= k)%Z -> (k + 1 < emax)%Z ->
  statistics.median data = Ok (fl y).
Proof.
  intros Hne Hall Hb Hk1 Hk2.
  destruct (median_bounded data k Hne) as (m & Em & _); [| exact Hk1 | exact Hk2 |].
  { eapply Forall_impl; [| exact Hall]. intros r ->. exact Hb. }
  rewrite Em. f_equal.
  destruct (median_cases _ _ Em) as [Hin | (a & b & Ha & Hb' & ->)].
  - apply (Forall_eq_In _ _ _ Hall Hin).
  - rewrite (Forall_eq_In _ _ _ Hall Ha), (Forall_eq_In _ _ _ Hall Hb').
    apply mean_same.
Qed.

(** Copies of one float have no spread. *)
Lemma spread_const (scales : list float) (c v : float) :
  Forall (fun r => r = c) scales -> spread scales c = Ok v -> v = 0.
Proof.
  intros Hall. unfold spread.
  destruct (Qeq_bool c 0) eqn:E0.
  { intros H. injection H as <-. reflexivity. }
  destruct (Py.max scales) as [hi |] eqn:Ehi;
    [| rewrite bind_Raise; discriminate].
  rewrite bind_Ok.
  destruct (Py.min scales) as [lo |] eqn:Elo;
    [| rewrite bind_Raise; discriminate].
  rewrite bind_Ok, fsub_eq.
  rewrite (Forall_eq_In _ _ _ Hall (max_In _ _ Ehi)).
  rewrite (Forall_eq_In _ _ _ Hall (min_In _ _ Elo)).
  assert (Ed : fl (c - c) = 0).
  { etransitivity; [| exact fl_0]. apply fl_Qeq. ring. }
  rewrite Ed. change (Py.check NonFinite 0) with (@Ok float 0).
  rewrite bind_Ok, fdiv_eq by exact E0.
  assert (Eq : fl (0 / c) = 0).
  { etransitivity; [| exact fl_0]. apply fl_Qeq. unfold Qdiv. ring. }
  rewrite Eq. change (Py.check NonFinite 0) with (@Ok float 0).
  intros H. injection H as <-. reflexivity.
Qed.

End Uniform.

Module Line.
Import B64 RneFacts Pow2 FlFacts PyFacts Canonical Uniform.
Local Open Scope Q_scope.

Lemma ratios_collinear (physical logical : CalibrationPoint -> Z)
    (pts : list CalibrationPoint) (q : Q) :
  Forall (fun p => inject_Z (physical p) == q * inject_Z (logical p)) pts ->
  Forall (fun r => r = fl q) (ratios physical logical pts).
Proof.
  intros H. apply Estimation.ratios_Forall.
  eapply Forall_impl; [| exact H]. intros p E Hl. cbv beta.
  apply fl_Qeq. rewrite E. field.
  intros E0. apply Hl. apply (inject_Z_injective _ 0). exact E0.
Qed.

(** The residual of a landmark on the line is a rounding error. *)
Lemma residual_small (P L : Z) (q : Q) :
  pixel P -> pixel L -> inject_Z P == q * inject_Z L ->
  Qabs (fl (inject_Z P - fl (inject_Z L * fl q))) <= 2 ^ (-20).
Proof.
  intros HP HL E.
  apply fl_abs_le; [| apply fl_pow2; unfold emin; lia].
  pose proof (Estimation.pixel_abs _ HP) as BP.
  pose proof (Estimation.pixel_abs _ HL) as BL.
  assert (E31 : 2 ^ 31 == 2147483648 # 1) by reflexivity.
  rewrite E31 in BP, BL. clear E31.
  assert (E20 : 2 ^ (-20) == 1 # 1048576) by reflexivity.
  rewrite E20. clear E20.
  destruct Conversion.eta_small as [He0 He1].
  remember (inject_Z P) as p eqn:Ep. remember (inject_Z L) as l eqn:El.
  clear Ep El HP HL P L.
  destruct (fl_rel q) as [R1 R2].
  change u with (1 # 9007199254740992) in R1, R2.
  remember (fl q) as c eqn:Ec. clear Ec.
  assert (Hd : Qabs (c - q) <= (1 # 9007199254740992) * Qabs q + eta)
    by (apply Qabs_Qle_condition; split; lra).
  assert (EA : Qabs (l * c - p) == Qabs l * Qabs (c - q)).
  { rewrite <- Qabs_Qmult. apply Qabs_wd. rewrite E. ring. }
  assert (EP : Qabs p == Qabs q * Qabs l).
  { rewrite <- Qabs_Qmult. apply Qabs_wd. exact E. }
  pose proof (Qabs_nonneg l) as Nl. pose proof (Qabs_nonneg q) as Nq.
  pose proof (Qabs_nonneg (c - q)) as Nd.
  assert (HA : Qabs (l * c - p) <= 1 # 2000000).
  { rewrite EA.
    remember (Qabs l) as al. remember (Qabs q) as aq.
    remember (Qabs (c - q)) as ad. remember (Qabs p) as ap.
    assert (H1 : al * ad <= al * ((1 # 9007199254740992) * aq + eta)) by nra.
    assert (H2 : al * ((1 # 9007199254740992) * aq + eta)
                 == (1 # 9007199254740992) * ap + al * eta)
      by (rewrite EP; ring).
    assert (H3 : al * eta <= (2147483648 # 1) * eta) by nra.
    assert (He2 : eta <= 1 # 1000000000000000000000000000000)
      by (vm_compute; discriminate).
    lra. }
  apply Qabs_Qle_condition in HA. apply Qabs_Qle_condition in BP.
  remember (l * c) as A eqn:EqA. clear EqA.
  assert (BA : - (2147483649 # 1) <= A /\ A <= 2147483649 # 1) by (split; lra).
  destruct (Conversion.fl_rel_bound A _ (proj1 BA) (proj2 BA)) as [F1 F2].
  apply Qabs_Qle_condition. split; lra.
Qed.

Lemma residuals_small (physical logical : CalibrationPoint -> Z)
    (pts : list CalibrationPoint) (q : Q) :
  Forall (fun p => pixel (physical p) /\ pixel (logical p)) pts ->
  Forall (fun p => inject_Z (physical p) == q * inject_Z (logical p)) pts ->
  Forall (fun v => Qabs v <= 2 ^ (-20))
         (residuals physical logical pts (fl q)).
Proof.
  intros Hpix Hline. unfold residuals. apply Forall_map.
  induction pts as [| p rest IH]; cbn [filter]; [constructor |].
  inversion Hpix as [| ? ? [Hp Hl] Hpix']; subst.
  inversion Hline as [| ? ? E Hline']; subst.
  destruct (negb (logical p =? 0)%Z); [| apply IH; assumption].
  constructor; [| apply IH; assumption].
  apply residual_small; assumption.
Qed.

(** The rounded median of rounding errors is 0. *)
Lemma offset_of_small (vs : list float) (z : Z) :
  Forall (fun v => Qabs v <= 2 ^ (-20)) vs -> offset_of vs = Ok z -> z = 0%Z.
Proof.
  intros H. destruct vs as [| v vs].
  { intros E. injection E as <-. reflexivity. }
  intros E.
  assert (Hne : v :: vs <> []) by discriminate.
  destruct (Offsets.offset_of_cons _ _ Hne E) as (m & Em & ->).
  destruct (median_bounded (v :: vs) (-20)) as (m' & Em' & Bm);
    [discriminate | exact H | unfold emin; lia | unfold emax; lia |].
  rewrite Em in Em'. injection Em' as <-.
  assert (E20 : 2 ^ (-20) == 1 # 1048576) by reflexivity.
  rewrite E20 in Bm. apply Qabs_Qle_condition in Bm.
  destruct (rne_bounds m) as [B1 B2].
  assert (H1 : (rne m < 1)%Z).
  { rewrite Zlt_Qlt. change (inject_Z 1) with 1. lra. }
  assert (H2 : (- 1 < rne m)%Z).
  { rewrite Zlt_Qlt. change (inject_Z (- 1)) with (- (1)). lra. }
  lia.
Qed.

End Line.

(** The model of landmarks on two lines through the origin. *)
Lemma collinear_model (now : datetime) (pts : list CalibrationPoint)
    (st : store) (qx qy : Q) :
  (2 <= List.length pts)%nat -> Forall pixel_point pts ->
  ~ Forall (fun p => logical_x p = 0) pts ->
  ~ Forall (fun p => logical_y p = 0) pts ->
  Forall (collinear qx qy) pts ->
  exists s : State,
    compute_calibration now pts st = (Ok s, Some s) /\
    scale_x s = Some (Py.round_nd (B64.fl qx) 6) /\
    scale_y s = Some (Py.round_nd (B64.fl qy) 6) /\
    offset_x s = 0 /\ offset_y s = 0 /\
    spread_x s = Some 0%Q /\ spread_y s = Some 0%Q /\
    consistent s = Some true.
Proof.
  intros Hlen Hpix Nx Ny Hline.
  rewrite <- Estimation.ratios_nil_iff in Nx, Ny.
  destruct (Estimation.compute_calibration_pixel now pts st Hpix Hlen Nx Ny)
    as (s & E).
  exists s. split; [exact E |].
  destruct (Steps.compute_calibration_inv _ _ _ _ _ E)
    as (mx & my & spx & spy & ox & oy & zx & zy & _ & _ & Emx & Emy & Espx & Espy
        & Eox & Eoy & Ezx & Ezy & Es & _).
  assert (Hpx : Forall (fun p => pixel (physical_x p) /\ pixel (logical_x p)) pts).
  { eapply Forall_impl; [| exact Hpix]. intros p (H1 & _ & H2 & _).
    split; assumption. }
  assert (Hpy : Forall (fun p => pixel (physical_y p) /\ pixel (logical_y p)) pts).
  { eapply Forall_impl; [| exact Hpix]. intros p (_ & H1 & _ & H2).
    split; assumption. }
  assert (Hlx : Forall (fun p => (inject_Z (physical_x p)
                                  == qx * inject_Z (logical_x p))%Q) pts).
  { eapply Forall_impl; [| exact Hline]. intros p [H _]. exact H. }
  assert (Hly : Forall (fun p => (inject_Z (physical_y p)
                                  == qy * inject_Z (logical_y p))%Q) pts).
  { eapply Forall_impl; [| exact Hline]. intros p [_ H]. exact H. }
  pose proof (Line.ratios_collinear physical_x logical_x pts qx Hlx) as Cx.
  pose proof (Line.ratios_collinear physical_y logical_y pts qy Hly) as Cy.
  assert (Bx : (Qabs (B64.fl qx) <= 2 ^ 31)%Q).
  { pose proof (Estimation.ratios_pixel_bound physical_x logical_x pts) as B.
    destruct (ratios physical_x logical_x pts) as [| r rs]; [congruence |].
    inversion Cx as [| ? ? Er _]; subst.
    assert (Hb : Forall (fun r => (Qabs r <= 2 ^ 31)%Q) (B64.fl qx :: rs)).
    { apply B. eapply Forall_impl; [| exact Hpix]. intros p (H & _). exact H. }
    inversion Hb. assumption. }
  assert (By : (Qabs (B64.fl qy) <= 2 ^ 31)%Q).
  { pose proof (Estimation.ratios_pixel_bound physical_y logical_y pts) as B.
    destruct (ratios physical_y logical_y pts) as [| r rs]; [congruence |].
    inversion Cy as [| ? ? Er _]; subst.
    assert (Hb : Forall (fun r => (Qabs r <= 2 ^ 31)%Q) (B64.fl qy :: rs)).
    { apply B. eapply Forall_impl; [| exact Hpix]. intros p (_ & H & _). exact H. }
    inversion Hb. assumption. }
  rewrite (Uniform.median_const _ qx 31 Nx Cx Bx) in Emx
    by (unfold B64.emin, B64.emax; lia).
  rewrite (Uniform.median_const _ qy 31 Ny Cy By) in Emy
    by (unfold B64.emin, B64.emax; lia).
  injection Emx as <-. injection Emy as <-.
  apply (Uniform.spread_const _ _ _ Cx) in Espx.
  apply (Uniform.spread_const _ _ _ Cy) in Espy.
  apply (Offsets.offsets_residuals _ _ _ _ _ Hpx) in Eox.
  apply (Offsets.offsets_residuals _ _ _ _ _ Hpy) in Eoy.
  subst spx spy ox oy.
  apply (Line.offset_of_small _ _
           (Line.residuals_small physical_x logical_x pts qx Hpx Hlx)) in Ezx.
  apply (Line.offset_of_small _ _
           (Line.residuals_small physical_y logical_y pts qy Hpy Hly)) in Ezy.
  subst zx zy. rewrite Es.
  cbn [scale_x scale_y offset_x offset_y spread_x spread_y consistent].
  repeat split.
Qed.

(** Landmarks measured without error on a display that scales by [qx] and
    [qy] (every point on the lines [physical = q * logical]): the
    estimation returns the model of that display, the scales [qx] and [qy]
    as floats rounded to 6 places, offsets 0, spreads 0 and
    [consistent == true]. *)
Theorem collinear_estimate (now : datetime) (pts : list CalibrationPoint)
    (st : store) (qx qy : Q) :
  (2 <= List.length pts)%nat -> Forall pixel_point pts ->
  ~ Forall (fun p => logical_x p = 0) pts ->
  ~ Forall (fun p => logical_y p = 0) pts ->
  Forall (collinear qx qy) pts ->
  exists s : State,
    compute_calibration now pts st = (Ok s, Some s) /\
    scale_x s = Some (Py.round_nd (B64.fl qx) 6) /\
    scale_y s = Some (Py.round_nd (B64.fl qy) 6) /\
    offset_x s = 0 /\ offset_y s = 0 /\
    spread_x s = Some 0%Q /\ spread_y s = Some 0%Q /\
    consistent s = Some true.
Proof. exact (collinear_model now pts st qx qy). Qed.

Module Shuffle.
Import B64 RneFacts Pow2 FlFacts PyFacts Canonical.
Local Open Scope Q_scope.

Lemma canon_fl (x : Q) : canon (fl x).
Proof. unfold canon, fl. apply Qred_complete, Qred_correct. Qed.

Lemma canon_eq (a b : Q) : canon a -> canon b -> a == b -> a = b.
Proof.
  unfold canon. intros Ha Hb E. rewrite <- Ha, <- Hb.
  apply Qred_complete. exact E.
Qed.

Lemma Qle_bool_false (x y : Q) : Qle_bool x y = false -> y < x.
Proof.
  intros E. apply Qnot_le_lt. intros H. apply Qle_bool_iff in H. congruence.
Qed.

(** Insertions commute, floats being reduced fractions. *)
Lemma insert_comm (x y : Q) (s : list Q) :
  canon x -> canon y ->
  Py.insert x (Py.insert y s) = Py.insert y (Py.insert x s).
Proof.
  intros Cx Cy. induction s as [| z s IH]; cbn [Py.insert].
  - destruct (Qle_bool x y) eqn:Exy; destruct (Qle_bool y x) eqn:Eyx;
      try reflexivity.
    + apply Qle_bool_iff in Exy, Eyx.
      rewrite (canon_eq x y Cx Cy) by lra. reflexivity.
    + apply Qle_bool_false in Exy, Eyx. lra.
  - destruct (Qle_bool y z) eqn:Eyz; destruct (Qle_bool x z) eqn:Exz;
      cbn [Py.insert]; rewrite ?Eyz, ?Exz.
    + destruct (Qle_bool x y) eqn:Exy; destruct (Qle_bool y x) eqn:Eyx;
        rewrite ?Exz, ?Eyz; try reflexivity.
      * apply Qle_bool_iff in Exy, Eyx.
        rewrite (canon_eq x y Cx Cy) by lra. reflexivity.
      * apply Qle_bool_false in Exy, Eyx. lra.
    + destruct (Qle_bool x y) eqn:Exy; [| reflexivity].
      apply Qle_bool_iff in Exy, Eyz. apply Qle_bool_false in Exz. lra.
    + destruct (Qle_bool y x) eqn:Eyx; [| reflexivity].
      apply Qle_bool_iff in Eyx, Exz. apply Qle_bool_false in Eyz. lra.
    + rewrite IH. reflexivity.
Qed.

(** [sorted] does not depend on the order of its argument. *)
Lemma sorted_shuffle (l l' : list Q) :
  Permutation l l' -> Forall canon l -> Py.sorted l = Py.sorted l'.
Proof.
  intros HP. induction HP as [| x l l' _ IH | x y l | l l' l'' HP1 IH1 HP2 IH2];
    intros Hc.
  - reflexivity.
  - unfold Py.sorted in *. cbn [fold_right]. rewrite IH; [reflexivity |].
    inversion Hc. assumption.
  - unfold Py.sorted. cbn [fold_right].
    inversion Hc as [| ? ? Cy Hc']; subst. inversion Hc' as [| ? ? Cx _]; subst.
    apply insert_comm; assumption.
  - rewrite IH1 by exact Hc. apply IH2.
    exact (Permutation_Forall HP1 Hc).
Qed.

Lemma median_shuffle (l l' : list Q) :
  Permutation l l' -> Forall canon l ->
  statistics.median l = statistics.median l'.
Proof.
  intros HP Hc. rewrite !median_eq, (sorted_shuffle l l' HP Hc). reflexivity.
Qed.

Lemma max_shuffle (l l' : list Q) :
  Permutation l l' -> Forall canon l -> Py.max l = Py.max l'.
Proof.
  intros HP Hc.
  destruct (Py.max l) as [hi | e] eqn:E; destruct (Py.max l') as [hi' | e'] eqn:E'.
  - f_equal.
    pose proof (Permutation_Forall HP Hc) as Hc'.
    rewrite Forall_forall in Hc, Hc'.
    pose proof (max_In _ _ E) as Hin. pose proof (max_In _ _ E') as Hin'.
    pose proof (Spread.max_ge _ _ E) as G. pose proof (Spread.max_ge _ _ E') as G'.
    rewrite Forall_forall in G, G'.
    apply canon_eq; [apply Hc, Hin | apply Hc', Hin' |].
    apply Qle_antisym.
    + apply G'. apply (Permutation_in _ HP). exact Hin.
    + apply G. apply (Permutation_in _ (Permutation_sym HP)). exact Hin'.
  - destruct l' as [| x' l']; [| discriminate E'].
    apply Permutation_sym, Permutation_nil in HP. subst l. discriminate E.
  - destruct l as [| x l]; [| discriminate E].
    apply Permutation_nil in HP. subst l'. discriminate E'.
  - destruct l as [| x l]; [| discriminate E].
    apply Permutation_nil in HP. subst l'. congruence.
Qed.

Lemma min_shuffle (l l' : list Q) :
  Permutation l l' -> Forall canon l -> Py.min l = Py.min l'.
Proof.
  intros HP Hc.
  destruct (Py.min l) as [lo | e] eqn:E; destruct (Py.min l') as [lo' | e'] eqn:E'.
  - f_equal.
    pose proof (Permutation_Forall HP Hc) as Hc'.
    rewrite Forall_forall in Hc, Hc'.
    pose proof (min_In _ _ E) as Hin. pose proof (min_In _ _ E') as Hin'.
    pose proof (Spread.min_le _ _ E) as G. pose proof (Spread.min_le _ _ E') as G'.
    rewrite Forall_forall in G, G'.
    apply canon_eq; [apply Hc, Hin | apply Hc', Hin' |].
    apply Qle_antisym.
    + apply G. apply (Permutation_in _ (Permutation_sym HP)). exact Hin'.
    + apply G'. apply (Permutation_in _ HP). exact Hin.
  - destruct l' as [| x' l']; [| discriminate E'].
    apply Permutation_sym, Permutation_nil in HP. subst l. discriminate E.
  - destruct l as [| x l]; [| discriminate E].
    apply Permutation_nil in HP. subst l'. discriminate E'.
  - destruct l as [| x l]; [| discriminate E].
    apply Permutation_nil in HP. subst l'. congruence.
Qed.

Lemma spread_shuffle (l l' : list Q) (scale : float) :
  Permutation l l' -> Forall canon l -> spread l scale = spread l' scale.
Proof.
  intros HP Hc. unfold spread.
  rewrite (max_shuffle l l' HP Hc), (min_shuffle l l' HP Hc). reflexivity.
Qed.

Lemma offset_of_shuffle (l l' : list Q) :
  Permutation l l' -> Forall canon l -> offset_of l = offset_of l'.
Proof.
  intros HP Hc. unfold offset_of.
  rewrite (median_shuffle l l' HP Hc).
  destruct l as [| x l]; destruct l' as [| x' l']; try reflexivity.
  - apply Permutation_nil in HP. discriminate HP.
  - apply Permutation_sym, Permutation_nil in HP. discriminate HP.
Qed.

Lemma filter_shuffle {A : Type} (f : A -> bool) (l l' : list A) :
  Permutation l l' -> Permutation (filter f l) (filter f l').
Proof.
  intros HP. induction HP as [| x l l' _ IH | x y l | l l' l'' _ IH1 _ IH2];
    cbn [filter].
  - constructor.
  - destruct (f x); [constructor |]; exact IH.
  - destruct (f x); destruct (f y); try reflexivity. constructor.
  - etransitivity; eassumption.
Qed.

Lemma ratios_shuffle (physical logical : CalibrationPoint -> Z)
    (pts pts' : list CalibrationPoint) :
  Permutation pts pts' ->
  Permutation (ratios physical logical pts) (ratios physical logical pts').
Proof. intros HP. unfold ratios. apply Permutation_map, filter_shuffle, HP. Qed.

Lemma residuals_shuffle (physical logical : CalibrationPoint -> Z)
    (pts pts' : list CalibrationPoint) (scale : float) :
  Permutation pts pts' ->
  Permutation (residuals physical logical pts scale)
              (residuals physical logical pts' scale).
Proof. intros HP. unfold residuals. apply Permutation_map, filter_shuffle, HP. Qed.

Lemma ratios_canon (physical logical : CalibrationPoint -> Z)
    (pts : list CalibrationPoint) :
  Forall canon (ratios physical logical pts).
Proof. unfold ratios. apply Forall_map, Forall_forall. intros p _. apply canon_fl. Qed.

Lemma residuals_canon (physical logical : CalibrationPoint -> Z)
    (pts : list CalibrationPoint) (scale : float) :
  Forall canon (residuals physical logical pts scale).
Proof.
  unfold residuals. apply Forall_map, Forall_forall. intros p _. apply canon_fl.
Qed.

End Shuffle.

(** The model does not depend on the order in which the landmarks are
    given: on pixel coordinates, an estimation that returns on some points
    returns on every rearrangement of them, with the same scales, offsets,
    spreads and consistency; only the stored list of points keeps the
    order given. *)
Theorem estimate_order_irrelevant (now : datetime)
    (pts pts' : list CalibrationPoint) (st st1 : store) (s : State) :
  Permutation pts pts' -> Forall pixel_point pts ->
  compute_calibration now pts st = (Ok s, st1) ->
  exists s' : State,
    compute_calibration now pts' st = (Ok s', Some s') /\
    scale_x s' = scale_x s /\ scale_y s' = scale_y s /\
    offset_x s' = offset_x s /\ offset_y s' = offset_y s /\
    consistent s' = consistent s /\
    spread_x s' = spread_x s /\ spread_y s' = spread_y s /\
    points s' = pts'.
Proof.
  intros HP Hpix E.
  pose proof (Permutation_Forall HP Hpix) as Hpix'.
  destruct (Steps.compute_calibration_inv _ _ _ _ _ E)
    as (mx & my & spx & spy & ox & oy & zx & zy & Nx & Ny & Emx & Emy & Espx & Espy
        & Eox & Eoy & Ezx & Ezy & Es & _).
  pose proof (Shuffle.ratios_shuffle physical_x logical_x _ _ HP) as Px.
  pose proof (Shuffle.ratios_shuffle physical_y logical_y _ _ HP) as Py.
  pose proof (Shuffle.ratios_canon physical_x logical_x pts) as Cx.
  pose proof (Shuffle.ratios_canon physical_y logical_y pts) as Cy.
  assert (Nx' : ratios physical_x logical_x pts' <> []).
  { intros E0. rewrite E0 in Px. apply Permutation_sym, Permutation_nil in Px.
    contradiction. }
  assert (Ny' : ratios physical_y logical_y pts' <> []).
  { intros E0. rewrite E0 in Py. apply Permutation_sym, Permutation_nil in Py.
    contradiction. }
  assert (Hlen : (2 <= List.length pts')%nat).
  { rewrite <- (Permutation_length HP).
    destruct (Nat.ltb_spec (List.length pts) 2) as [Hl | Hl]; [| exact Hl].
    rewrite (compute_calibration_short now pts st Hl) in E. discriminate E. }
  destruct (Estimation.compute_calibration_pixel now pts' st Hpix' Hlen Nx' Ny')
    as (s' & E').
  exists s'. split; [exact E' |].
  destruct (Steps.compute_calibration_inv _ _ _ _ _ E')
    as (mx' & my' & spx' & spy' & ox' & oy' & zx' & zy' & _ & _ & Emx' & Emy'
        & Espx' & Espy' & Eox' & Eoy' & Ezx' & Ezy' & Es' & _).
  rewrite <- (Shuffle.median_shuffle _ _ Px Cx), Emx in Emx'.
  rewrite <- (Shuffle.median_shuffle _ _ Py Cy), Emy in Emy'.
  injection Emx' as <-. injection Emy' as <-.
  rewrite <- (Shuffle.spread_shuffle _ _ mx Px Cx), Espx in Espx'.
  rewrite <- (Shuffle.spread_shuffle _ _ my Py Cy), Espy in Espy'.
  injection Espx' as <-. injection Espy' as <-.
  assert (Hx : Forall (fun p => pixel (physical_x p) /\ pixel (logical_x p)) pts).
  { eapply Forall_impl; [| exact Hpix]. intros p (H1 & _ & H2 & _).
    split; assumption. }
  assert (Hy : Forall (fun p => pixel (physical_y p) /\ pixel (logical_y p)) pts).
  { eapply Forall_impl; [| exact Hpix]. intros p (_ & H1 & _ & H2).
    split; assumption. }
  apply (Offsets.offsets_residuals _ _ _ _ _ Hx) in Eox.
  apply (Offsets.offsets_residuals _ _ _ _ _ Hy) in Eoy.
  apply (Offsets.offsets_residuals _ _ _ _ _ (Permutation_Forall HP Hx)) in Eox'.
  apply (Offsets.offsets_residuals _ _ _ _ _ (Permutation_Forall HP Hy)) in Eoy'.
  subst ox oy ox' oy'.
  rewrite <- (Shuffle.offset_of_shuffle _ _
                (Shuffle.residuals_shuffle physical_x logical_x _ _ mx HP)
                (Shuffle.residuals_canon _ _ _ _)), Ezx in Ezx'.
  rewrite <- (Shuffle.offset_of_shuffle _ _
                (Shuffle.residuals_shuffle physical_y logical_y _ _ my HP)
                (Shuffle.residuals_canon _ _ _ _)), Ezy in Ezy'.
  injection Ezx' as <-. injection Ezy' as <-.
  rewrite Es, Es'.
  cbn [scale_x scale_y offset_x offset_y spread_x spread_y consistent points].
  repeat split.
Qed.

Module Band.
Import B64 RneFacts Pow2 FlFacts PyFacts Canonical.
Local Open Scope Q_scope.

Lemma fl_double (x : Q) : fl (fl x + fl x) == fl x + fl x.
Proof.
  destruct (fl_mantissa x) as (m & j & E & Hm & Hj).
  apply (fl_repr _ m (j + 1)); [| exact Hm | lia].
  rewrite E, pow2_succ. ring.
Qed.

(** The median lies between the least and the greatest of the data. *)
Lemma median_between (data : list float) (m : float) (x y : Q) :
  Forall (fun r => fl x <= r /\ r <= fl y) data ->
  statistics.median data = Ok m -> fl x <= m /\ m <= fl y.
Proof.
  intros H E. rewrite Forall_forall in H.
  destruct (median_cases _ _ E) as [Hin | (a & b & Ha & Hb & ->)].
  - apply H, Hin.
  - destruct (H _ Ha) as [A1 A2]. destruct (H _ Hb) as [B1 B2].
    assert (Ex : fl (fl x) == fl x) by (rewrite fl_idem; reflexivity).
    assert (Ey : fl (fl y) == fl y) by (rewrite fl_idem; reflexivity).
    split.
    + apply fl_ge; [| exact Ex].
      assert (Hs : fl x + fl x <= fl (a + b)).
      { apply fl_ge; [lra | apply fl_double]. }
      unfold Qdiv. change (/ 2) with (1 # 2). lra.
    + apply fl_le; [| exact Ey].
      assert (Hs : fl (a + b) <= fl y + fl y).
      { apply fl_le; [lra | apply fl_double]. }
      unfold Qdiv. change (/ 2) with (1 # 2). lra.
Qed.

Lemma tolerance_bounds : (1999 # 100000) <= tolerance /\ tolerance <= 2001 # 100000.
Proof. split; vm_compute; discriminate. Qed.

Lemma fl_tolerance : fl tolerance == tolerance.
Proof. unfold tolerance. rewrite fl_idem. reflexivity. Qed.

Lemma eta_tiny : 0 < eta /\ eta <= 1 # 1000000000000000000000000000000.
Proof. split; [apply pow2_pos | vm_compute; discriminate]. Qed.

(** What [spread < 0.02] says, and what its contrary says, of the
    greatest and least ratio, for a positive scale. *)
Lemma spread_band (scales : list float) (scale v : float) :
  2 ^ (-20) <= scale -> spread scales scale = Ok v ->
  exists hi lo : float,
    Py.max scales = Ok hi /\ Py.min scales = Ok lo /\
    (v < tolerance -> hi - lo <= (201 # 10000) * scale) /\
    (tolerance <= v -> (199 # 10000) * scale <= hi - lo).
Proof.
  intros Hs. unfold spread.
  assert (E20 : 2 ^ (-20) == 1 # 1048576) by reflexivity.
  rewrite E20 in Hs. clear E20.
  assert (E0 : Qeq_bool scale 0 = false).
  { destruct (Qeq_bool scale 0) eqn:E; [| reflexivity].
    apply Qeq_bool_iff in E. lra. }
  rewrite E0.
  destruct (Py.max scales) as [hi |] eqn:Ehi;
    [| rewrite bind_Raise; discriminate].
  rewrite bind_Ok.
  destruct (Py.min scales) as [lo |] eqn:Elo;
    [| rewrite bind_Raise; discriminate].
  rewrite bind_Ok, fsub_eq.
  destruct (Py.check NonFinite (fl (hi - lo))) as [d |] eqn:Ed;
    [| rewrite bind_Raise; discriminate].
  apply check_Ok in Ed. rewrite bind_Ok, fdiv_eq by exact E0.
  intros H. apply check_Ok in H.
  exists hi, lo. split; [reflexivity |]. split; [reflexivity |].
  pose proof (Spread.min_le_max _ _ _ Elo Ehi) as Hlh.
  destruct (fl_rel (hi - lo)) as [R1 R2].
  rewrite (Qabs_pos (hi - lo)) in R1, R2 by lra.
  rewrite <- Ed in R1, R2.
  change u with (1 # 9007199254740992) in R1, R2.
  destruct tolerance_bounds as [T1 T2]. destruct eta_tiny as [He0 He1].
  assert (Ez : d / scale * scale == d) by (field; lra).
  remember (d / scale) as z eqn:Eqz.
  remember (hi - lo) as x eqn:Eqx.
  assert (Hx0 : 0 <= x) by (rewrite Eqx; lra).
  assert (Hd0 : 0 <= d) by (rewrite Ed; apply fl_nonneg; exact Hx0).
  assert (Hz0 : 0 <= z).
  { apply Qnot_lt_le. intros Hneg. nra. }
  split.
  - intros Hv. rewrite H in Hv.
    assert (Hz : z < tolerance).
    { apply Qnot_le_lt. intros Hge.
      pose proof (fl_ge _ _ Hge fl_tolerance). lra. }
    assert (Hdz : d <= (2001 # 100000) * scale) by nra.
    lra.
  - intros Hv. rewrite H in Hv.
    destruct (fl_rel z) as [Z1 Z2].
    rewrite (Qabs_pos z) in Z1, Z2 by exact Hz0.
    change u with (1 # 9007199254740992) in Z1, Z2.
    assert (Hz : (19989 # 1000000) <= z) by lra.
    assert (Hdz : (19989 # 1000000) * scale <= d) by nra.
    lra.
Qed.

Lemma Some_eq {A : Type} (a b : A) : Some a = Some b -> a = b.
Proof. intros H. injection H as H. exact H. Qed.

Lemma ratios_floats (physical logical : CalibrationPoint -> Z)
    (pts : list CalibrationPoint) :
  Forall (fun r => exists y, r = fl y) (ratios physical logical pts).
Proof.
  unfold ratios. apply Forall_map, Forall_forall. intros p _.
  eexists. reflexivity.
Qed.

(** Every ratio is within [hi - lo] of the median. *)
Lemma ratios_within (rs : list float) (m hi lo : float) :
  Forall (fun r => exists y, r = fl y) rs ->
  Py.max rs = Ok hi -> Py.min rs = Ok lo -> statistics.median rs = Ok m ->
  Forall (fun r => Qabs (r - m) <= hi - lo) rs.
Proof.
  intros Hf Ehi Elo Em.
  pose proof (Spread.max_ge _ _ Ehi) as G. pose proof (Spread.min_le _ _ Elo) as L.
  rewrite Forall_forall in Hf, G, L.
  destruct (Hf _ (max_In _ _ Ehi)) as (yh & Eh).
  destruct (Hf _ (min_In _ _ Elo)) as (yl & El).
  assert (Hb : fl yl <= m /\ m <= fl yh).
  { apply (median_between rs); [| exact Em].
    apply Forall_forall. intros r Hr. rewrite <- Eh, <- El.
    split; [apply L | apply G]; exact Hr. }
  rewrite <- Eh, <- El in Hb.
  apply Forall_forall. intros r Hr.
  pose proof (G _ Hr). pose proof (L _ Hr).
  apply Qabs_Qle_condition. split; lra.
Qed.

End Band.

(** What [consistent] tells of the landmarks, for ratios that are
    positive.  If the estimation returns [consistent == true], every ratio
    [physical / logical] of an axis is within 2.01 % of the median ratio of
    that axis; if it returns [consistent == false], two ratios of some axis
    are at least 1.99 % of its median apart. *)
Theorem consistency_band (now : datetime) (pts : list CalibrationPoint)
    (st st' : store) (s : State) :
  Forall aligned pts ->
  compute_calibration now pts st = (Ok s, st') ->
  exists mx my : float,
    statistics.median (ratios physical_x logical_x pts) = Ok mx /\
    statistics.median (ratios physical_y logical_y pts) = Ok my /\
    (consistent s = Some true ->
     Forall (close_to mx) (ratios physical_x logical_x pts) /\
     Forall (close_to my) (ratios physical_y logical_y pts)) /\
    (consistent s = Some false ->
     apart mx (ratios physical_x logical_x pts) \/
     apart my (ratios physical_y logical_y pts)).
Proof.
  intros Hal E.
  destruct (Steps.compute_calibration_inv _ _ _ _ _ E)
    as (mx & my & spx & spy & ox & oy & zx & zy & _ & _ & Emx & Emy & Espx & Espy
        & _ & _ & _ & _ & Es & _).
  exists mx, my. split; [exact Emx |]. split; [exact Emy |].
  assert (Px : (2 ^ (-20) <= mx)%Q).
  { apply (PyFacts.median_ge_pow2 (ratios physical_x logical_x pts));
      [| unfold B64.emin; lia | exact Emx].
    apply Estimation.ratios_Forall.
    eapply Forall_impl; [| exact Hal]. intros p [H _] _.
    apply Positive.ratio_same_side, H. }
  assert (Py : (2 ^ (-20) <= my)%Q).
  { apply (PyFacts.median_ge_pow2 (ratios physical_y logical_y pts));
      [| unfold B64.emin; lia | exact Emy].
    apply Estimation.ratios_Forall.
    eapply Forall_impl; [| exact Hal]. intros p [_ H] _.
    apply Positive.ratio_same_side, H. }
  destruct (Band.spread_band _ _ _ Px Espx) as (hx & lx & Ehx & Elx & Tx & Fx).
  destruct (Band.spread_band _ _ _ Py Espy) as (hy & ly & Ehy & Ely & Ty & Fy).
  pose proof (Band.ratios_within _ _ _ _ (Band.ratios_floats _ _ pts) Ehx Elx Emx)
    as Wx.
  pose proof (Band.ratios_within _ _ _ _ (Band.ratios_floats _ _ pts) Ehy Ely Emy)
    as Wy.
  rewrite Es. cbn [consistent]. split.
  - intros H. apply Band.Some_eq, andb_prop in H. destruct H as [Hx Hy].
    apply Spread.flt_true in Hx, Hy.
    split.
    + eapply Forall_impl; [| exact Wx]. intros r Hr. unfold close_to.
      cbv beta in Hr. pose proof (Tx Hx). lra.
    + eapply Forall_impl; [| exact Wy]. intros r Hr. unfold close_to.
      cbv beta in Hr. pose proof (Ty Hy). lra.
  - intros H. apply Band.Some_eq, andb_false_iff in H.
    destruct H as [Hx | Hy].
    + left. exists hx, lx.
      split; [apply (PyFacts.max_In _ _ Ehx) |].
      split; [apply (PyFacts.min_In _ _ Elx) |].
      apply Fx. apply Qnot_lt_le. intros Hlt.
      apply Spread.flt_true in Hlt. congruence.
    + right. exists hy, ly.
      split; [apply (PyFacts.max_In _ _ Ehy) |].
      split; [apply (PyFacts.min_In _ _ Ely) |].
      apply Fy. apply Qnot_lt_le. intros Hlt.
      apply Spread.flt_true in Hlt. congruence.
Qed.

Module Rounded.
Import B64 RneFacts Pow2 FlFacts PyFacts.
Local Open Scope Q_scope.

(** Rounding to 6 places moves a value of the pixel range by less than
    one millionth. *)
Lemma round_nd_6_near (m : float) :
  Qabs m <= 2 ^ 31 -> Qabs (Py.round_nd m 6 - m) <= 1 # 1000000.
Proof.
  intros Hm. unfold Py.round_nd.
  assert (E31 : 2 ^ 31 == 2147483648 # 1) by reflexivity.
  rewrite E31 in Hm. clear E31.
  apply Qabs_Qle_condition in Hm.
  destruct (rne_bounds (m * 10 ^ 6)) as [B1 B2].
  assert (E6 : m * 10 ^ 6 == m * (1000000 # 1)) by reflexivity.
  assert (Eq : inject_Z (rne (m * 10 ^ 6)) / 10 ^ 6
               == inject_Z (rne (m * 10 ^ 6)) * (1 # 1000000)) by reflexivity.
  remember (inject_Z (rne (m * 10 ^ 6))) as k eqn:Ek. clear Ek.
  rewrite E6 in B1, B2. rewrite (fl_Qeq _ _ Eq).
  remember (k * (1 # 1000000)) as y eqn:Ey.
  assert (Ey' : y == k * (1 # 1000000)) by (rewrite Ey; reflexivity).
  clear Ey.
  assert (By : - (2147483649 # 1) <= y /\ y <= 2147483649 # 1) by (split; lra).
  destruct (Conversion.fl_rel_bound y _ (proj1 By) (proj2 By)) as [F1 F2].
  destruct Conversion.eta_small as [He0 He1].
  apply Qabs_Qle_condition. split; lra.
Qed.

End Rounded.

(** The stored scales are within one millionth of the medians of the
    ratios: rounding to 6 places is all that separates them. *)
Theorem stored_scale_near_median (now : datetime) (pts : list CalibrationPoint)
    (st st' : store) (s : State) :
  Forall pixel_point pts ->
  compute_calibration now pts st = (Ok s, st') ->
  exists mx my qx qy : float,
    statistics.median (ratios physical_x logical_x pts) = Ok mx /\
    statistics.median (ratios physical_y logical_y pts) = Ok my /\
    scale_x s = Some qx /\ scale_y s = Some qy /\
    (Qabs (qx - mx) <= 1 # 1000000)%Q /\ (Qabs (qy - my) <= 1 # 1000000)%Q.
Proof.
  intros Hpix E.
  destruct (Estimation.compute_calibration_Ok _ _ _ _ _ E)
    as (mx & my & _ & Emx & Emy & Sx & Sy & _).
  exists mx, my, (Py.round_nd mx 6), (Py.round_nd my 6).
  split; [exact Emx |]. split; [exact Emy |].
  split; [exact Sx |]. split; [exact Sy |].
  assert (Nx : ratios physical_x logical_x pts <> []).
  { intros E0. rewrite E0 in Emx. discriminate Emx. }
  assert (Ny : ratios physical_y logical_y pts <> []).
  { intros E0. rewrite E0 in Emy. discriminate Emy. }
  split; apply Rounded.round_nd_6_near.
  - destruct (PyFacts.median_bounded _ 31 Nx) as (m & Em & Bm);
      [| unfold B64.emin; lia | unfold B64.emax; lia |].
    + apply Estimation.ratios_pixel_bound.
      eapply Forall_impl; [| exact Hpix]. intros p (H & _). exact H.
    + rewrite Emx in Em. injection Em as <-. exact Bm.
  - destruct (PyFacts.median_bounded _ 31 Ny) as (m & Em & Bm);
      [| unfold B64.emin; lia | unfold B64.emax; lia |].
    + apply Estimation.ratios_pixel_bound.
      eapply Forall_impl; [| exact Hpix]. intros p (_ & H & _). exact H.
    + rewrite Emy in Em. injection Em as <-. exact Bm.
Qed.

Module EndToEnd.
Import B64 RneFacts Pow2 FlFacts PyFacts.
Local Open Scope Q_scope.




End EndToEnd.


Module Axes.

Lemma ratios_transpose (physical logical physical' logical' : CalibrationPoint -> Z)
    (pts : list CalibrationPoint) :
  (forall p, physical' (transpose p) = physical p) ->
  (forall p, logical' (transpose p) = logical p) ->
  ratios physical' logical' (map transpose pts) = ratios physical logical pts.
Proof.
  intros Hp Hl. unfold ratios.
  induction pts as [| p rest IH]; [reflexivity |].
  cbn [map filter]. rewrite Hl.
  destruct (negb (logical p =? 0)); [| exact IH].
  cbn [map]. rewrite Hp, Hl, IH. reflexivity.
Qed.

Lemma residuals_transpose
    (physical logical physical' logical' : CalibrationPoint -> Z)
    (pts : list CalibrationPoint) (scale : float) :
  (forall p, physical' (transpose p) = physical p) ->
  (forall p, logical' (transpose p) = logical p) ->
  residuals physical' logical' (map transpose pts) scale
  = residuals physical logical pts scale.
Proof.
  intros Hp Hl. unfold residuals.
  induction pts as [| p rest IH]; [reflexivity |].
  cbn [map filter]. rewrite Hl.
  destruct (negb (logical p =? 0)); [| exact IH].
  cbn [map]. rewrite Hp, Hl, IH. reflexivity.
Qed.

Lemma pixel_transpose (pts : list CalibrationPoint) :
  Forall pixel_point pts -> Forall pixel_point (map transpose pts).
Proof.
  intros H. apply Forall_map. eapply Forall_impl; [| exact H].
  intros p (H1 & H2 & H3 & H4). repeat split; assumption.
Qed.

End Axes.

(** The two axes are treated alike: on pixel coordinates, exchanging the
    x and y coordinates of every landmark exchanges the x and y fields of
    the model (scales, offsets and spreads) and keeps [consistent]. *)
Theorem axes_alike (now : datetime) (pts : list CalibrationPoint)
    (st st1 : store) (s : State) :
  Forall pixel_point pts ->
  compute_calibration now pts st = (Ok s, st1) ->
  exists s' : State,
    compute_calibration now (map transpose pts) st = (Ok s', Some s') /\
    scale_x s' = scale_y s /\ scale_y s' = scale_x s /\
    offset_x s' = offset_y s /\ offset_y s' = offset_x s /\
    spread_x s' = spread_y s /\ spread_y s' = spread_x s /\
    consistent s' = consistent s.
Proof.
  intros Hpix E.
  pose proof (Axes.pixel_transpose pts Hpix) as Hpix'.
  destruct (Steps.compute_calibration_inv _ _ _ _ _ E)
    as (mx & my & spx & spy & ox & oy & zx & zy & Nx & Ny & Emx & Emy & Espx & Espy
        & Eox & Eoy & Ezx & Ezy & Es & _).
  assert (Rx : ratios physical_x logical_x (map transpose pts)
               = ratios physical_y logical_y pts)
    by (apply Axes.ratios_transpose; reflexivity).
  assert (Ry : ratios physical_y logical_y (map transpose pts)
               = ratios physical_x logical_x pts)
    by (apply Axes.ratios_transpose; reflexivity).
  assert (Hlen : (2 <= List.length (map transpose pts))%nat).
  { rewrite length_map.
    destruct (Nat.ltb_spec (List.length pts) 2) as [Hl | Hl]; [| exact Hl].
    rewrite (compute_calibration_short now pts st Hl) in E. discriminate E. }
  destruct (Estimation.compute_calibration_pixel now (map transpose pts) st
              Hpix' Hlen) as (s' & E').
  { rewrite Rx. exact Ny. }
  { rewrite Ry. exact Nx. }
  exists s'. split; [exact E' |].
  destruct (Steps.compute_calibration_inv _ _ _ _ _ E')
    as (mx' & my' & spx' & spy' & ox' & oy' & zx' & zy' & _ & _ & Emx' & Emy'
        & Espx' & Espy' & Eox' & Eoy' & Ezx' & Ezy' & Es' & _).
  rewrite Rx, Emy in Emx'. rewrite Ry, Emx in Emy'.
  injection Emx' as <-. injection Emy' as <-.
  rewrite Rx, Espy in Espx'. rewrite Ry, Espx in Espy'.
  injection Espx' as <-. injection Espy' as <-.
  assert (Hx : Forall (fun p => pixel (physical_x p) /\ pixel (logical_x p)) pts).
  { eapply Forall_impl; [| exact Hpix]. intros p (H1 & _ & H2 & _).
    split; assumption. }
  assert (Hy : Forall (fun p => pixel (physical_y p) /\ pixel (logical_y p)) pts).
  { eapply Forall_impl; [| exact Hpix]. intros p (_ & H1 & _ & H2).
    split; assumption. }
  assert (Hx' : Forall (fun p => pixel (physical_x p) /\ pixel (logical_x p))
                       (map transpose pts)).
  { eapply Forall_impl; [| exact Hpix']. intros p (H1 & _ & H2 & _).
    split; assumption. }
  assert (Hy' : Forall (fun p => pixel (physical_y p) /\ pixel (logical_y p))
                       (map transpose pts)).
  { eapply Forall_impl; [| exact Hpix']. intros p (_ & H1 & _ & H2).
    split; assumption. }
  apply (Offsets.offsets_residuals _ _ _ _ _ Hx) in Eox.
  apply (Offsets.offsets_residuals _ _ _ _ _ Hy) in Eoy.
  apply (Offsets.offsets_residuals _ _ _ _ _ Hx') in Eox'.
  apply (Offsets.offsets_residuals _ _ _ _ _ Hy') in Eoy'.
  rewrite (Axes.residuals_transpose physical_y logical_y) in Eox'
    by reflexivity.
  rewrite (Axes.residuals_transpose physical_x logical_x) in Eoy'
    by reflexivity.
  subst ox oy ox' oy'.
  rewrite Ezy in Ezx'. rewrite Ezx in Ezy'.
  injection Ezx' as <-. injection Ezy' as <-.
  rewrite Es, Es'.
  cbn [scale_x scale_y offset_x offset_y spread_x spread_y consistent].
  repeat split. f_equal. apply andb_comm.
Qed.

Module Independent.

Lemma ratios_same (physical logical : CalibrationPoint -> Z)
    (pts pts' : list CalibrationPoint) :
  map physical pts = map physical pts' -> map logical pts = map logical pts' ->
  ratios physical logical pts = ratios physical logical pts'.
Proof.
  unfold ratios. revert pts'.
  induction pts as [| p rest IH]; intros [| p' rest']; cbn [map];
    try discriminate; [reflexivity |].
  intros Hp Hl. injection Hp as Ep Hp. injection Hl as El Hl.
  cbn [filter]. rewrite El.
  destruct (negb (logical p' =? 0)); cbn [map];
    rewrite ?Ep, ?El, (IH rest' Hp Hl); reflexivity.
Qed.

Lemma offsets_same (physical logical : CalibrationPoint -> Z)
    (pts pts' : list CalibrationPoint) (scale : float) :
  map physical pts = map physical pts' -> map logical pts = map logical pts' ->
  offsets physical logical pts scale = offsets physical logical pts' scale.
Proof.
  unfold offsets. revert pts'.
  induction pts as [| p rest IH]; intros [| p' rest']; cbn [map];
    try discriminate; [reflexivity |].
  intros Hp Hl. injection Hp as Ep Hp. injection Hl as El Hl.
  cbn [filter]. rewrite El.
  destruct (negb (logical p' =? 0)); cbn [mapM];
    rewrite ?Ep, ?El, (IH rest' Hp Hl); reflexivity.
Qed.

End Independent.

(** The x fields of the model depend on the x coordinates only: two
    estimations that return, on landmarks with the same physical and
    logical x coordinates, agree on [scale_x], [offset_x] and [spread_x],
    whatever the y coordinates are. *)
Theorem x_fields_from_x_coordinates (now now' : datetime)
    (pts pts' : list CalibrationPoint) (st st' st1 st1' : store) (s s' : State) :
  map physical_x pts = map physical_x pts' ->
  map logical_x pts = map logical_x pts' ->
  compute_calibration now pts st = (Ok s, st1) ->
  compute_calibration now' pts' st' = (Ok s', st1') ->
  scale_x s = scale_x s' /\ offset_x s = offset_x s' /\ spread_x s = spread_x s'.
Proof.
  intros Hp Hl E E'.
  destruct (Steps.compute_calibration_inv _ _ _ _ _ E)
    as (mx & my & spx & spy & ox & oy & zx & zy & _ & _ & Emx & _ & Espx & _
        & Eox & _ & Ezx & _ & Es & _).
  destruct (Steps.compute_calibration_inv _ _ _ _ _ E')
    as (mx' & my' & spx' & spy' & ox' & oy' & zx' & zy' & _ & _ & Emx' & _
        & Espx' & _ & Eox' & _ & Ezx' & _ & Es' & _).
  rewrite <- (Independent.ratios_same _ _ _ _ Hp Hl), Emx in Emx'.
  injection Emx' as <-.
  rewrite <- (Independent.ratios_same _ _ _ _ Hp Hl), Espx in Espx'.
  injection Espx' as <-.
  rewrite <- (Independent.offsets_same _ _ _ _ mx Hp Hl), Eox in Eox'.
  injection Eox' as <-.
  rewrite Ezx in Ezx'. injection Ezx' as <-.
  rewrite Es, Es'. cbn [scale_x offset_x spread_x]. repeat split.
Qed.

(** ** The way back *)

Module Reverse.
Import B64 RneFacts Pow2 FlFacts PyFacts.
Local Open Scope Q_scope.

(** The conversion to physical returns on every logical coordinate a
    float holds exactly. *)
Lemma to_physical_ok (x o : Z) (s : float) :
  (Z.abs x <= 2 ^ 52)%Z -> pixel o -> Qabs s <= 2 ^ 31 ->
  to_physical x o (Some s) = Ok (rne (fl (fl (inject_Z x * s) + inject_Z o))).
Proof.
  intros Hx Ho Hs. unfold to_physical. cbn [number].
  pose proof (Conversion.Z_abs_le_pow2 _ 52 ltac:(lia) Hx) as Bx.
  destruct (check_fl OverflowError _ 52 Bx) as [Ex' _]; [unfold emin, emax; lia |].
  assert (Ex : fl (inject_Z x) == inject_Z x).
  { apply fl_Z. apply (Exact.Z_small x 52); [lia | exact Hx]. }
  destruct (Estimation.float_of_int_pixel _ Ho) as [Eo' Eo].
  pose proof (Estimation.pixel_abs _ Ho) as Bo.
  assert (Em : fl (fl (inject_Z x) * s) = fl (inject_Z x * s)).
  { apply fl_Qeq. rewrite Ex. reflexivity. }
  assert (Hm : Qabs (inject_Z x * s) <= 2 ^ 83).
  { rewrite Qabs_Qmult. change (2 ^ 83) with (2 ^ 52 * 2 ^ 31).
    pose proof (Qabs_nonneg (inject_Z x)). pose proof (Qabs_nonneg s). nra. }
  destruct (check_fl NonFinite _ 83 Hm) as [E1 B1]; [unfold emin, emax; lia |].
  rewrite bind_Ok, float_of_int_eq, Ex', bind_Ok, fmul_eq, Em, E1, bind_Ok, Eo',
    bind_Ok, fadd_eq.
  assert (Ea : fl (fl (inject_Z x * s) + fl (inject_Z o))
               = fl (fl (inject_Z x * s) + inject_Z o)).
  { apply fl_Qeq. rewrite Eo. reflexivity. }
  assert (Ha : Qabs (fl (inject_Z x * s) + inject_Z o) <= 2 ^ 84).
  { apply Qabs_Qle_condition in Bo. apply Qabs_Qle_condition in B1.
    apply Qabs_Qle_condition.
    assert (E84 : 2 ^ 84 == 2 * 2 ^ 83) by reflexivity.
    assert (E83 : 2 ^ 31 <= 2 ^ 83) by (apply pow2_le; lia).
    lra. }
  destruct (check_fl NonFinite _ 84 Ha) as [E2 _]; [unfold emin, emax; lia |].
  rewrite Ea, E2, bind_Ok. reflexivity.
Qed.

(** Multiplying by a scale of at most 5/2 multiplies an error by that. *)
Lemma mul_error (l z s c K : Q) :
  0 < s -> s <= 5 # 2 -> z * s == c -> 0 <= K ->
  l - z <= K -> z - l <= K ->
  l * s - c <= (5 # 2) * K /\ c - l * s <= (5 # 2) * K.
Proof.
  intros Hs0 Hs1 E HK H1 H2. split; apply Qnot_lt_le; intros Hlt; nra.
Qed.

Lemma reverse_analysis (p o l p' : Z) (s c1 q1 a1 b1 : Q) :
  pixel p -> pixel o -> 1 # 2 <= s -> s <= 5 # 2 ->
  c1 = fl (inject_Z (p - o)) ->
  q1 = fl (c1 / s) ->
  l = rne q1 ->
  a1 = fl (inject_Z l * s) ->
  b1 = fl (a1 + inject_Z o) ->
  p' = rne b1 ->
  (Z.abs l <= 2 ^ 52)%Z /\ (Z.abs (p' - p) <= 1)%Z.
Proof.
  intros Hp Ho Hs1 Hs2 Ec Eq1 El Ea Eb Ep'.
  pose proof (Estimation.pixel_abs _ Hp) as BP.
  pose proof (Estimation.pixel_abs _ Ho) as BO.
  apply Qabs_Qle_condition in BP. apply Qabs_Qle_condition in BO.
  assert (E31 : 2 ^ 31 == 2147483648 # 1) by reflexivity.
  rewrite E31 in BP, BO. clear E31.
  destruct Conversion.eta_small as [He0 He1].
  assert (ED : inject_Z (p - o) == inject_Z p - inject_Z o).
  { unfold Z.sub. rewrite inject_Z_plus, inject_Z_opp. reflexivity. }
  assert (EP1 : inject_Z (p' - p) == inject_Z p' - inject_Z p).
  { unfold Z.sub. rewrite inject_Z_plus, inject_Z_opp. reflexivity. }
  assert (EP2 : inject_Z (p - p') == inject_Z p - inject_Z p').
  { unfold Z.sub. rewrite inject_Z_plus, inject_Z_opp. reflexivity. }
  remember (inject_Z p) as P eqn:EqP. remember (inject_Z o) as O eqn:EqO.
  remember (inject_Z (p - o)) as D eqn:EqD.
  assert (BD : - (4294967296 # 1) <= D /\ D <= 4294967296 # 1) by (split; lra).
  destruct (Conversion.fl_rel_bound D _ (proj1 BD) (proj2 BD)) as [Ec1 Ec2].
  rewrite <- Ec in Ec1, Ec2.
  assert (Ez : c1 / s * s == c1) by (field; lra).
  remember (c1 / s) as z eqn:Eqz.
  assert (Bz : - (8589934594 # 1) <= z /\ z <= 8589934594 # 1).
  { split; apply Qnot_lt_le; intros Hlt; nra. }
  destruct (Conversion.fl_rel_bound z _ (proj1 Bz) (proj2 Bz)) as [Ef1 Ef2].
  rewrite <- Eq1 in Ef1, Ef2.
  destruct (rne_bounds q1) as [Er1 Er2]. rewrite <- El in Er1, Er2.
  remember (inject_Z l) as L eqn:EqL.
  assert (HL : L - z <= (1 # 2) + (1 # 1000) /\ z - L <= (1 # 2) + (1 # 1000))
    by (split; lra).
  destruct (mul_error L z s c1 ((1 # 2) + (1 # 1000)) ltac:(lra) Hs2 Ez
              ltac:(lra) (proj1 HL) (proj2 HL)) as [Hm1 Hm2].
  remember (L * s) as A eqn:EqA.
  assert (BA : - (4294967299 # 1) <= A /\ A <= 4294967299 # 1) by (split; lra).
  destruct (Conversion.fl_rel_bound A _ (proj1 BA) (proj2 BA)) as [Ea1 Ea2].
  rewrite <- Ea in Ea1, Ea2.
  assert (BB : - (6442450948 # 1) <= a1 + O /\ a1 + O <= 6442450948 # 1)
    by (split; lra).
  destruct (Conversion.fl_rel_bound (a1 + O) _ (proj1 BB) (proj2 BB)) as [Eb1 Eb2].
  rewrite <- Eb in Eb1, Eb2.
  destruct (rne_bounds b1) as [Ep1 Ep2]. rewrite <- Ep' in Ep1, Ep2.
  split.
  - rewrite Zle_Qle, <- Qabs_inject_Z, <- EqL. apply Qabs_Qle_condition.
    change (inject_Z (2 ^ 52)) with (4503599627370496 # 1).
    split; lra.
  - assert (Hz1 : (p' - p < 2)%Z).
    { rewrite Zlt_Qlt, EP1. change (inject_Z 2) with 2. lra. }
    assert (Hz2 : (p - p' < 2)%Z).
    { rewrite Zlt_Qlt, EP2. change (inject_Z 2) with 2. lra. }
    lia.
Qed.

(** Physical to logical and back, on one axis: within one pixel when the
    scale is between one half and five halves. *)
Lemma axis_reverse (p o : Z) (s : float) :
  pixel p -> pixel o -> 1 # 2 <= s -> s <= 5 # 2 ->
  exists l p' : Z,
    to_logical p o (Some s) = Ok l /\
    to_physical l o (Some s) = Ok p' /\
    (Z.abs (p' - p) <= 1)%Z.
Proof.
  intros Hp Ho Hs1 Hs2.
  assert (Habs : Qabs s == s) by (apply Qabs_pos; lra).
  assert (Hlo : 2 ^ (-20) <= Qabs s).
  { rewrite Habs. assert (2 ^ (-20) <= 1 # 2) by (vm_compute; discriminate). lra. }
  assert (Hhi : Qabs s <= 2 ^ 31).
  { rewrite Habs. assert ((5 # 2) <= 2 ^ 31) by (vm_compute; discriminate). lra. }
  destruct (reverse_analysis p o _ _ s _ _ _ _ Hp Ho Hs1 Hs2
              eq_refl eq_refl eq_refl eq_refl eq_refl eq_refl) as [Hl Hr].
  pose proof (Conversion.pixel_diff p o Hp Ho) as Hd.
  assert (H64 : (Z.abs (p - o) <= 2 ^ 64)%Z).
  { assert (2 ^ 32 <= 2 ^ 64)%Z by (apply Z.pow_le_mono_r; lia). lia. }
  eexists. eexists.
  split; [apply (Conversion.to_logical_ok p o s H64 Hlo) |].
  split; [| exact Hr].
  apply (to_physical_ok _ o s Hl Ho Hhi).
Qed.

End Reverse.

(** A physical point survives the way to logical and back.  For a
    calibrated record whose scales are between 0.5 and 2.5 and whose
    offsets are pixel coordinates, converting pixel coordinates
    physical to logical and the result logical to physical returns
    coordinates within 1 pixel of those it started from, on each axis. *)
Theorem reverse_round_trip_bound (st : store) (px py : Z) (sx sy : float) :
  calibrated (loaded st) = true ->
  scale_x (loaded st) = Some sx -> scale_y (loaded st) = Some sy ->
  (1 # 2 <= sx <= 5 # 2)%Q -> (1 # 2 <= sy <= 5 # 2)%Q ->
  pixel (offset_x (loaded st)) -> pixel (offset_y (loaded st)) ->
  pixel px -> pixel py ->
  exists lx ly px' py' : Z,
    physical_to_logical px py st = (Ok (lx, ly), st) /\
    logical_to_physical lx ly st = (Ok (px', py'), st) /\
    Z.abs (px' - px) <= 1 /\ Z.abs (py' - py) <= 1.
Proof.
  intros Hc Sx Sy [Lx Ux] [Ly Uy] Ox Oy Px Py.
  destruct (Reverse.axis_reverse px _ sx Px Ox Lx Ux)
    as (lx & px' & Ex1 & Ex2 & Hx).
  destruct (Reverse.axis_reverse py _ sy Py Oy Ly Uy)
    as (ly & py' & Ey1 & Ey2 & Hy).
  exists lx, ly, px', py'.
  unfold logical_to_physical, physical_to_logical.
  rewrite !bindM_load, Hc, Sx, Sy. cbn [negb].
  rewrite !bindM_lift, Ex1, Ex2. rewrite !bindM_lift, Ey1, Ey2.
  repeat split; assumption.
Qed.

(** ** The properties at work on the 125 % display *)

Lemma landmarks_estimate :
  compute_calibration 1700000000000000 landmarks None
  = (Ok (loaded calibrated_once), calibrated_once).
Proof. vm_compute. reflexivity. Qed.

Lemma sample_report_run :
  run_all_checks 1700007200000000 (Stdout "OK") absent_install verified_once
  = (Ok sample_report, verified_once).
Proof. vm_compute. reflexivity. Qed.

Lemma estimate_then_check_witness :
  check_calibration 1700003600000000 calibrated_once =
  (Ok (if timedelta_days 7 <? 1700003600000000 - 1700000000000000 then
         {| status := "stale";
            msg := CalibrationIsDaysOld
                     (days (1700003600000000 - 1700000000000000));
            scales := Some (scale_x (loaded calibrated_once),
                            scale_y (loaded calibrated_once));
            action_needed := true |}
       else
         {| status := "unverified"; msg := ComputedButNotVerified;
            scales := Some (scale_x (loaded calibrated_once),
                            scale_y (loaded calibrated_once));
            action_needed := true |}),
   calibrated_once).
Proof.
  exact (estimate_then_check 1700000000000000 1700003600000000 landmarks None
           calibrated_once (loaded calibrated_once) landmarks_estimate).
Defined.

Lemma verify_then_check_witness :
  exists (s' : State) (h : Health),
    mark_verified 1700003600000000 true "cursor on the minimize button"
      calibrated_once = (Ok s', Some s') /\
    check_calibration 1700007200000000 (Some s') = (Ok h, Some s') /\
    status h =
      (if (timedelta_days 7 <? 1700007200000000 - 1700000000000000)%Z
       then "stale"
       else if negb true then "unverified"
       else if negb (default_true (consistent (loaded calibrated_once)))
            then "inconsistent"
       else "ok")%string /\
    scales h = Some (scale_x (loaded calibrated_once),
                     scale_y (loaded calibrated_once)).
Proof.
  exact (verify_then_check 1700000000000000 1700003600000000 1700007200000000
           landmarks true "cursor on the minimize button" None calibrated_once
           (loaded calibrated_once) landmarks_estimate).
Defined.

Lemma verify_without_calibration_witness :
  exists s : State,
    mark_verified 1700003600000000 true "" None = (Ok s, Some s) /\
    calibrated s = false /\ verified s = true /\
    (exists h : Health,
       check_calibration 1700007200000000 (Some s) = (Ok h, Some s) /\
       status h = "missing"%string) /\
    physical_to_logical 1910 1070 (Some s) = (Raise NotCalibrated, Some s) /\
    logical_to_physical 1910 1070 (Some s) = (Raise NotCalibrated, Some s).
Proof.
  apply (verify_without_calibration 1700003600000000 1700007200000000 true ""
           1910 1070 None).
  reflexivity.
Defined.

Lemma check_calibration_verdict_witness :
  exists h : Health,
    check_calibration 1700003600000000 calibrated_once
    = (Ok h, calibrated_once) /\
    status h = status_of 1700003600000000 (loaded calibrated_once)
                 1700000000000000 /\
    action_needed h = negb (String.eqb (status h) "ok") /\
    scales h = if calibrated (loaded calibrated_once)
               then Some (scale_x (loaded calibrated_once),
                          scale_y (loaded calibrated_once))
               else None.
Proof.
  apply (check_calibration_verdict 1700003600000000 calibrated_once
           1700000000000000).
  right. vm_compute. reflexivity.
Defined.

Lemma stale_reports_a_week_witness :
  exists t : datetime,
    calibrated_at (loaded calibrated_once) = Some t /\
    timedelta_days 7 < 1700691200000000 - t /\
    msg {| status := "stale"; msg := CalibrationIsDaysOld 8;
           scales := Some (Some (5 # 4)%Q, Some (5 # 4)%Q);
           action_needed := true |}
    = CalibrationIsDaysOld (days (1700691200000000 - t)) /\
    7 <= days (1700691200000000 - t).
Proof.
  apply (stale_reports_a_week 1700691200000000 calibrated_once).
  - vm_compute. reflexivity.
  - reflexivity.
Defined.

Lemma overall_verdict_witness :
  overall_status (overall sample_report) =
    (if String.eqb (ui_status (ui_automation sample_report)) "error"
        || String.eqb (mcp_status (windows_mcp sample_report)) "error"
     then "error"
     else if String.eqb (status (calibration sample_report)) "ok" then "ok"
     else "action_needed")%string /\
  (overall_message (overall sample_report) = "All checks passed"%string <->
   overall_status (overall sample_report) = "ok"%string).
Proof.
  exact (overall_verdict 1700007200000000 (Stdout "OK") absent_install
           verified_once verified_once sample_report sample_report_run).
Defined.

Lemma missing_install_passes_witness :
  mcp_status (windows_mcp sample_report) = "missing"%string /\
  (overall_status (overall sample_report) = "ok"%string <->
   status (calibration sample_report) = "ok"%string /\
   exists output : string,
     Stdout "OK" = Stdout output /\ contains "OK" output = true).
Proof.
  apply (missing_install_passes 1700007200000000 (Stdout "OK") absent_install
           verified_once verified_once sample_report sample_report_run).
  reflexivity.
Defined.

Lemma failed_call_keeps_store_witness :
  call_tool 1700007200000000 (Stdout "OK") absent_install (calibrate [])
    calibrated_once
  = (Error InsufficientSamples, calibrated_once) /\
  calibrated_once = calibrated_once.
Proof.
  assert (H : call_tool 1700007200000000 (Stdout "OK") absent_install
                (calibrate []) calibrated_once
              = (Error InsufficientSamples, calibrated_once))
    by reflexivity.
  split; [exact H |].
  exact (failed_call_keeps_store _ _ _ _ _ _ _ H).
Defined.

Lemma convert_uncalibrated_witness :
  call_tool 1700007200000000 (Stdout "OK") absent_install
    (convert_coordinates 1910 1070 "physical" "logical") None =
  (if String.eqb "physical" "logical" then SameSystem 1910 1070
   else Error NotCalibrated, None).
Proof.
  apply (convert_uncalibrated 1700007200000000 (Stdout "OK") absent_install
           1910 1070 "physical" "logical" None).
  reflexivity.
Defined.

Lemma calibrate_sample :
  call_tool 1700000000000000 (Stdout "OK") absent_install (calibrate landmarks)
    None
  = (Calibrated (Some (5 # 4)%Q) (Some (5 # 4)%Q) 0 0 (Some true)
       (Some 0%Q) (Some 0%Q) 3, calibrated_once).
Proof. vm_compute. reflexivity. Qed.

Lemma calibrate_then_get_witness :
  exists s : State,
    calibrated_once = Some s /\
    Calibrated (Some (5 # 4)%Q) (Some (5 # 4)%Q) 0 0 (Some true)
      (Some 0%Q) (Some 0%Q) 3
    = Calibrated (scale_x s) (scale_y s) (offset_x s) (offset_y s)
        (consistent s) (spread_x s) (spread_y s) (List.length (points s)) /\
    (2 <= List.length (points s))%nat /\
    call_tool 1700007200000000 (Stdout "OK") absent_install get_calibration
      calibrated_once
    = (CalibrationState s, calibrated_once).
Proof.
  apply (calibrate_then_get 1700000000000000 1700007200000000 (Stdout "OK")
           absent_install landmarks None calibrated_once _ calibrate_sample).
  intros e. discriminate.
Defined.

Lemma conversions_monotone_witness :
  keeps_order logical_to_physical calibrated_once 8 8 1528 856 /\
  keeps_order physical_to_logical calibrated_once 8 8 1528 856.
Proof.
  apply (conversions_monotone calibrated_once (5 # 4)%Q (5 # 4)%Q 8 8 1528 856).
  - vm_compute. reflexivity.
  - vm_compute. reflexivity.
  - vm_compute. reflexivity.
  - split; vm_compute; discriminate.
  - split; vm_compute; discriminate.
  - vm_compute. discriminate.
  - vm_compute. discriminate.
  - vm_compute. discriminate.
  - vm_compute. discriminate.
  - vm_compute. discriminate.
  - vm_compute. discriminate.
  - lia.
  - lia.
Defined.

Lemma round_trip_exact_witness :
  logical_to_physical 1528 856 calibrated_once
  = (Ok (1910 + offset_x (loaded calibrated_once),
         1070 + offset_y (loaded calibrated_once)), calibrated_once) /\
  physical_to_logical (1910 + offset_x (loaded calibrated_once))
    (1070 + offset_y (loaded calibrated_once)) calibrated_once
  = (Ok (1528, 856), calibrated_once).
Proof.
  apply (round_trip_exact calibrated_once (5 # 4)%Q (5 # 4)%Q
           1528 856 1910 1070).
  - vm_compute. reflexivity.
  - vm_compute. reflexivity.
  - vm_compute. reflexivity.
  - split; vm_compute; discriminate.
  - split; vm_compute; discriminate.
  - vm_compute. discriminate.
  - vm_compute. discriminate.
  - vm_compute. discriminate.
  - vm_compute. discriminate.
  - vm_compute. discriminate.
  - vm_compute. discriminate.
  - reflexivity.
  - reflexivity.
Defined.

Lemma zero_scale_one_way_witness :
  physical_to_logical 5 5 origin_store = (Raise ZeroDivisionError, origin_store) /\
  exists px py : Z,
    logical_to_physical 5 5 origin_store = (Ok (px, py), origin_store) /\
    ((0 == 0)%Q -> px = offset_x (loaded origin_store)) /\
    ((0 == 0)%Q -> py = offset_y (loaded origin_store)).
Proof.
  apply (zero_scale_one_way origin_store 0%Q 0%Q 5 5).
  - vm_compute. reflexivity.
  - vm_compute. reflexivity.
  - vm_compute. reflexivity.
  - left. reflexivity.
  - left. reflexivity.
  - left. reflexivity.
  - vm_compute. discriminate.
  - vm_compute. discriminate.
  - vm_compute. discriminate.
  - vm_compute. discriminate.
Defined.

Lemma mirrored_estimate :
  compute_calibration 0 mirrored None = (Ok (loaded mirrored_store), mirrored_store).
Proof. vm_compute. reflexivity. Qed.

Lemma stored_offset_is_rounded_median_witness :
  exists mx my rx ry : float,
    statistics.median (ratios physical_x logical_x landmarks) = Ok mx /\
    statistics.median (ratios physical_y logical_y landmarks) = Ok my /\
    residuals physical_x logical_x landmarks mx <> [] /\
    residuals physical_y logical_y landmarks my <> [] /\
    is_median (residuals physical_x logical_x landmarks mx) rx /\
    is_median (residuals physical_y logical_y landmarks my) ry /\
    offset_x (loaded calibrated_once) = Py.round rx /\
    offset_y (loaded calibrated_once) = Py.round ry.
Proof.
  exact (stored_offset_is_rounded_median 1700000000000000 landmarks None
           calibrated_once (loaded calibrated_once) landmarks_pixel
           landmarks_estimate).
Defined.

Lemma mirrored_axes_consistent_witness :
  consistent (loaded mirrored_store) = Some true.
Proof.
  apply (mirrored_axes_consistent 0 mirrored None mirrored_store).
  - repeat constructor; simpl; lia.
  - exact mirrored_estimate.
Defined.

Lemma collinear_estimate_witness :
  exists s : State,
    compute_calibration 1700000000000000 landmarks None = (Ok s, Some s) /\
    scale_x s = Some (Py.round_nd (B64.fl (5 # 4)) 6) /\
    scale_y s = Some (Py.round_nd (B64.fl (5 # 4)) 6) /\
    offset_x s = 0 /\ offset_y s = 0 /\
    spread_x s = Some 0%Q /\ spread_y s = Some 0%Q /\
    consistent s = Some true.
Proof.
  apply (collinear_estimate 1700000000000000 landmarks None (5 # 4)%Q (5 # 4)%Q).
  - simpl. lia.
  - repeat constructor; unfold pixel; simpl; lia.
  - intros H. inversion H. discriminate.
  - intros H. inversion H. discriminate.
  - repeat constructor; reflexivity.
Defined.

Lemma estimate_order_irrelevant_witness :
  exists s' : State,
    compute_calibration 1700000000000000 landmarks_swapped None
    = (Ok s', Some s') /\
    scale_x s' = scale_x (loaded calibrated_once) /\
    scale_y s' = scale_y (loaded calibrated_once) /\
    offset_x s' = offset_x (loaded calibrated_once) /\
    offset_y s' = offset_y (loaded calibrated_once) /\
    consistent s' = consistent (loaded calibrated_once) /\
    spread_x s' = spread_x (loaded calibrated_once) /\
    spread_y s' = spread_y (loaded calibrated_once) /\
    points s' = landmarks_swapped.
Proof.
  apply (estimate_order_irrelevant 1700000000000000 landmarks landmarks_swapped
           None calibrated_once (loaded calibrated_once)).
  - apply perm_swap.
  - repeat constructor; unfold pixel; simpl; lia.
  - exact landmarks_estimate.
Defined.

Lemma consistency_band_witness :
  exists mx my : float,
    statistics.median (ratios physical_x logical_x landmarks) = Ok mx /\
    statistics.median (ratios physical_y logical_y landmarks) = Ok my /\
    (consistent (loaded calibrated_once) = Some true ->
     Forall (close_to mx) (ratios physical_x logical_x landmarks) /\
     Forall (close_to my) (ratios physical_y logical_y landmarks)) /\
    (consistent (loaded calibrated_once) = Some false ->
     apart mx (ratios physical_x logical_x landmarks) \/
     apart my (ratios physical_y logical_y landmarks)).
Proof.
  exact (consistency_band 1700000000000000 landmarks None calibrated_once
           (loaded calibrated_once) landmarks_aligned landmarks_estimate).
Defined.

Lemma stored_scale_near_median_witness :
  exists mx my qx qy : float,
    statistics.median (ratios physical_x logical_x landmarks) = Ok mx /\
    statistics.median (ratios physical_y logical_y landmarks) = Ok my /\
    scale_x (loaded calibrated_once) = Some qx /\
    scale_y (loaded calibrated_once) = Some qy /\
    (Qabs (qx - mx) <= 1 # 1000000)%Q /\ (Qabs (qy - my) <= 1 # 1000000)%Q.
Proof.
  exact (stored_scale_near_median 1700000000000000 landmarks None
           calibrated_once (loaded calibrated_once) landmarks_pixel
           landmarks_estimate).
Defined.


Lemma reverse_round_trip_bound_witness :
  exists lx ly px' py' : Z,
    physical_to_logical 1910 1070 calibrated_once
    = (Ok (lx, ly), calibrated_once) /\
    logical_to_physical lx ly calibrated_once
    = (Ok (px', py'), calibrated_once) /\
    Z.abs (px' - 1910) <= 1 /\ Z.abs (py' - 1070) <= 1.
Proof.
  apply (reverse_round_trip_bound calibrated_once 1910 1070 (5 # 4)%Q (5 # 4)%Q).
  - vm_compute. reflexivity.
  - vm_compute. reflexivity.
  - vm_compute. reflexivity.
  - split; vm_compute; discriminate.
  - split; vm_compute; discriminate.
  - vm_compute. discriminate.
  - vm_compute. discriminate.
  - vm_compute. discriminate.
  - vm_compute. discriminate.
Defined.

Lemma axes_alike_witness :
  exists s' : State,
    compute_calibration 1700000000000000 (map transpose landmarks) None
    = (Ok s', Some s') /\
    scale_x s' = scale_y (loaded calibrated_once) /\
    scale_y s' = scale_x (loaded calibrated_once) /\
    offset_x s' = offset_y (loaded calibrated_once) /\
    offset_y s' = offset_x (loaded calibrated_once) /\
    spread_x s' = spread_y (loaded calibrated_once) /\
    spread_y s' = spread_x (loaded calibrated_once) /\
    consistent s' = consistent (loaded calibrated_once).
Proof.
  exact (axes_alike 1700000000000000 landmarks None calibrated_once
           (loaded calibrated_once) landmarks_pixel landmarks_estimate).
Defined.

Lemma other_rows_estimate :
  compute_calibration 1700000000000000 other_rows None
  = (Ok (loaded other_rows_store), other_rows_store).
Proof. vm_compute. reflexivity. Qed.

Lemma x_fields_from_x_coordinates_witness :
  scale_x (loaded calibrated_once) = scale_x (loaded other_rows_store) /\
  offset_x (loaded calibrated_once) = offset_x (loaded other_rows_store) /\
  spread_x (loaded calibrated_once) = spread_x (loaded other_rows_store).
Proof.
  apply (x_fields_from_x_coordinates 1700000000000000 1700000000000000
           landmarks other_rows None None calibrated_once other_rows_store).
  - reflexivity.
  - reflexivity.
  - exact landmarks_estimate.
  - exact other_rows_estimate.
Defined.

Example fl_tenth :
  B64.fl (1 # 10) = (3602879701896397 # 36028797018963968)%Q.
Proof. vm_compute. reflexivity. Qed.
